(** * hm_8.py: the contact book and its upcoming-birthday query

    A shallow embedding of [src/hm_8.py]: the validated fields [Phone] and
    [Birthday], the mutable [Record] objects, the [AddressBook] dictionary
    and [AddressBook.get_upcoming_birthdays].

    Python values are modelled as the interpreter has them:
    - a [str] is a sequence of Unicode code points ([list N]);
    - [str.isdigit], [int] and the [\d] class of [re] read the Unicode
      tables of the interpreter (Unicode 14.0.0, the tables of CPython 3.11);
    - [datetime.date] follows the reference implementation of the standard
      library ([_pydatetime]: proleptic Gregorian ordinals, years 1..9999);
    - [Record] objects live in a heap and are shared by reference between
      the address book and its callers;
    - the dictionary [AddressBook.data] keeps insertion order. *)

From Stdlib Require Import ZArith NArith Lia String Ascii.
From stdpp Require Import base option list gmap pretty.

(** ** Python strings *)

Definition pystr := list N.

(** An ASCII literal as a Python string. *)
Definition lit (s : string) : pystr :=
  map N_of_ascii (list_ascii_of_string s).

(** Code points of the decimal digit zero of every script (general category
    Nd); each is followed by the digits one to nine of the same script. *)
Definition Nd_zeros : list N :=
  [48; 1632; 1776; 1984; 2406; 2534; 2662; 2790; 2918; 3046; 3174; 3302;
   3430; 3558; 3664; 3792; 3872; 4160; 4240; 6112; 6160; 6470; 6608; 6784;
   6800; 6992; 7088; 7232; 7248; 42528; 43216; 43264; 43472; 43504; 43600;
   44016; 65296; 66720; 68912; 69734; 69872; 69942; 70096; 70384; 70736;
   70864; 71248; 71360; 71472; 71904; 72016; 72784; 73040; 73120; 92768;
   92864; 93008; 120782; 120792; 120802; 120812; 120822; 123200; 123632;
   125264; 130032]%N.

(** Code points with Numeric_Type=Digit that are not decimal: superscripts,
    subscripts, circled and parenthesised digits and the like. *)
Definition digit_only_ranges : list (N * N) :=
  [(178, 179); (185, 185); (4969, 4977); (6618, 6618); (8304, 8304);
   (8308, 8313); (8320, 8329); (9312, 9320); (9332, 9340); (9352, 9360);
   (9450, 9450); (9461, 9469); (9471, 9471); (10102, 10110);
   (10112, 10120); (10122, 10130); (68160, 68163); (69216, 69224);
   (69714, 69722); (127232, 127242)]%N.

(** Code points for which [str.isspace] holds. *)
Definition whitespace : list N :=
  [9; 10; 11; 12; 13; 28; 29; 30; 31; 32; 133; 160; 5760; 8192; 8193; 8194;
   8195; 8196; 8197; 8198; 8199; 8200; 8201; 8202; 8232; 8233; 8239; 8287;
   12288]%N.

Definition in_range (lo hi c : N) : bool := ((lo <=? c) && (c <=? hi))%N.

(** The value of a decimal digit, [None] for any other character. *)
Definition decimal_value (c : N) : option N :=
  match List.find (fun z => in_range z (z + 9) c) Nd_zeros with
  | Some z => Some (c - z)%N
  | None => None
  end.

Definition isdecimal_char (c : N) : bool :=
  match decimal_value c with Some _ => true | None => false end.

Definition isdigit_char (c : N) : bool :=
  isdecimal_char c
  || existsb (fun r => in_range (fst r) (snd r) c) digit_only_ranges.

Definition isspace_char (c : N) : bool :=
  existsb (N.eqb c) whitespace.

(** [str.isdigit()]: every character is a digit and there is at least one. *)
Definition isdigit (s : pystr) : bool :=
  match s with
  | [] => false
  | _ => forallb isdigit_char s
  end.

(** What the specification calls an ASCII digit. *)
Definition ascii_digit (c : N) : bool := in_range 48 57 c.

Definition pystr_eqb (a b : pystr) : bool := bool_decide (a = b).

(** ** Exceptions and results *)

Inductive exn : Type :=
| ValueError (msg : string)
| OverflowError (msg : string)
| DanglingReference.
(** [DanglingReference] is not a Python exception: it is the answer of the
    model when a location that holds no object is read, which no program can
    do; see [wf]. *)

Inductive result (A : Type) : Type :=
| Ok (a : A)
| Raise (e : exn).
Arguments Ok {A} a.
Arguments Raise {A} e.

Definition rbind {A B} (r : result A) (k : A -> result B) : result B :=
  match r with
  | Ok a => k a
  | Raise e => Raise e
  end.

(** [try: r  except ValueError: h] *)
Definition try_except_ValueError {A} (r : result A) (h : result A) : result A :=
  match r with
  | Raise (ValueError _) => h
  | _ => r
  end.

(** ** Fields *)

(** [class Field]: an object with one attribute, [value]. *)
Record Field (V : Type) : Type := mkField { value : V }.
Arguments mkField {V} value.
Arguments value {V} f.

Definition Name := Field pystr.

Definition Phone := Field pystr.

Definition msg_phone : string := "Phone number must contain exactly 10 digits.".

(** [Phone.__init__] *)
Definition Phone_init (v : pystr) : result Phone :=
  if negb (isdigit v && (length v =? 10)%nat)
  then Raise (ValueError msg_phone)
  else Ok (mkField v).

(** ** The [datetime] module of the standard library *)

Module datetime.
Local Open Scope Z_scope.

Definition MINYEAR : Z := 1.
Definition MAXYEAR : Z := 9999.
Definition _MAXORDINAL : Z := 3652059.

(** The tables [_DAYS_IN_MONTH] and [_DAYS_BEFORE_MONTH]; index 0 holds the
    placeholder -1, and the callers only pass months 1..12. *)
Definition _DAYS_IN_MONTH (m : Z) : Z :=
  match m with
  | 1 => 31 | 2 => 28 | 3 => 31 | 4 => 30 | 5 => 31 | 6 => 30
  | 7 => 31 | 8 => 31 | 9 => 30 | 10 => 31 | 11 => 30 | 12 => 31
  | _ => -1
  end.

Definition _DAYS_BEFORE_MONTH (m : Z) : Z :=
  match m with
  | 1 => 0 | 2 => 31 | 3 => 59 | 4 => 90 | 5 => 120 | 6 => 151
  | 7 => 181 | 8 => 212 | 9 => 243 | 10 => 273 | 11 => 304 | 12 => 334
  | _ => -1
  end.

Definition _is_leap (y : Z) : bool :=
  (y mod 4 =? 0) && (negb (y mod 100 =? 0) || (y mod 400 =? 0)).

Definition _days_before_year (year : Z) : Z :=
  let y := year - 1 in
  y * 365 + y / 4 - y / 100 + y / 400.

Definition _days_in_month (year m : Z) : Z :=
  if (m =? 2) && _is_leap year then 29 else _DAYS_IN_MONTH m.

Definition _days_before_month (year m : Z) : Z :=
  _DAYS_BEFORE_MONTH m + (if (2 <? m) && _is_leap year then 1 else 0).

Definition _ymd2ord (year m d : Z) : Z :=
  _days_before_year year + _days_before_month year m + d.

Definition _DI400Y : Z := 146097.
Definition _DI100Y : Z := 36524.
Definition _DI4Y : Z := 1461.

Definition _ord2ymd (n0 : Z) : Z * Z * Z :=
  let n := n0 - 1 in
  let n400 := n / _DI400Y in
  let n := n mod _DI400Y in
  let year := n400 * 400 + 1 in
  let n100 := n / _DI100Y in
  let n := n mod _DI100Y in
  let n4 := n / _DI4Y in
  let n := n mod _DI4Y in
  let n1 := n / 365 in
  let n := n mod 365 in
  let year := year + n100 * 100 + n4 * 4 + n1 in
  if (n1 =? 4) || (n100 =? 4) then (year - 1, 12, 31)
  else
    let leapyear := (n1 =? 3) && (negb (n4 =? 24) || (n100 =? 3)) in
    let m := Z.shiftr (n + 50) 5 in
    let preceding :=
      _DAYS_BEFORE_MONTH m + (if (2 <? m) && leapyear then 1 else 0) in
    if n <? preceding then
      let m := m - 1 in
      let preceding :=
        preceding
        - (_DAYS_IN_MONTH m + (if (m =? 2) && leapyear then 1 else 0)) in
      (year, m, n - preceding + 1)
    else (year, m, n - preceding + 1).

(** [datetime.date]: the attributes [year], [month], [day]. *)
Record date : Type := mkdate { year : Z; month : Z; day : Z }.

#[export] Instance date_eq_dec : EqDecision date.
Proof. solve_decision. Defined.

(** The class invariant that the constructor enforces. *)
Definition valid_date (d : date) : Prop :=
  MINYEAR <= year d <= MAXYEAR /\ 1 <= month d <= 12
  /\ 1 <= day d <= _days_in_month (year d) (month d).

Definition decimal (z : Z) : string := pretty z.

(** [date(year, month, day)] with its checks ([_check_date_fields]). *)
Definition date_new (y m d : Z) : result date :=
  if negb ((MINYEAR <=? y) && (y <=? MAXYEAR)) then
    Raise (ValueError ("year " ++ decimal y ++ " is out of range"))
  else if negb ((1 <=? m) && (m <=? 12)) then
    Raise (ValueError "month must be in 1..12")
  else if negb ((1 <=? d) && (d <=? _days_in_month y m)) then
    Raise (ValueError "day is out of range for month")
  else Ok (mkdate y m d).

(** [d.replace(year=y)] *)
Definition replace_year (d : date) (y : Z) : result date :=
  date_new y (month d) (day d).

Definition toordinal (d : date) : Z := _ymd2ord (year d) (month d) (day d).

Definition fromordinal (n : Z) : result date :=
  let '(y, m, d) := _ord2ymd n in date_new y m d.

(** Monday is 0, Sunday is 6. *)
Definition weekday (d : date) : Z := (toordinal d + 6) mod 7.

(** [a < b]: the comparison of the triples (year, month, day). *)
Definition date_ltb (a b : date) : bool :=
  (year a <? year b)
  || ((year a =? year b)
      && ((month a <? month b)
          || ((month a =? month b) && (day a <? day b)))).

(** [(a - b).days] *)
Definition sub_days (a b : date) : Z := toordinal a - toordinal b.

(** [d + timedelta(days=k)] *)
Definition add_days (d : date) (k : Z) : result date :=
  let o := toordinal d + k in
  if (0 <? o) && (o <=? _MAXORDINAL) then fromordinal o
  else Raise (OverflowError "date value out of range").

(** The decimal fields of [strftime]. *)
Definition digit_char (n : Z) : N := (48 + Z.to_N (n mod 10))%N.

(** [%d] and [%m]: two digits, zero padded. *)
Definition pad2 (n : Z) : pystr := [digit_char (n / 10); digit_char n].

(** [%Y]: [date.strftime] hands the format to the C library, which prints
    the year in decimal without leading zeros; a year below 1000 has fewer
    than four digits.  (The year of a date is 1 to 9999.) *)
Definition strftime_Y (y : Z) : pystr :=
  if y <? 10 then [digit_char y]
  else if y <? 100 then [digit_char (y / 10); digit_char y]
  else if y <? 1000 then
    [digit_char (y / 100); digit_char (y / 10); digit_char y]
  else
    [digit_char (y / 1000); digit_char (y / 100); digit_char (y / 10);
     digit_char y].

Definition dot : N := 46%N.

(** [d.strftime("%Y.%m.%d")] *)
Definition strftime_Ymd (d : date) : pystr :=
  strftime_Y (year d) ++ [dot] ++ pad2 (month d) ++ [dot] ++ pad2 (day d).

(** [datetime.datetime]: a date and a time of day. *)
Record datetime : Type := mkdatetime {
  dt_date : date;      (* what [.date()] returns *)
  hour : Z; minute : Z; second : Z; microsecond : Z
}.

(** *** [datetime.strptime(s, "%d.%m.%Y")]

    [_strptime] turns the format into the regular expression
    [(?P<d>3[0-1]|[1-2]\d|0[1-9]|[1-9]| [1-9])], an escaped dot,
    [(?P<m>1[0-2]|0[1-9]|[1-9])], an escaped dot and [(?P<Y>\d\d\d\d)],
    matches it at the start of the text, refuses a match that leaves text
    over, and converts the groups with [int]. *)

Inductive cls : Type :=
| Chr (c : N)            (* a literal character *)
| Range (lo hi : N)      (* [lo-hi] *)
| AnyDecimal.            (* \d *)

Definition cls_match (k : cls) (c : N) : bool :=
  match k with
  | Chr x => (c =? x)%N
  | Range lo hi => in_range lo hi c
  | AnyDecimal => isdecimal_char c
  end.

(** A sequence of character classes against the start of the text: the
    matched prefix and the rest. *)
Fixpoint match_seq (p : list cls) (s : pystr) : option (pystr * pystr) :=
  match p, s with
  | [], _ => Some ([], s)
  | _ :: _, [] => None
  | k :: p', c :: s' =>
      if cls_match k c then
        match match_seq p' s' with
        | Some (g, rest) => Some (c :: g, rest)
        | None => None
        end
      else None
  end.

(** A regular expression of this fragment: a sequence of groups, each an
    ordered alternation of class sequences.  Alternatives are tried in order
    and an alternative is given up when the rest of the expression fails
    after it (backtracking). *)
Definition regex := list (list (list cls)).

(** The first element of [l] on which [f] succeeds, and the result. *)
Fixpoint first_success {A B : Type} (f : A -> option B) (l : list A)
  : option B :=
  match l with
  | [] => None
  | a :: l' =>
      match f a with
      | Some r => Some r
      | None => first_success f l'
      end
  end.

Fixpoint re_match (re : regex) (s : pystr) : option (list pystr * pystr) :=
  match re with
  | [] => Some ([], s)
  | alts :: re' =>
      first_success
        (fun a =>
           match match_seq a s with
           | Some (g, rest) =>
               match re_match re' rest with
               | Some (gs, rest') => Some (g :: gs, rest')
               | None => None
               end
           | None => None
           end)
        alts
  end.

Definition d0 : N := 48%N.
Definition d1 : N := 49%N.
Definition d2 : N := 50%N.
Definition d3 : N := 51%N.
Definition d9 : N := 57%N.
Definition space : N := 32%N.

Definition re_d : list (list cls) :=
  [ [Chr d3; Range d0 d1]; [Range d1 d2; AnyDecimal]; [Chr d0; Range d1 d9];
    [Range d1 d9]; [Chr space; Range d1 d9] ].

Definition re_m : list (list cls) :=
  [ [Chr d1; Range d0 d2]; [Chr d0; Range d1 d9]; [Range d1 d9] ].

Definition re_Y : list (list cls) :=
  [ [AnyDecimal; AnyDecimal; AnyDecimal; AnyDecimal] ].

Definition re_dot : list (list cls) := [ [Chr dot] ].

Definition format_regex : regex := [re_d; re_dot; re_m; re_dot; re_Y].

(** [int(s)] on what a group can hold: decimal digits of any script, with
    surrounding white space dropped.  (Signs, underscores and other bases
    never occur in a group.) *)
Fixpoint lstrip (s : pystr) : pystr :=
  match s with
  | c :: s' => if isspace_char c then lstrip s' else s
  | [] => []
  end.

Definition strip (s : pystr) : pystr := rev (lstrip (rev (lstrip s))).

Fixpoint int_digits (acc : Z) (s : pystr) : option Z :=
  match s with
  | [] => Some acc
  | c :: s' =>
      match decimal_value c with
      | Some v => int_digits (10 * acc + Z.of_N v) s'
      | None => None
      end
  end.

Definition int (s : pystr) : result Z :=
  match strip s with
  | [] => Raise (ValueError "invalid literal for int() with base 10")
  | t =>
      match int_digits 0 t with
      | Some z => Ok z
      | None => Raise (ValueError "invalid literal for int() with base 10")
      end
  end.

Definition strptime_dmY (s : pystr) : result datetime :=
  match re_match format_regex s with
  | None => Raise (ValueError "time data does not match format")
  | Some (groups, rest) =>
      match rest with
      | _ :: _ => Raise (ValueError "unconverted data remains")
      | [] =>
          match groups with
          | [gd; _; gm; _; gY] =>
              rbind (int gY) (fun y =>
              rbind (int gm) (fun m =>
              rbind (int gd) (fun d =>
              rbind (date_new y m d) (fun dt =>
              Ok (mkdatetime dt 0 0 0 0)))))
          | _ => Raise (ValueError "time data does not match format")
          end
      end
  end.

End datetime.

Import datetime.

Definition Birthday := Field datetime.

Definition msg_date : string := "Invalid date format. Use DD.MM.YYYY".

(** [Birthday.__init__] *)
Definition Birthday_init (v : pystr) : result Birthday :=
  rbind (try_except_ValueError (strptime_dmY v) (Raise (ValueError msg_date)))
        (fun parsed => Ok (mkField parsed)).

(** ** Records, the heap and the address book *)

(** The attributes of a [Record] object.  A [Phone] object is created by the
    record that holds it and never handed out ([find_phone] returns its
    [value]), so the list of phones is kept by value. *)
Record RecordObj : Type := mkRecord {
  name : Name;
  phones : list Phone;
  birthday : option Birthday
}.

Definition loc := positive.

(** An insertion-ordered dictionary, as [dict] is. *)
Section dict.
Context {K V : Type} `{EqDecision K}.

Fixpoint dict_get (d : list (K * V)) (k : K) : option V :=
  match d with
  | [] => None
  | (k', v) :: d' => if decide (k' = k) then Some v else dict_get d' k
  end.

(** [d[k] = v]: an existing key keeps its place, a new key goes last. *)
Fixpoint dict_set (d : list (K * V)) (k : K) (v : V) : list (K * V) :=
  match d with
  | [] => [(k, v)]
  | (k', v') :: d' =>
      if decide (k' = k) then (k, v) :: d' else (k', v') :: dict_set d' k v
  end.

Definition dict_contains (d : list (K * V)) (k : K) : bool :=
  match dict_get d k with Some _ => true | None => false end.

(** [del d[k]] *)
Fixpoint dict_del (d : list (K * V)) (k : K) : list (K * V) :=
  match d with
  | [] => []
  | (k', v) :: d' =>
      if decide (k' = k) then d' else (k', v) :: dict_del d' k
  end.

Definition dict_keys (d : list (K * V)) : list K := map fst d.
Definition dict_values (d : list (K * V)) : list V := map snd d.
End dict.

(** The objects of a run: the [Record] objects by location, and the
    dictionary [data] of the address book, whose values are references. *)
Record World : Type := mkWorld {
  heap : gmap loc RecordObj;
  data : list (pystr * loc)
}.

Definition empty_world : World := mkWorld ∅ [].

(** Computations that read and write the world and may raise. *)
Definition M (A : Type) : Type := World -> result A * World.

#[export] Instance M_ret : MRet M := fun A a w => (Ok a, w).

#[export] Instance M_bind : MBind M := fun A B k c w =>
  match c w with
  | (Ok a, w') => k a w'
  | (Raise e, w') => (Raise e, w')
  end.

Definition lift {A} (r : result A) : M A := fun w => (r, w).

Definition deref (l : loc) : M RecordObj := fun w =>
  match heap w !! l with
  | Some r => (Ok r, w)
  | None => (Raise DanglingReference, w)
  end.

Definition assign (l : loc) (r : RecordObj) : M unit := fun w =>
  (Ok tt, mkWorld (<[l := r]> (heap w)) (data w)).

Definition alloc (r : RecordObj) : M loc := fun w =>
  let l := fresh (dom (heap w)) in
  (Ok l, mkWorld (<[l := r]> (heap w)) (data w)).

Definition get_data : M (list (pystr * loc)) := fun w => (Ok (data w), w).

Definition set_data (d : list (pystr * loc)) : M unit := fun w =>
  (Ok tt, mkWorld (heap w) d).

(** *** [class Record] *)

(** [Record.__init__] *)
Definition Record_init (nm : pystr) : M loc :=
  alloc (mkRecord (mkField nm) [] None).

Definition add_phone (self : loc) (phone_number : pystr) : M unit :=
  r ← deref self;
  p ← lift (Phone_init phone_number);
  assign self (mkRecord (name r) (phones r ++ [p]) (birthday r)).

Definition remove_phone (self : loc) (phone_number : pystr) : M unit :=
  r ← deref self;
  assign self
    (mkRecord (name r)
       (filter (fun p => value p ≠ phone_number) (phones r)) (birthday r)).

Definition msg_old : string := "Old number not found.".

(** The loop of [edit_phone]: the first phone whose value is [old_number]
    gets the value of [Phone(new_number)]; the others are left alone. *)
Fixpoint edit_loop (ps : list Phone) (old_number new_number : pystr)
  : result (list Phone) :=
  match ps with
  | [] => Raise (ValueError msg_old)
  | p :: ps' =>
      if decide (value p = old_number) then
        rbind (Phone_init new_number) (fun q => Ok (mkField (value q) :: ps'))
      else
        rbind (edit_loop ps' old_number new_number) (fun r => Ok (p :: r))
  end.

Definition edit_phone (self : loc) (old_number new_number : pystr) : M unit :=
  r ← deref self;
  ps ← lift (edit_loop (phones r) old_number new_number);
  assign self (mkRecord (name r) ps (birthday r)).

Fixpoint find_loop (ps : list Phone) (phone_number : pystr) : option pystr :=
  match ps with
  | [] => None
  | p :: ps' =>
      if decide (value p = phone_number) then Some (value p)
      else find_loop ps' phone_number
  end.

Definition find_phone (self : loc) (phone_number : pystr)
  : M (option pystr) :=
  r ← deref self;
  mret (find_loop (phones r) phone_number).

Definition add_birthday (self : loc) (birthday_str : pystr) : M unit :=
  r ← deref self;
  b ← lift (Birthday_init birthday_str);
  assign self (mkRecord (name r) (phones r) (Some b)).

(** *** [class AddressBook] *)

Definition add_record (record : loc) : M unit :=
  r ← deref record;
  d ← get_data;
  set_data (dict_set d (value (name r)) record).

Definition find (nm : pystr) : M (option loc) :=
  d ← get_data;
  mret (dict_get d nm).

Definition delete (nm : pystr) : M unit :=
  d ← get_data;
  if dict_contains d nm then set_data (dict_del d nm) else mret tt.

(** Lines 107-118: the birthday in the year of [today], or in the next year
    when that day is already past; 29 February becomes 28 February where the
    year has none. *)
Definition projected (today bday : date) : result date :=
  rbind (try_except_ValueError (replace_year bday (year today))
           (date_new (year today) 2 28))
    (fun bday_this_year =>
       if date_ltb bday_this_year today then
         try_except_ValueError (replace_year bday (year today + 1))
           (date_new (year today + 1) 2 28)
       else Ok bday_this_year).

(** Lines 123-126: a Saturday moves two days on, a Sunday one. *)
Definition weekend_shift (d : date) : result date :=
  if (weekday d =? 5)%Z then add_days d 2
  else if (weekday d =? 6)%Z then add_days d 1
  else Ok d.

(** Lines 107-126 for one birthday: the date to congratulate on, or [None]
    when the birthday is not within the next seven days. *)
Definition congratulation (today bday : date) : result (option date) :=
  rbind (projected today bday) (fun bday_this_year =>
    let days_ahead := sub_days bday_this_year today in
    if ((0 <=? days_ahead) && (days_ahead <=? 7))%Z then
      rbind (weekend_shift bday_this_year) (fun d => Ok (Some d))
    else Ok None).

(** An element of the list that [get_upcoming_birthdays] returns. *)
Record entry : Type := mkentry {
  entry_name : pystr;
  congratulation_date : pystr
}.

Fixpoint upcoming_loop (today : date) (values : list loc)
    (upcoming : list entry) : M (list entry) :=
  match values with
  | [] => mret upcoming
  | record :: rest =>
      r ← deref record;
      match birthday r with
      | None => upcoming_loop today rest upcoming
      | Some b =>
          c ← lift (congratulation today (dt_date (value b)));
          match c with
          | Some d =>
              upcoming_loop today rest
                (upcoming ++ [mkentry (value (name r)) (strftime_Ymd d)])
          | None => upcoming_loop today rest upcoming
          end
      end
  end.

(** [get_upcoming_birthdays], with the date that [date.today()] returns as
    its input. *)
Definition get_upcoming_birthdays (today : date) : M (list entry) :=
  d ← get_data;
  upcoming_loop today (dict_values d) [].

(** ** Runs of the program *)

(** The calls a client can make.  [OpRecord] is the constructor call
    [Record(name)]; the others are the methods of a record (by reference)
    and of the address book. *)
Inductive op : Type :=
| OpRecord (nm : pystr)
| OpAddPhone (self : loc) (phone_number : pystr)
| OpRemovePhone (self : loc) (phone_number : pystr)
| OpEditPhone (self : loc) (old_number new_number : pystr)
| OpAddBirthday (self : loc) (birthday_str : pystr)
| OpAddRecord (record : loc)
| OpDelete (nm : pystr)
| OpFind (nm : pystr)
| OpFindPhone (self : loc) (phone_number : pystr)
| OpUpcoming (today : date).

(** The world after a call, whether it returned or raised. *)
Definition exec (o : op) (w : World) : World :=
  match o with
  | OpRecord nm => snd (Record_init nm w)
  | OpAddPhone l s => snd (add_phone l s w)
  | OpRemovePhone l s => snd (remove_phone l s w)
  | OpEditPhone l s t => snd (edit_phone l s t w)
  | OpAddBirthday l s => snd (add_birthday l s w)
  | OpAddRecord l => snd (add_record l w)
  | OpDelete nm => snd (delete nm w)
  | OpFind nm => snd (find nm w)
  | OpFindPhone l s => snd (find_phone l s w)
  | OpUpcoming today => snd (get_upcoming_birthdays today w)
  end.

Inductive reachable : World -> Prop :=
| reach_empty : reachable empty_world
| reach_exec (o : op) (w : World) : reachable w -> reachable (exec o w).

(** ** Properties of worlds *)

(** Every key of the dictionary is the name of the record it maps to. *)
Definition keys_are_names (w : World) : Prop :=
  forall k l, (k, l) ∈ data w ->
    exists r, heap w !! l = Some r /\ value (name r) = k.

(** Every stored birthday is a date of the calendar, as every [date] object
    is. *)
Definition birthdays_valid (w : World) : Prop :=
  forall l r b, heap w !! l = Some r -> birthday r = Some b ->
    valid_date (dt_date (value b)).

(** A well-formed world: the dictionary has each key once, holds no dangling
    reference, and the dates are dates. *)
Definition wf (w : World) : Prop :=
  NoDup (dict_keys (data w)) /\ keys_are_names w /\ birthdays_valid w.

(** ** The formats, as the specification words them *)

(** The literal format [DD.MM.YYYY]: two ASCII digits, a dot, two ASCII
    digits, a dot, four ASCII digits. *)
Definition literal_DDMMYYYY (s : pystr) : bool :=
  match s with
  | [a; b; p; c; d; q; e; f; g; h] =>
      forallb ascii_digit [a; b; c; d; e; f; g; h]
      && (p =? dot)%N && (q =? dot)%N
  | _ => false
  end.

(** The number that an ASCII digit stands for. *)
Definition ascii_val (c : N) : Z := (Z.of_N c - 48)%Z.

(** The date that a text in the literal format names. *)
Definition literal_date (s : pystr) : option date :=
  match s with
  | [a; b; _; c; d; _; e; f; g; h] =>
      if literal_DDMMYYYY s then
        Some (mkdate
                (1000 * ascii_val e + 100 * ascii_val f + 10 * ascii_val g
                 + ascii_val h)
                (10 * ascii_val c + ascii_val d)
                (10 * ascii_val a + ascii_val b))%Z
      else None
  | _ => None
  end.

(** What [strptime] accepts for the day: one digit 1-9, alone or after a
    zero or a space, or 10 to 31 with any decimal digit in second place. *)
Definition day_text (g : pystr) : bool :=
  match g with
  | [a] => in_range d1 d9 a
  | [a; b] =>
      ((a =? d3)%N && in_range d0 d1 b)
      || (in_range d1 d2 a && isdecimal_char b)
      || (((a =? d0)%N || (a =? space)%N) && in_range d1 d9 b)
  | _ => false
  end.

(** For the month: one digit 1-9, alone or after a zero, or 10, 11, 12. *)
Definition month_text (g : pystr) : bool :=
  match g with
  | [a] => in_range d1 d9 a
  | [a; b] =>
      ((a =? d1)%N && in_range d0 d2 b) || ((a =? d0)%N && in_range d1 d9 b)
  | _ => false
  end.

(** For the year: exactly four decimal digits. *)
Definition year_text (g : pystr) : bool :=
  match g with
  | [a; b; c; d] => forallb isdecimal_char [a; b; c; d]
  | _ => false
  end.




(** A text that one of the alternatives of a group matches to its end. *)
Definition full_match (alts : list (list cls)) (g : pystr) : Prop :=
  exists a, a ∈ alts /\ match_seq a g = Some (g, []).

(** ** The birthday rule, as the specification words it *)

(** A birthday projected onto the year [y]: its month and day in that year,
    and 28 February where the birthday is 29 February and [y] has none. *)
Definition project_onto (y : Z) (bday : date) : date :=
  if (month bday =? 2)%Z && (day bday =? 29)%Z && negb (_is_leap y)
  then mkdate y 2 28
  else mkdate y (month bday) (day bday).

(** The days that the weekend rule adds: two on a Saturday, one on a
    Sunday. *)
Definition shift_of (p : date) : Z :=
  if (weekday p =? 5)%Z then 2 else if (weekday p =? 6)%Z then 1 else 0.

(** What one value of the dictionary contributes to the answer of
    [get_upcoming_birthdays]: at most one entry, with the name of the record
    and the text of its congratulation date. *)
Definition entry_of (today : date) (w : World) (l : loc) : option entry :=
  match heap w !! l with
  | Some r =>
      match birthday r with
      | Some b =>
          match congratulation today (dt_date (value b)) with
          | Ok (Some d) => Some (mkentry (value (name r)) (strftime_Ymd d))
          | _ => None
          end
      | None => None
      end
  | None => None
  end.

(** ** Example runs *)

Definition run (ops : list op) : World :=
  foldl (fun w o => exec o w) empty_world ops.

(** The first two records of a run. *)
Definition ann : loc := 1%positive.
Definition bob : loc := 2%positive.

(** Ann, born on 29 February 2000. *)
Definition book_feb29 : World :=
  run [OpRecord (lit "Ann"); OpAddPhone ann (lit "1234567890");
       OpAddBirthday ann (lit "29.02.2000"); OpAddRecord ann].

(** Ann, born on 15 June, then Bob, born on 12 June. *)
Definition book_june : World :=
  run [OpRecord (lit "Ann"); OpAddBirthday ann (lit "15.06.2000");
       OpAddRecord ann;
       OpRecord (lit "Bob"); OpAddBirthday bob (lit "12.06.1990");
       OpAddRecord bob].

(** Ann with a phone and a birthday in the book, and a second, bare record
    of the same name that is not in the book. *)
Definition book_two_anns : World :=
  run [OpRecord (lit "Ann"); OpAddPhone ann (lit "1234567890");
       OpAddBirthday ann (lit "29.02.2000"); OpAddRecord ann;
       OpRecord (lit "Ann")].

(** Ann, born on 16 June. *)
Definition book_sunday : World :=
  run [OpRecord (lit "Ann"); OpAddBirthday ann (lit "16.06.2000");
       OpAddRecord ann].

(** ** Texts of the command layer *)

(** [sep.join(l)] *)
Fixpoint join (sep : pystr) (l : list pystr) : pystr :=
  match l with
  | [] => []
  | [x] => x
  | x :: l' => x ++ sep ++ join sep l'
  end.

(** [s.split()]: the maximal runs of characters that are not white space.
    [cur] is the run being read, last character first. *)
Fixpoint split_go (cur : pystr) (s : pystr) : list pystr :=
  match s with
  | [] => match cur with [] => [] | _ => [rev cur] end
  | c :: s' =>
      if isspace_char c then
        match cur with
        | [] => split_go [] s'
        | _ => rev cur :: split_go [] s'
        end
      else split_go (c :: cur) s'
  end.

Definition split (s : pystr) : list pystr := split_go [] s.

(** [d.strftime("%d.%m.%Y")] *)
Definition strftime_dmY (d : date) : pystr :=
  pad2 (day d) ++ [dot] ++ pad2 (month d) ++ [dot] ++ strftime_Y (year d).

Definition em_dash : N := 8212%N.

(** [Record.__str__] *)
Definition Record_str (r : RecordObj) : pystr :=
  let phones_str :=
    match phones r with
    | [] => [em_dash]
    | ps => join (lit "; ") (map value ps)
    end in
  let birthday_str :=
    match birthday r with
    | Some b => lit ", birthday: " ++ strftime_dmY (dt_date (value b))
    | None => []
    end in
  lit "Contact name: " ++ value (name r) ++ lit ", phones: " ++ phones_str
  ++ birthday_str.

(** ** The demonstration contacts *)

(** [seed_sample_contacts] *)
Definition seed_sample_contacts : M unit :=
  d ← get_data;
  match d with
  | _ :: _ => mret tt
  | [] =>
      john_record ← Record_init (lit "John");
      _ ← add_phone john_record (lit "1234567890");
      _ ← add_phone john_record (lit "5555555555");
      _ ← add_birthday john_record (lit "04.11.1975");
      _ ← add_record john_record;
      jane_record ← Record_init (lit "Jane");
      _ ← add_phone jane_record (lit "9876543210");
      _ ← add_birthday jane_record (lit "04.11.1975");
      add_record jane_record
  end.

(** ** The command layer *)

Module cli.

(** The exceptions of the command layer: those of the core, and the two
    others that [input_error] names. *)
Inductive cmd_exn : Type :=
| Exn (e : exn)
| KeyError
| IndexError.

(** Handlers read and write the world and may raise. *)
Definition H (A : Type) : Type := World -> (cmd_exn + A) * World.

Definition hret {A} (a : A) : H A := fun w => (inr a, w).

Definition hbind {A B} (c : H A) (k : A -> H B) : H B := fun w =>
  match c w with
  | (inr a, w') => k a w'
  | (inl e, w') => (inl e, w')
  end.

Definition hraise {A} (e : cmd_exn) : H A := fun w => (inl e, w).

(** A call into the core. *)
Definition core {A} (c : M A) : H A := fun w =>
  match c w with
  | (Ok a, w') => (inr a, w')
  | (Raise e, w') => (inl (Exn e), w')
  end.

Definition msg_unpack (expected got : nat) : string :=
  "not enough values to unpack (expected at least " ++ pretty expected
  ++ ", got " ++ pretty got ++ ")".

(** [a, *_ = args] *)
Definition unpack1 (args : list pystr) : H pystr :=
  match args with
  | a :: _ => hret a
  | _ => hraise (Exn (ValueError (msg_unpack 1 (length args))))
  end.

(** [a, b, *_ = args] *)
Definition unpack2 (args : list pystr) : H (pystr * pystr) :=
  match args with
  | a :: b :: _ => hret (a, b)
  | _ => hraise (Exn (ValueError (msg_unpack 2 (length args))))
  end.

(** [a, b, c, *_ = args] *)
Definition unpack3 (args : list pystr) : H (pystr * pystr * pystr) :=
  match args with
  | a :: b :: c :: _ => hret (a, b, c)
  | _ => hraise (Exn (ValueError (msg_unpack 3 (length args))))
  end.

(** The decorator [input_error]. *)
Definition input_error (func : H pystr) : H pystr := fun w =>
  match func w with
  | (inl (Exn (ValueError _)), w') =>
      (inr (lit "Give me correct data, please."), w')
  | (inl KeyError, w') => (inr (lit "Contact not found."), w')
  | (inl IndexError, w') => (inr (lit "Not enough arguments."), w')
  | r => r
  end.

(** The body of [add_contact]. *)
Definition add_contact_body (args : list pystr) : H pystr :=
  hbind (unpack2 args) (fun '(nm, phone) =>
  hbind (core (find nm)) (fun found =>
  hbind
    (match found with
     | None =>
         hbind (core (Record_init nm)) (fun record =>
         hbind (core (add_record record)) (fun _ =>
         hret (record, lit "Contact added.")))
     | Some record => hret (record, lit "Contact updated.")
     end) (fun '(record, msg) =>
  hbind
    (match phone with
     | [] => hret tt
     | _ => core (add_phone record phone)
     end) (fun _ =>
  hret msg)))).

Definition add_contact (args : list pystr) : H pystr :=
  input_error (add_contact_body args).

(** The body of [change_contact]. *)
Definition change_contact_body (args : list pystr) : H pystr :=
  hbind (unpack3 args) (fun '(nm, old_phone, new_phone) =>
  hbind (core (find nm)) (fun found =>
  match found with
  | None => hraise KeyError
  | Some record =>
      hbind (core (edit_phone record old_phone new_phone)) (fun _ =>
      hret (lit "Contact updated."))
  end)).

Definition change_contact (args : list pystr) : H pystr :=
  input_error (change_contact_body args).

(** The body of [show_phone]. *)
Definition show_phone_body (args : list pystr) : H pystr :=
  hbind (unpack1 args) (fun nm =>
  hbind (core (find nm)) (fun found =>
  match found with
  | None => hraise KeyError
  | Some record =>
      hbind (core (deref record)) (fun r =>
      match phones r with
      | [] => hret (lit "No phones saved.")
      | ps => hret (join (lit ", ") (map value ps))
      end)
  end)).

Definition show_phone (args : list pystr) : H pystr :=
  input_error (show_phone_body args).

(** [str(rec) for rec in book.data.values()] *)
Fixpoint str_all (values : list loc) : H (list pystr) :=
  match values with
  | [] => hret []
  | l :: rest =>
      hbind (core (deref l)) (fun r =>
      hbind (str_all rest) (fun lines =>
      hret (Record_str r :: lines)))
  end.

Definition newline : N := 10%N.

(** The body of [show_all]. *)
Definition show_all_body (args : list pystr) : H pystr :=
  hbind (core get_data) (fun d =>
  match d with
  | [] => hret (lit "No contacts yet.")
  | _ =>
      hbind (str_all (dict_values d)) (fun lines =>
      hret (join [newline] lines))
  end).

Definition show_all (args : list pystr) : H pystr :=
  input_error (show_all_body args).

(** The body of the handler [add_birthday]. *)
Definition add_birthday_body (args : list pystr) : H pystr :=
  hbind (unpack2 args) (fun '(nm, bday_str) =>
  hbind (core (find nm)) (fun found =>
  hbind
    (match found with
     | None =>
         hbind (core (Record_init nm)) (fun record =>
         hbind (core (add_record record)) (fun _ =>
         hret (record, lit "Contact created and birthday added.")))
     | Some record => hret (record, lit "Birthday added.")
     end) (fun '(record, msg) =>
  hbind (core (add_birthday record bday_str)) (fun _ =>
  hret msg)))).

Definition add_birthday (args : list pystr) : H pystr :=
  input_error (add_birthday_body args).

(** The body of [show_birthday]. *)
Definition show_birthday_body (args : list pystr) : H pystr :=
  hbind (unpack1 args) (fun nm =>
  hbind (core (find nm)) (fun found =>
  match found with
  | None => hraise KeyError
  | Some record =>
      hbind (core (deref record)) (fun r =>
      match birthday r with
      | None => hret (lit "No birthday set.")
      | Some b => hret (strftime_dmY (dt_date (value b)))
      end)
  end)).

Definition show_birthday (args : list pystr) : H pystr :=
  input_error (show_birthday_body args).

(** The body of [birthdays]; [today] is what [date.today()] returns. *)
Definition birthdays_body (today : date) (args : list pystr) : H pystr :=
  hbind (core (get_upcoming_birthdays today)) (fun upcoming =>
  match upcoming with
  | [] => hret (lit "No birthdays in the next 7 days.")
  | _ =>
      hret (join [newline]
              (map (fun it => congratulation_date it ++ lit ": "
                              ++ entry_name it) upcoming))
  end).

Definition birthdays (today : date) (args : list pystr) : H pystr :=
  input_error (birthdays_body today args).

(** [parse_input].  The table of [str.lower] is not part of the model: the
    function is taken as given. *)
Section parse.
Variable lower : pystr -> pystr.

Definition parse_input (user_input : pystr)
  : result (pystr * list pystr) :=
  match split (strip user_input) with
  | cmd :: args => Ok (lower cmd, args)
  | [] => Raise (ValueError (msg_unpack 1 0))
  end.

End parse.

(** The commands that reach a handler; [today] is the date of the call. *)
Inductive command : Type :=
| Add | Change | Phone_ | All | AddBirthday | ShowBirthday | Birthdays.

(** The undecorated function of a command. *)
Definition command_body (today : date) (c : command) (args : list pystr)
  : H pystr :=
  match c with
  | Add => add_contact_body args
  | Change => change_contact_body args
  | Phone_ => show_phone_body args
  | All => show_all_body args
  | AddBirthday => add_birthday_body args
  | ShowBirthday => show_birthday_body args
  | Birthdays => birthdays_body today args
  end.

Definition run_command (today : date) (c : command) (args : list pystr)
  : H pystr :=
  match c with
  | Add => add_contact args
  | Change => change_contact args
  | Phone_ => show_phone args
  | All => show_all args
  | AddBirthday => add_birthday args
  | ShowBirthday => show_birthday args
  | Birthdays => birthdays today args
  end.

End cli.

(** Every stored phone is one that [Phone] accepts. *)
Definition phones_valid (w : World) : Prop :=
  forall l r p, heap w !! l = Some r -> p ∈ phones r ->
    Phone_init (value p) = Ok p.

(** The world after a sequence of calls. *)
Definition execs (ops : list op) (w : World) : World :=
  foldl (fun w o => exec o w) w ops.

(** The records that [seed_sample_contacts] builds. *)
Definition john : RecordObj :=
  mkRecord (mkField (lit "John"))
    [mkField (lit "1234567890"); mkField (lit "5555555555")]
    (Some (mkField (mkdatetime (mkdate 1975 11 4) 0 0 0 0))).

Definition jane : RecordObj :=
  mkRecord (mkField (lit "Jane")) [mkField (lit "9876543210")]
    (Some (mkField (mkdatetime (mkdate 1975 11 4) 0 0 0 0))).

(** The calls that [seed_sample_contacts] makes on an empty book; [l1] and
    [l2] are the two objects it creates. *)
Definition seed_ops (l1 l2 : loc) : list op :=
  [OpRecord (lit "John"); OpAddPhone l1 (lit "1234567890");
   OpAddPhone l1 (lit "5555555555"); OpAddBirthday l1 (lit "04.11.1975");
   OpAddRecord l1;
   OpRecord (lit "Jane"); OpAddPhone l2 (lit "9876543210");
   OpAddBirthday l2 (lit "04.11.1975"); OpAddRecord l2].

(** A word of a command line: not empty, and without white space. *)
Definition token (t : pystr) : Prop :=
  t ≠ [] /\ Forall (fun c => isspace_char c = false) t.

(** A text of white space only. *)
Definition blank (s : pystr) : Prop :=
  Forall (fun c => isspace_char c = true) s.

(** The month estimate at the end of [_ord2ymd], for the day [n] of a year
    (counted from 0). *)
Definition month_day (leapyear : bool) (n : Z) : Z * Z :=
  let m := Z.shiftr (n + 50) 5 in
  let preceding :=
    (_DAYS_BEFORE_MONTH m + (if (2 <? m)%Z && leapyear then 1 else 0))%Z in
  if (n <? preceding)%Z then
    let m := (m - 1)%Z in
    let preceding :=
      (preceding
       - (_DAYS_IN_MONTH m + (if (m =? 2)%Z && leapyear then 1 else 0)))%Z in
    (m, (n - preceding + 1)%Z)
  else (m, (n - preceding + 1)%Z).

(** * Proofs *)

Ltac zdm := Z.div_mod_to_equations; lia.

(** ** Calendar arithmetic *)

Section calendar.
Local Open Scope Z_scope.

Lemma days_before_year_split (a b c d : Z) :
  0 <= a -> 0 <= b < 4 -> 0 <= c < 25 -> 0 <= d < 4 ->
  _days_before_year (400 * a + 100 * b + 4 * c + d + 1)
  = 146097 * a + 36524 * b + 1461 * c + 365 * d.
Proof.
  intros. unfold _days_before_year.
  replace (400 * a + 100 * b + 4 * c + d + 1 - 1)
    with (400 * a + 100 * b + 4 * c + d) by lia.
  zdm.
Qed.

Lemma is_leap_split (a b c d : Z) :
  0 <= a -> 0 <= b < 4 -> 0 <= c < 25 -> 0 <= d < 4 ->
  _is_leap (400 * a + 100 * b + 4 * c + d + 1)
  = (d =? 3) && (negb (c =? 24) || (b =? 3)).
Proof.
  intros. unfold _is_leap.
  repeat match goal with
         | |- context [?x =? ?y] => destruct (Z.eqb_spec x y)
         end; simpl; try reflexivity; exfalso; zdm.
Qed.

Lemma month_day_spec (leapyear : bool) (n : Z) :
  0 <= n < 365 ->
  let '(m, d) := month_day leapyear n in
  1 <= m <= 12
  /\ 1 <= d <= _DAYS_IN_MONTH m + (if (m =? 2) && leapyear then 1 else 0)
  /\ _DAYS_BEFORE_MONTH m + (if (2 <? m) && leapyear then 1 else 0) + d
     = n + 1.
Proof.
  intros Hn. unfold month_day. rewrite Z.shiftr_div_pow2 by lia.
  change (2 ^ 5) with 32.
  assert (Hq : 1 <= (n + 50) / 32 <= 12) by zdm.
  assert (Hr : 32 * ((n + 50) / 32) <= n + 50 < 32 * ((n + 50) / 32) + 32)
    by zdm.
  set (q := (n + 50) / 32) in *. clearbody q.
  assert (Hc : q = 1 \/ q = 2 \/ q = 3 \/ q = 4 \/ q = 5 \/ q = 6 \/ q = 7
               \/ q = 8 \/ q = 9 \/ q = 10 \/ q = 11 \/ q = 12) by lia.
  destruct leapyear;
  repeat (destruct Hc as [-> | Hc]); try subst q; cbn -[Z.ltb Z.add Z.sub];
    match goal with |- context [n <? ?p] => destruct (Z.ltb_spec n p) end;
    repeat match goal with
           | |- context [Z.pos ?a - 1] =>
               let v := eval compute in (Z.pos a - 1) in
               change (Z.pos a - 1) with v
           end;
    cbn in *; lia.
Qed.

Lemma days_in_month_leap (y m : Z) :
  _days_in_month y m
  = _DAYS_IN_MONTH m + (if (m =? 2) && _is_leap y then 1 else 0).
Proof.
  unfold _days_in_month. destruct (Z.eqb_spec m 2) as [-> | ?]; cbn; [|lia].
  destruct (_is_leap y); reflexivity.
Qed.

(** [_ord2ymd] inverts [_ymd2ord] on the ordinals of the years 1..9999. *)
Lemma ord2ymd_correct (n : Z) :
  1 <= n <= _MAXORDINAL ->
  let '(y, m, d) := _ord2ymd n in
  MINYEAR <= y <= MAXYEAR /\ 1 <= m <= 12 /\ 1 <= d <= _days_in_month y m
  /\ _ymd2ord y m d = n.
Proof.
  intros Hn.
  unfold _ord2ymd, _DI400Y, _DI100Y, _DI4Y, _MAXORDINAL, MINYEAR, MAXYEAR in *.
  cbv zeta.
  set (q400 := (n - 1) / 146097). set (r400 := (n - 1) mod 146097).
  set (q100 := r400 / 36524). set (r100 := r400 mod 36524).
  set (q4 := r100 / 1461). set (r4 := r100 mod 1461).
  set (q1 := r4 / 365). set (r1 := r4 mod 365).
  assert (H400 : n - 1 = 146097 * q400 + r400 /\ 0 <= r400 < 146097)
    by (subst q400 r400; zdm).
  assert (H100 : r400 = 36524 * q100 + r100 /\ 0 <= r100 < 36524)
    by (subst q100 r100; zdm).
  assert (H4 : r100 = 1461 * q4 + r4 /\ 0 <= r4 < 1461)
    by (subst q4 r4; zdm).
  assert (H1 : r4 = 365 * q1 + r1 /\ 0 <= r1 < 365)
    by (subst q1 r1; zdm).
  clearbody q400 r400 q100 r100 q4 r4 q1 r1.
  assert (Hb : 0 <= q400 <= 24 /\ 0 <= q100 <= 4 /\ 0 <= q4 <= 24
               /\ 0 <= q1 <= 4) by lia.
  destruct (Z.eqb_spec q1 4) as [E1 | N1]; cbn [orb].
  - (* 31 December of a leap year that ends a four-year cycle *)
    assert (q100 < 4 /\ q4 < 24 /\ r1 = 0) as (? & ? & ?) by lia.
    replace (q400 * 400 + 1 + q100 * 100 + q4 * 4 + q1 - 1)
      with (400 * q400 + 100 * q100 + 4 * q4 + 3 + 1) by lia.
    unfold _ymd2ord, _days_before_month.
    rewrite days_in_month_leap, days_before_year_split, is_leap_split by lia.
    replace (q4 =? 24) with false by (symmetry; apply Z.eqb_neq; lia).
    cbn. lia.
  - destruct (Z.eqb_spec q100 4) as [E100 | N100].
    + (* 31 December of the year that ends a 400-year cycle *)
      assert (q4 = 0 /\ q1 = 0 /\ r1 = 0) as (? & ? & ?) by lia.
      replace (q400 * 400 + 1 + q100 * 100 + q4 * 4 + q1 - 1)
        with (400 * q400 + 100 * 3 + 4 * 24 + 3 + 1) by lia.
      unfold _ymd2ord, _days_before_month.
      rewrite days_in_month_leap, days_before_year_split, is_leap_split by lia.
      cbn. lia.
    + replace (q400 * 400 + 1 + q100 * 100 + q4 * 4 + q1)
        with (400 * q400 + 100 * q100 + 4 * q4 + q1 + 1) by lia.
      set (Y := 400 * q400 + 100 * q100 + 4 * q4 + q1 + 1).
      assert (HY : 1 <= Y <= 9999) by (subst Y; lia).
      assert (HL : (q1 =? 3) && (negb (q4 =? 24) || (q100 =? 3)) = _is_leap Y)
        by (subst Y; rewrite is_leap_split by lia; reflexivity).
      assert (HD : _days_before_year Y
                   = 146097 * q400 + 36524 * q100 + 1461 * q4 + 365 * q1)
        by (subst Y; apply days_before_year_split; lia).
      rewrite HL.
      pose proof (month_day_spec (_is_leap Y) r1 (proj2 H1)) as HM.
      unfold month_day in HM.
      destruct (r1 <? _) in *;
        unfold _ymd2ord, _days_before_month;
        rewrite days_in_month_leap, HD; lia.
Qed.

Lemma date_new_Ok (y m d : Z) (x : date) :
  date_new y m d = Ok x <-> x = mkdate y m d /\ valid_date (mkdate y m d).
Proof.
  unfold date_new, valid_date; cbn.
  repeat match goal with
         | |- context [?a <=? ?b] => destruct (Z.leb_spec a b); cbn
         end; split; intros HH; try discriminate;
    try (injection HH as <-; split; [reflexivity | lia]);
    destruct HH as [-> ?]; solve [reflexivity | exfalso; lia].
Qed.

Lemma date_new_valid (x : date) :
  valid_date x -> date_new (year x) (month x) (day x) = Ok x.
Proof.
  intros H. apply date_new_Ok. destruct x; auto.
Qed.

Lemma date_new_raises (y m d : Z) (e : exn) :
  date_new y m d = Raise e -> exists msg, e = ValueError msg.
Proof.
  unfold date_new.
  repeat match goal with
         | |- context [if ?b then _ else _] => destruct b
         end; intros H; inversion H; eauto.
Qed.

Lemma toordinal_range (x : date) :
  valid_date x -> 1 <= toordinal x <= _MAXORDINAL.
Proof.
  destruct x as [y m d].
  unfold valid_date, toordinal, _ymd2ord, _days_before_month, _MAXORDINAL,
    MINYEAR, MAXYEAR; cbn [year month day].
  rewrite days_in_month_leap. intros (Hy & Hm & Hd).
  assert (Hc : m = 1 \/ m = 2 \/ m = 3 \/ m = 4 \/ m = 5 \/ m = 6 \/ m = 7
               \/ m = 8 \/ m = 9 \/ m = 10 \/ m = 11 \/ m = 12) by lia.
  assert (HY : y = 9999 \/ y <= 9998) by lia.
  unfold _days_before_year.
  destruct HY as [-> | HY].
  - change (_is_leap 9999) with false in *.
    repeat (destruct Hc as [-> | Hc]); try subst m; cbn in Hd |- *; zdm.
  - destruct (_is_leap y);
      repeat (destruct Hc as [-> | Hc]); try subst m; cbn in Hd |- *; zdm.
Qed.

Lemma fromordinal_Ok (n : Z) :
  1 <= n <= _MAXORDINAL ->
  exists x, fromordinal n = Ok x /\ valid_date x /\ toordinal x = n.
Proof.
  intros Hn. pose proof (ord2ymd_correct n Hn) as H.
  unfold fromordinal. destruct (_ord2ymd n) as [[y m] d].
  destruct H as (Hy & Hm & Hd & Ho).
  exists (mkdate y m d). split; [|split].
  - apply date_new_Ok. split; [reflexivity|]. repeat split; cbn; lia.
  - repeat split; cbn; lia.
  - exact Ho.
Qed.

Lemma add_days_Ok (x : date) (k : Z) :
  valid_date x -> 1 <= toordinal x + k <= _MAXORDINAL ->
  exists x', add_days x k = Ok x' /\ valid_date x'
             /\ toordinal x' = toordinal x + k.
Proof.
  intros Hx Hk. unfold add_days.
  replace ((0 <? toordinal x + k) && (toordinal x + k <=? _MAXORDINAL))
    with true by (symmetry; apply andb_true_iff; lia).
  apply fromordinal_Ok, Hk.
Qed.


Lemma days_before_year_succ (y : Z) :
  _days_before_year (y + 1)
  = _days_before_year y + 365 + (if _is_leap y then 1 else 0).
Proof.
  unfold _days_before_year, _is_leap.
  replace (y + 1 - 1) with y by lia.
  repeat match goal with
         | |- context [?x =? ?z] => destruct (Z.eqb_spec x z)
         end; cbn [andb orb negb]; zdm.
Qed.

Lemma days_before_year_mono (y y' : Z) :
  y <= y' -> _days_before_year y <= _days_before_year y'.
Proof. unfold _days_before_year. intros. zdm. Qed.

Lemma day_of_year_range (x : date) :
  valid_date x ->
  1 <= _days_before_month (year x) (month x) + day x
    <= 365 + (if _is_leap (year x) then 1 else 0).
Proof.
  destruct x as [y m d].
  unfold valid_date, _days_before_month; cbn [year month day].
  rewrite days_in_month_leap. intros (_ & Hm & Hd).
  assert (Hc : m = 1 \/ m = 2 \/ m = 3 \/ m = 4 \/ m = 5 \/ m = 6 \/ m = 7
               \/ m = 8 \/ m = 9 \/ m = 10 \/ m = 11 \/ m = 12) by lia.
  destruct (_is_leap y);
    repeat (destruct Hc as [-> | Hc]); try subst m; cbn in Hd |- *; lia.
Qed.

Lemma days_before_month_mono (y m m' : Z) :
  1 <= m -> m < m' -> m' <= 12 ->
  _days_before_month y m + _days_in_month y m <= _days_before_month y m'.
Proof.
  intros H1 H2 H3. unfold _days_before_month. rewrite days_in_month_leap.
  assert (Hc : m = 1 \/ m = 2 \/ m = 3 \/ m = 4 \/ m = 5 \/ m = 6 \/ m = 7
               \/ m = 8 \/ m = 9 \/ m = 10 \/ m = 11) by lia.
  assert (Hc' : m' = 2 \/ m' = 3 \/ m' = 4 \/ m' = 5 \/ m' = 6 \/ m' = 7
               \/ m' = 8 \/ m' = 9 \/ m' = 10 \/ m' = 11 \/ m' = 12) by lia.
  destruct (_is_leap y);
    repeat (destruct Hc as [-> | Hc]); try subst m;
    repeat (destruct Hc' as [-> | Hc']); try subst m'; cbn; lia.
Qed.

(** The comparison of dates is the comparison of their ordinals. *)
Lemma date_ltb_ord (a b : date) :
  valid_date a -> valid_date b ->
  date_ltb a b = (toordinal a <? toordinal b).
Proof.
  intros Ha Hb.
  pose proof (day_of_year_range a Ha) as Ra.
  pose proof (day_of_year_range b Hb) as Rb.
  destruct a as [y m d], b as [y' m' d'].
  destruct Ha as (_ & Hm & Hd), Hb as (_ & Hm' & Hd').
  unfold date_ltb, toordinal, _ymd2ord; cbn [year month day] in *.
  destruct (Z.ltb_spec y y') as [Hy | Hy]; cbn [orb].
  - symmetry. apply Z.ltb_lt.
    pose proof (days_before_year_succ y).
    pose proof (days_before_year_mono (y + 1) y' ltac:(lia)). lia.
  - destruct (Z.eqb_spec y y') as [<- | Hne]; cbn [andb].
    + destruct (Z.ltb_spec m m') as [Hmm | Hmm]; cbn [orb].
      * symmetry. apply Z.ltb_lt.
        pose proof (days_before_month_mono y m m' ltac:(lia) Hmm ltac:(lia)).
        lia.
      * destruct (Z.eqb_spec m m') as [<- | Hne]; cbn [andb].
        -- destruct (Z.ltb_spec d d'); symmetry;
             [apply Z.ltb_lt | apply Z.ltb_ge]; lia.
        -- symmetry. apply Z.ltb_ge.
           pose proof (days_before_month_mono y m' m
                         ltac:(lia) ltac:(lia) ltac:(lia)).
           lia.
    + symmetry. apply Z.ltb_ge.
      pose proof (days_before_year_succ y').
      pose proof (days_before_year_mono (y' + 1) y ltac:(lia)). lia.
Qed.

End calendar.

(** ** The birthday rule *)

Section birthday_rule.
Local Open Scope Z_scope.

Lemma project_onto_valid (y : Z) (bday : date) :
  valid_date bday -> MINYEAR <= y <= MAXYEAR ->
  valid_date (project_onto y bday).
Proof.
  unfold valid_date, project_onto. intros (Hy & Hm & Hd) Hr.
  rewrite days_in_month_leap in Hd.
  destruct (Z.eqb_spec (month bday) 2) as [E2 | N2]; cbn [andb].
  - destruct (Z.eqb_spec (day bday) 29) as [E29 | N29]; cbn [andb].
    + destruct (_is_leap y) eqn:El; cbn [negb year month day];
        rewrite days_in_month_leap, ?El, ?E2, ?E29; cbn; lia.
    + cbn [year month day]. rewrite days_in_month_leap.
      rewrite E2 in *. cbn in Hd |- *.
      destruct (_is_leap (year bday)), (_is_leap y); lia.
  - cbn [year month day]. rewrite days_in_month_leap.
    replace (month bday =? 2) with false in *
      by (symmetry; apply Z.eqb_neq; lia).
    cbn in Hd |- *. lia.
Qed.

(** The [try]/[except] of lines 108-112 and 115-118 computes the projection,
    for a year that [date] can hold. *)
Lemma project_try (y : Z) (bday : date) :
  valid_date bday -> MINYEAR <= y <= MAXYEAR ->
  try_except_ValueError (replace_year bday y) (date_new y 2 28)
  = Ok (project_onto y bday).
Proof.
  intros Hb Hy. pose proof (project_onto_valid y bday Hb Hy) as Hv.
  unfold project_onto in *. unfold replace_year.
  destruct (Z.eqb_spec (month bday) 2) as [E2 | N2]; cbn [andb] in *.
  - destruct (Z.eqb_spec (day bday) 29) as [E29 | N29]; cbn [andb] in *.
    + destruct (_is_leap y) eqn:El; cbn [negb] in *.
      * rewrite (proj2 (date_new_Ok _ _ _ _) (conj eq_refl Hv)). reflexivity.
      * rewrite E2, E29. unfold date_new at 1.
        unfold MINYEAR, MAXYEAR, _days_in_month in *. rewrite El. cbn.
        replace ((1 <=? y) && (y <=? 9999)) with true
          by (symmetry; apply andb_true_iff; lia).
        cbn. apply date_new_Ok. split; [reflexivity | exact Hv].
    + rewrite (proj2 (date_new_Ok _ _ _ _) (conj eq_refl Hv)). reflexivity.
  - rewrite (proj2 (date_new_Ok _ _ _ _) (conj eq_refl Hv)). reflexivity.
Qed.

(** In the year after 9999 both the [try] and its handler raise. *)
Lemma project_try_overflow (y : Z) (bday : date) :
  MAXYEAR < y ->
  try_except_ValueError (replace_year bday y) (date_new y 2 28)
  = Raise (ValueError ("year " ++ decimal y ++ " is out of range")).
Proof.
  intros Hy. unfold replace_year, date_new, MINYEAR, MAXYEAR in *.
  replace ((1 <=? y) && (y <=? 9999)) with false
    by (symmetry; apply andb_false_iff; right; apply Z.leb_gt; lia).
  reflexivity.
Qed.

Lemma projected_eq (today bday : date) :
  valid_date today -> valid_date bday ->
  projected today bday
  = if date_ltb (project_onto (year today) bday) today then
      if year today <? MAXYEAR then Ok (project_onto (year today + 1) bday)
      else Raise (ValueError ("year " ++ decimal (year today + 1)
                              ++ " is out of range"))
    else Ok (project_onto (year today) bday).
Proof.
  intros Ht Hb. unfold projected.
  rewrite project_try by (auto; apply Ht). cbn [rbind].
  destruct (date_ltb _ today); [|reflexivity].
  destruct (Z.ltb_spec (year today) MAXYEAR).
  - apply project_try; [auto|]. destruct Ht as [? _].
    unfold MINYEAR, MAXYEAR in *. lia.
  - apply project_try_overflow. lia.
Qed.

Lemma projected_valid (today bday p : date) :
  valid_date today -> valid_date bday ->
  projected today bday = Ok p -> valid_date p.
Proof.
  intros Ht Hb. rewrite projected_eq by auto.
  pose proof Ht as [Hy _]. unfold MINYEAR, MAXYEAR in *.
  destruct (date_ltb _ today).
  - destruct (Z.ltb_spec (year today) 9999); [|discriminate].
    intros [= <-]. apply project_onto_valid; [auto|].
    unfold MINYEAR, MAXYEAR. lia.
  - intros [= <-]. apply project_onto_valid; auto.
Qed.

Lemma projected_total (today bday : date) :
  valid_date today -> valid_date bday -> year today < MAXYEAR ->
  exists p, projected today bday = Ok p.
Proof.
  intros Ht Hb Hy. rewrite projected_eq by auto.
  destruct (date_ltb _ today); [|eauto].
  replace (year today <? MAXYEAR) with true by (symmetry; apply Z.ltb_lt; lia).
  eauto.
Qed.

(** The weekend shift never leaves the range of [date]: the last day,
    31 December 9999, is a Friday. *)
Lemma weekend_shift_Ok (p : date) :
  valid_date p ->
  exists d, weekend_shift p = Ok d /\ valid_date d
            /\ toordinal d = toordinal p + shift_of p
            /\ 0 <= weekday d <= 4.
Proof.
  intros Hp. pose proof (toordinal_range p Hp) as Hr.
  unfold weekend_shift, shift_of, weekday in *. unfold _MAXORDINAL in Hr.
  destruct (Z.eqb_spec ((toordinal p + 6) mod 7) 5) as [E5 | N5].
  - destruct (add_days_Ok p 2 Hp) as (d & Hd & Hv & Ho);
      [unfold _MAXORDINAL; zdm|].
    exists d. rewrite Hd, Ho. split; [|split; [|split]]; auto; zdm.
  - destruct (Z.eqb_spec ((toordinal p + 6) mod 7) 6) as [E6 | N6].
    + destruct (add_days_Ok p 1 Hp) as (d & Hd & Hv & Ho);
        [unfold _MAXORDINAL; zdm|].
      exists d. rewrite Hd, Ho. split; [|split; [|split]]; auto; zdm.
    + exists p. split; [|split; [|split]]; auto; zdm.
Qed.

Lemma congratulation_eq (today bday p : date) :
  valid_date today -> valid_date bday -> projected today bday = Ok p ->
  exists d, weekend_shift p = Ok d /\ valid_date d
    /\ toordinal d = toordinal p + shift_of p /\ 0 <= weekday d <= 4
    /\ congratulation today bday
       = if (0 <=? sub_days p today) && (sub_days p today <=? 7)
         then Ok (Some d) else Ok None.
Proof.
  intros Ht Hb Hp.
  destruct (weekend_shift_Ok p (projected_valid _ _ _ Ht Hb Hp))
    as (d & Hd & Hv & Ho & Hw).
  exists d. split; [|split; [|split; [|split]]]; auto.
  unfold congratulation. rewrite Hp. cbn [rbind]. rewrite Hd. reflexivity.
Qed.

Lemma congratulation_total (today bday : date) :
  valid_date today -> valid_date bday -> year today < MAXYEAR ->
  exists c, congratulation today bday = Ok c.
Proof.
  intros Ht Hb Hy. destruct (projected_total _ _ Ht Hb Hy) as [p Hp].
  destruct (congratulation_eq _ _ _ Ht Hb Hp) as (d & _ & _ & _ & _ & ->).
  destruct (_ && _); eauto.
Qed.

(** What a computed congratulation date satisfies. *)
Lemma congratulation_Some (today bday d : date) :
  valid_date today -> valid_date bday ->
  congratulation today bday = Ok (Some d) ->
  exists p, projected today bday = Ok p /\ valid_date p
    /\ 0 <= sub_days p today <= 7
    /\ valid_date d /\ toordinal d = toordinal p + shift_of p
    /\ 0 <= weekday d <= 4.
Proof.
  intros Ht Hb Hc.
  destruct (projected today bday) as [p|e] eqn:Hp.
  - destruct (congratulation_eq _ _ _ Ht Hb Hp) as (d' & _ & Hv & Ho & Hw & E).
    rewrite E in Hc.
    destruct (Z.leb_spec 0 (sub_days p today)); cbn in Hc; [|discriminate].
    destruct (Z.leb_spec (sub_days p today) 7); cbn in Hc; [|discriminate].
    injection Hc as <-. exists p.
    split; [|split; [|split; [|split; [|split]]]];
      eauto using projected_valid; lia.
  - unfold congratulation in Hc. rewrite Hp in Hc. discriminate.
Qed.

End birthday_rule.

(** ** The query, as a whole *)

Ltac munfold :=
  unfold mbind, mret, M_bind, M_ret, lift, deref, assign, alloc, get_data,
    set_data in *.

Section query.

Lemma upcoming_loop_state (today : date) (vals : list loc) :
  forall acc w, snd (upcoming_loop today vals acc w) = w.
Proof.
  induction vals as [|l vals IH]; intros acc w; cbn; [reflexivity|].
  munfold. destruct (heap w !! l) as [r|]; [|reflexivity].
  destruct (birthday r) as [b|]; [|apply IH].
  destruct (congratulation today (dt_date (value b))) as [[d|]|e];
    solve [apply IH | reflexivity].
Qed.

Lemma upcoming_loop_Ok (today : date) (vals : list loc) :
  forall acc w out w',
    upcoming_loop today vals acc w = (Ok out, w') ->
    out = acc ++ omap (entry_of today w) vals.
Proof.
  induction vals as [|l vals IH]; intros acc w out w'; cbn.
  - munfold. intros [= <- _]. by rewrite app_nil_r.
  - munfold. unfold entry_of at 1.
    destruct (heap w !! l) as [r|]; [|discriminate].
    destruct (birthday r) as [b|]; [|apply IH].
    destruct (congratulation today (dt_date (value b))) as [[d|]|e];
      [| apply IH | discriminate].
    intros H. apply IH in H. by rewrite <- app_assoc in H.
Qed.

Lemma upcoming_loop_returns (today : date) (vals : list loc) (w : World) :
  (forall l, l ∈ vals -> exists r, heap w !! l = Some r
     /\ forall b, birthday r = Some b ->
          exists c, congratulation today (dt_date (value b)) = Ok c) ->
  forall acc,
    upcoming_loop today vals acc w
    = (Ok (acc ++ omap (entry_of today w) vals), w).
Proof.
  induction vals as [|l vals IH]; intros H acc; cbn.
  - munfold. by rewrite app_nil_r.
  - munfold. unfold entry_of at 1.
    destruct (H l) as (r & -> & Hb); [left|].
    assert (H' : forall l', l' ∈ vals -> exists r, heap w !! l' = Some r
       /\ forall b, birthday r = Some b ->
            exists c, congratulation today (dt_date (value b)) = Ok c)
      by (intros l' Hl'; apply H; by right).
    destruct (birthday r) as [b|]; [|by apply IH].
    destruct (Hb b eq_refl) as [[d|] ->]; [|by apply IH].
    rewrite IH by assumption. by rewrite <- app_assoc.
Qed.

Lemma get_upcoming_birthdays_state (today : date) (w : World) :
  snd (get_upcoming_birthdays today w) = w.
Proof.
  unfold get_upcoming_birthdays. munfold. apply upcoming_loop_state.
Qed.

Lemma get_upcoming_birthdays_Ok (today : date) (w w' : World) out :
  get_upcoming_birthdays today w = (Ok out, w') ->
  out = omap (entry_of today w) (dict_values (data w)).
Proof.
  unfold get_upcoming_birthdays. munfold. intros H.
  by apply upcoming_loop_Ok in H.
Qed.

Lemma wf_values (w : World) (l : loc) :
  wf w -> l ∈ dict_values (data w) ->
  exists k r, (k, l) ∈ data w /\ heap w !! l = Some r /\ value (name r) = k
    /\ forall b, birthday r = Some b -> valid_date (dt_date (value b)).
Proof.
  intros (_ & Hk & Hb) Hl. unfold dict_values in Hl.
  apply list_elem_of_fmap in Hl as ([k l'] & -> & Hin).
  destruct (Hk k l' Hin) as (r & Hr & Hn).
  exists k, r. split; [|split; [|split]]; auto.
  intros b Hbr. eapply Hb; eauto.
Qed.

(** With a year after the current one to project onto, the query returns. *)
Lemma get_upcoming_birthdays_returns (today : date) (w : World) :
  wf w -> valid_date today -> (year today < MAXYEAR)%Z ->
  get_upcoming_birthdays today w
  = (Ok (omap (entry_of today w) (dict_values (data w))), w).
Proof.
  intros Hw Ht Hy. unfold get_upcoming_birthdays. munfold.
  rewrite upcoming_loop_returns; [reflexivity|].
  intros l Hl. destruct (wf_values w l Hw Hl) as (k & r & _ & Hr & _ & Hb).
  exists r. split; [exact Hr|]. intros b Hbr.
  apply congratulation_total; auto.
Qed.

(** Where an entry of the answer comes from. *)
Lemma entry_of_Some (today : date) (w : World) (l : loc) (e : entry) :
  entry_of today w l = Some e ->
  exists r b d, heap w !! l = Some r /\ birthday r = Some b
    /\ congratulation today (dt_date (value b)) = Ok (Some d)
    /\ e = mkentry (value (name r)) (strftime_Ymd d).
Proof.
  unfold entry_of. destruct (heap w !! l) as [r|]; [|discriminate].
  destruct (birthday r) as [b|] eqn:Hb; [|discriminate].
  destruct (congratulation today (dt_date (value b))) as [[d|]|] eqn:Hc;
    try discriminate.
  intros [= <-]. exists r, b, d. repeat split; assumption.
Qed.

End query.

(** ** The dictionary *)

Section dict_facts.
Context {K V : Type} `{EqDecision K}.
Implicit Types (d : list (K * V)) (k : K) (v : V).

Lemma dict_get_set_eq d k v : dict_get (dict_set d k v) k = Some v.
Proof.
  induction d as [|[k' v'] d IH]; cbn.
  - by rewrite decide_True.
  - destruct (decide (k' = k)) as [-> | Hne]; cbn.
    + by rewrite decide_True.
    + by rewrite decide_False.
Qed.

Lemma dict_get_set_ne d k k' v :
  k ≠ k' -> dict_get (dict_set d k v) k' = dict_get d k'.
Proof.
  intros Hne. induction d as [|[k0 v0] d IH]; cbn.
  - by rewrite decide_False.
  - destruct (decide (k0 = k)) as [-> | Hne0]; cbn.
    + by rewrite !decide_False.
    + destruct (decide (k0 = k')); auto.
Qed.

Lemma dict_get_Some d k v : dict_get d k = Some v -> (k, v) ∈ d.
Proof.
  induction d as [|[k' v'] d IH]; cbn; [discriminate|].
  destruct (decide (k' = k)) as [-> | Hne].
  - intros [= ->]. left.
  - intros H. right. auto.
Qed.

Lemma dict_get_None d k : dict_get d k = None <-> k ∉ dict_keys d.
Proof.
  induction d as [|[k' v'] d IH]; cbn.
  - split; [intros _; apply not_elem_of_nil | reflexivity].
  - rewrite not_elem_of_cons. destruct (decide (k' = k)) as [-> | Hne].
    + split; [discriminate | intros [? _]; congruence].
    + rewrite IH. split; [intros ?; split; auto | intros [_ ?]; auto].
Qed.

Lemma elem_of_dict_set d k v (x : K * V) :
  x ∈ dict_set d k v -> x = (k, v) \/ x ∈ d.
Proof.
  induction d as [|[k' v'] d IH]; cbn.
  - intros ->%list_elem_of_singleton. by left.
  - destruct (decide (k' = k)) as [-> | Hne].
    + intros [-> | ?]%elem_of_cons; [by left | right; by right].
    + intros [-> | ?]%elem_of_cons; [right; left|].
      destruct IH as [? | ?]; auto. right. by right.
Qed.

Lemma elem_of_dict_del d k (x : K * V) : x ∈ dict_del d k -> x ∈ d.
Proof.
  induction d as [|[k' v'] d IH]; cbn; [done|].
  destruct (decide (k' = k)) as [-> | Hne].
  - intros ?. by right.
  - intros [-> | ?]%elem_of_cons; [left | right; auto].
Qed.

Lemma dict_keys_set d k v :
  dict_keys (dict_set d k v)
  = if dict_contains d k then dict_keys d else dict_keys d ++ [k].
Proof.
  unfold dict_contains, dict_keys.
  induction d as [|[k' v'] d IH]; cbn; [done|].
  destruct (decide (k' = k)) as [-> | Hne]; cbn; [done|].
  rewrite IH. by destruct (dict_get d k).
Qed.

Lemma dict_set_NoDup d k v :
  NoDup (dict_keys d) -> NoDup (dict_keys (dict_set d k v)).
Proof.
  intros Hd. rewrite dict_keys_set. unfold dict_contains.
  destruct (dict_get d k) eqn:E; [done|].
  apply NoDup_app. split; [done|]. split; [|apply NoDup_singleton].
  intros x Hx ->%list_elem_of_singleton. by apply dict_get_None in E.
Qed.

Lemma dict_keys_del d k : dict_keys (dict_del d k) `sublist_of` dict_keys d.
Proof.
  induction d as [|[k' v'] d IH]; cbn; [done|].
  destruct (decide (k' = k)); cbn.
  - by apply sublist_cons.
  - by apply sublist_skip.
Qed.

Lemma dict_del_NoDup d k :
  NoDup (dict_keys d) -> NoDup (dict_keys (dict_del d k)).
Proof. intros Hd. eapply sublist_NoDup; [done | apply dict_keys_del]. Qed.

Lemma dict_get_del_eq d k :
  NoDup (dict_keys d) -> dict_get (dict_del d k) k = None.
Proof.
  induction d as [|[k' v'] d IH]; cbn; [done|].
  intros [Hk Hd]%NoDup_cons.
  destruct (decide (k' = k)) as [-> | Hne]; cbn.
  - by apply dict_get_None.
  - rewrite decide_False by done. auto.
Qed.
End dict_facts.

(** ** What the calls do to the world *)

Section calls.

Lemma strptime_dmY_Ok (s : pystr) (dt : datetime) :
  strptime_dmY s = Ok dt ->
  exists gd g1 gm g2 gY y m d,
    re_match format_regex s = Some ([gd; g1; gm; g2; gY], [])
    /\ int gY = Ok y /\ int gm = Ok m /\ int gd = Ok d
    /\ valid_date (mkdate y m d)
    /\ dt = mkdatetime (mkdate y m d) 0 0 0 0.
Proof.
  unfold strptime_dmY.
  destruct (re_match format_regex s) as [[groups rest]|]; [|discriminate].
  destruct rest; [|discriminate].
  destruct groups as [|gd [|g1 [|gm [|g2 [|gY [|]]]]]]; try discriminate.
  destruct (int gY) as [y|] eqn:Ey; [|discriminate].
  destruct (int gm) as [m|] eqn:Em; [|discriminate].
  destruct (int gd) as [d|] eqn:Ed; [|discriminate].
  cbn [rbind]. destruct (date_new y m d) as [x|] eqn:Ex; [|discriminate].
  apply date_new_Ok in Ex as [-> Hv]. cbn [rbind]. intros [= <-].
  exists gd, g1, gm, g2, gY, y, m, d. repeat split; auto; apply Hv.
Qed.

Lemma Birthday_init_Ok (s : pystr) (b : Birthday) :
  Birthday_init s = Ok b -> strptime_dmY s = Ok (value b).
Proof.
  unfold Birthday_init.
  destruct (strptime_dmY s) as [dt|[]]; cbn; try discriminate.
  by intros [= <-].
Qed.

Lemma Birthday_init_valid (s : pystr) (b : Birthday) :
  Birthday_init s = Ok b -> valid_date (dt_date (value b)).
Proof.
  intros H%Birthday_init_Ok%strptime_dmY_Ok.
  destruct H as (gd & g1 & gm & g2 & gY & y & m & d & _ & _ & _ & _ & Hv & ->).
  exact Hv.
Qed.

(** The queries leave the world as it is. *)
Lemma find_state (nm : pystr) (w : World) : snd (find nm w) = w.
Proof. reflexivity. Qed.

Lemma find_phone_state (self : loc) (s : pystr) (w : World) :
  snd (find_phone self s w) = w.
Proof.
  unfold find_phone. munfold. by destruct (heap w !! self).
Qed.

(** Every call either leaves the world alone, or stores one record (a new
    one, or an old one with the same name), or sets a key of the dictionary
    to a record of that name, or deletes a key. *)
Lemma exec_cases (o : op) (w : World) :
  exec o w = w
  \/ (exists l r', exec o w = mkWorld (<[l := r']> (heap w)) (data w)
        /\ (heap w !! l = None /\ birthday r' = None
            \/ exists r, heap w !! l = Some r /\ name r' = name r
                 /\ forall b, birthday r' = Some b ->
                      birthday r = Some b \/ valid_date (dt_date (value b))))
  \/ (exists l r, heap w !! l = Some r
        /\ exec o w = mkWorld (heap w)
                        (dict_set (data w) (value (name r)) l))
  \/ (exists nm, exec o w = mkWorld (heap w) (dict_del (data w) nm)).
Proof.
  destruct o; cbn [exec].
  - right; left. unfold Record_init. munfold. cbn.
    eexists _, _. split; [reflexivity|]. left. split; [|reflexivity].
    apply not_elem_of_dom, is_fresh.
  - unfold add_phone. munfold.
    destruct (heap w !! self) as [r|] eqn:Hr; [|by left].
    destruct (Phone_init phone_number) as [p|]; [|by left].
    right; left. eexists _, _. split; [reflexivity|]. right.
    exists r. repeat split; auto.
  - unfold remove_phone. munfold.
    destruct (heap w !! self) as [r|] eqn:Hr; [|by left].
    right; left. eexists _, _. split; [reflexivity|]. right.
    exists r. repeat split; auto.
  - unfold edit_phone. munfold.
    destruct (heap w !! self) as [r|] eqn:Hr; [|by left].
    destruct (edit_loop _ _ _) as [ps|]; [|by left].
    right; left. eexists _, _. split; [reflexivity|]. right.
    exists r. repeat split; auto.
  - unfold add_birthday. munfold.
    destruct (heap w !! self) as [r|] eqn:Hr; [|by left].
    destruct (Birthday_init birthday_str) as [b|] eqn:Hb; [|by left].
    right; left. eexists _, _. split; [reflexivity|]. right.
    exists r. split; [done|]. split; [done|].
    intros b' [= <-]. right. by eapply Birthday_init_valid.
  - unfold add_record. munfold.
    destruct (heap w !! record) as [r|] eqn:Hr; [|by left].
    right; right; left. by exists record, r.
  - unfold delete. munfold.
    destruct (dict_contains (data w) nm); [|by left].
    right; right; right. by exists nm.
  - left. apply find_state.
  - left. apply find_phone_state.
  - left. apply get_upcoming_birthdays_state.
Qed.

Lemma exec_keys_are_names (o : op) (w : World) :
  keys_are_names w -> keys_are_names (exec o w).
Proof.
  intros Hk.
  destruct (exec_cases o w)
    as [-> | [(l & r' & -> & Hl) | [(l & r & Hr & ->) | (nm & ->)]]];
    [done| | |]; intros k l0 Hin; cbn in *.
  - destruct (Hk k l0 Hin) as (r0 & Hr0 & Hn).
    destruct (decide (l = l0)) as [-> | Hne].
    + exists r'. rewrite lookup_insert_eq. split; [done|].
      destruct Hl as [[Hl _] | (r & Hr & Hnm & _)]; [congruence|].
      rewrite Hnm. congruence.
    + exists r0. by rewrite lookup_insert_ne.
  - apply elem_of_dict_set in Hin as [[= -> ->] | Hin]; eauto.
  - apply elem_of_dict_del in Hin. auto.
Qed.

Lemma exec_NoDup (o : op) (w : World) :
  NoDup (dict_keys (data w)) -> NoDup (dict_keys (data (exec o w))).
Proof.
  intros Hd.
  destruct (exec_cases o w)
    as [-> | [(l & r' & -> & Hl) | [(l & r & Hr & ->) | (nm & ->)]]];
    cbn [data]; auto using dict_set_NoDup, dict_del_NoDup.
Qed.

Lemma exec_birthdays_valid (o : op) (w : World) :
  birthdays_valid w -> birthdays_valid (exec o w).
Proof.
  intros Hv.
  destruct (exec_cases o w)
    as [-> | [(l & r' & -> & Hl) | [(l & r & Hr & ->) | (nm & ->)]]];
    [done| |done|done].
  intros l0 r0 b; cbn.
  destruct (decide (l = l0)) as [-> | Hne].
  - rewrite lookup_insert_eq. intros [= <-] Hb.
    destruct Hl as [[_ Hn] | (r & Hr & _ & Hbb)]; [congruence|].
    destruct (Hbb b Hb); eauto.
  - rewrite lookup_insert_ne by done. apply Hv.
Qed.

Lemma exec_wf (o : op) (w : World) : wf w -> wf (exec o w).
Proof.
  intros (? & ? & ?).
  split; [|split];
    auto using exec_NoDup, exec_keys_are_names, exec_birthdays_valid.
Qed.

Lemma empty_wf : wf empty_world.
Proof.
  split; [|split].
  - apply NoDup_nil_2.
  - intros k l Hin. by apply elem_of_nil in Hin.
  - intros l r b Hl. cbn in Hl. by rewrite lookup_empty in Hl.
Qed.

Lemma reachable_wf (w : World) : reachable w -> wf w.
Proof.
  induction 1; auto using empty_wf, exec_wf.
Qed.

End calls.

(** * The properties of the specification *)

Lemma run_reachable (ops : list op) : reachable (run ops).
Proof.
  unfold run. generalize reach_empty. generalize empty_world.
  induction ops as [|o ops IH]; intros w Hw; cbn; [done|].
  apply IH. by constructor.
Qed.

Lemma run_wf (ops : list op) : wf (run ops).
Proof. apply reachable_wf, run_reachable. Qed.

Ltac valid := unfold valid_date; vm_compute; intuition discriminate.

Section upcoming.
Local Open Scope Z_scope.

(** C3: the window of 0 to 7 days is decided on the projected date, before
    the weekend shift; the shift (two days from a Saturday, one from a
    Sunday) is applied afterwards, to the records that passed.  So a record
    whose projected birthday is a Sunday exactly 7 days after today is in
    the answer, and its congratulation date is 8 days after today. *)
Theorem filter_then_shift (today bday p : date) :
  valid_date today -> valid_date bday -> projected today bday = Ok p ->
  (~ 0 <= sub_days p today <= 7 -> congratulation today bday = Ok None)
  /\ (0 <= sub_days p today <= 7 ->
      exists d, congratulation today bday = Ok (Some d)
        /\ weekend_shift p = Ok d
        /\ sub_days d today = sub_days p today + shift_of p)
  /\ (weekday p = 6 -> sub_days p today = 7 ->
      exists d, congratulation today bday = Ok (Some d)
        /\ sub_days d today = 8
        /\ forall w l r b,
             wf w -> l ∈ dict_values (data w) -> heap w !! l = Some r ->
             birthday r = Some b -> dt_date (value b) = bday ->
             (year today < MAXYEAR ->
              exists out, get_upcoming_birthdays today w = (Ok out, w))
             /\ (forall out w',
                   get_upcoming_birthdays today w = (Ok out, w') ->
                   mkentry (value (name r)) (strftime_Ymd d) ∈ out)).
Proof.
  intros Ht Hb Hp.
  destruct (congratulation_eq _ _ _ Ht Hb Hp) as (d & Hs & Hv & Ho & Hw & E).
  split; [|split].
  - intros Hn. rewrite E.
    destruct (Z.leb_spec 0 (sub_days p today));
      destruct (Z.leb_spec (sub_days p today) 7); cbn; try reflexivity.
    exfalso. apply Hn. lia.
  - intros Hin. exists d. rewrite E.
    replace ((0 <=? sub_days p today) && (sub_days p today <=? 7)) with true
      by (symmetry; apply andb_true_iff; lia).
    unfold sub_days in *. repeat split; auto. lia.
  - intros Hsun H7. exists d. rewrite E, H7. cbn.
    split; [reflexivity|]. split.
    + unfold sub_days, shift_of in *. rewrite Hsun in Ho. cbn in Ho. lia.
    + intros w l r b Hwf Hl Hr Hbr <-. split.
      * intros Hy. eexists. by apply get_upcoming_birthdays_returns.
      * intros out w' Hq. apply get_upcoming_birthdays_Ok in Hq as ->.
        apply list_elem_of_omap. exists l. split; [done|].
        unfold entry_of. rewrite Hr, Hbr, E, H7. reflexivity.
Qed.

Lemma filter_then_shift_witness :
  exists d,
    congratulation (mkdate 2024 6 9) (mkdate 2000 6 16) = Ok (Some d)
    /\ sub_days d (mkdate 2024 6 9) = 8
    /\ forall out w',
         get_upcoming_birthdays (mkdate 2024 6 9) book_sunday = (Ok out, w') ->
         mkentry (lit "Ann") (strftime_Ymd d) ∈ out.
Proof.
  destruct (filter_then_shift (mkdate 2024 6 9) (mkdate 2000 6 16)
              (mkdate 2024 6 16)) as (_ & _ & H);
    [valid | valid | reflexivity |].
  destruct H as (d & Hc & H8 & Hq); [reflexivity | reflexivity |].
  exists d. split; [exact Hc|]. split; [exact H8|].
  pose (b := mkField (mkdatetime (mkdate 2000 6 16) 0 0 0 0) : Birthday).
  apply (Hq book_sunday ann (mkRecord (mkField (lit "Ann")) [] (Some b)) b
           (run_wf _)).
  - vm_compute. left.
  - vm_compute. reflexivity.
  - reflexivity.
  - reflexivity.
Defined.

(** A date of the calendar is never 29 February of a year without one. *)
Lemma valid_not_feb29 (d : date) :
  valid_date d -> ~ (month d = 2 /\ day d = 29 /\ _is_leap (year d) = false).
Proof.
  intros (_ & _ & Hd) (Hm & H29 & Hl).
  unfold _days_in_month in Hd. rewrite Hm, Hl in Hd. cbn in Hd. lia.
Qed.

(** The dates of the answer are dates of the calendar. *)
Lemma entry_of_valid (today : date) (w : World) (l : loc) (e : entry) :
  wf w -> valid_date today -> l ∈ dict_values (data w) ->
  entry_of today w l = Some e ->
  exists d p, congratulation_date e = strftime_Ymd d /\ valid_date d
    /\ 0 <= weekday d <= 4 /\ valid_date p
    /\ 0 <= sub_days p today <= 7
    /\ toordinal d = toordinal p + shift_of p.
Proof.
  intros Hw Ht Hl He.
  destruct (entry_of_Some _ _ _ _ He) as (r & b & d & Hr & Hb & Hc & ->).
  destruct (wf_values w l Hw Hl) as (k & r' & _ & Hr' & _ & Hv).
  rewrite Hr in Hr'. injection Hr' as <-.
  destruct (congratulation_Some _ _ _ Ht (Hv b Hb) Hc)
    as (p & _ & Hp & Hwin & Hd & Ho & Hwd).
  exists d, p.
  split; [|split; [|split; [|split; [|split]]]]; try assumption;
    try reflexivity; lia.
Qed.

(** C4 (as amended): for a birthday on 29 February, the projection onto a
    year without that day is 28 February of that year; when the projection
    onto the year of today is before today, the birthday is projected onto
    the next year in the same way; and while the year of today is below
    9999, the last year a date can hold, the query returns and every date it
    gives is a date of the calendar, so never 29 February of a year that has
    none. *)
Theorem feb29_projection (today bday : date) :
  valid_date today -> valid_date bday -> month bday = 2 -> day bday = 29 ->
  (forall y, project_onto y bday
             = mkdate y 2 (if _is_leap y then 29 else 28))
  /\ try_except_ValueError (replace_year bday (year today))
       (date_new (year today) 2 28)
     = Ok (project_onto (year today) bday)
  /\ (date_ltb (project_onto (year today) bday) today = true
      <-> toordinal (project_onto (year today) bday) < toordinal today)
  /\ (date_ltb (project_onto (year today) bday) today = false ->
      projected today bday = Ok (project_onto (year today) bday))
  /\ (date_ltb (project_onto (year today) bday) today = true ->
      year today < MAXYEAR ->
      projected today bday = Ok (project_onto (year today + 1) bday))
  /\ (year today < MAXYEAR ->
      exists c, congratulation today bday = Ok c
        /\ forall d, c = Some d ->
             valid_date d
             /\ ~ (month d = 2 /\ day d = 29 /\ _is_leap (year d) = false))
  /\ (year today < MAXYEAR -> forall w, wf w ->
      exists out, get_upcoming_birthdays today w = (Ok out, w)
        /\ forall e, e ∈ out ->
             exists d, congratulation_date e = strftime_Ymd d
               /\ valid_date d
               /\ ~ (month d = 2 /\ day d = 29
                     /\ _is_leap (year d) = false)).
Proof.
  intros Ht Hb Hm Hd.
  split; [|split; [|split; [|split; [|split; [|split]]]]].
  - intros y. unfold project_onto. rewrite Hm, Hd. cbn.
    by destruct (_is_leap y).
  - apply project_try; [done | apply Ht].
  - rewrite date_ltb_ord by (auto; apply project_onto_valid; auto; apply Ht).
    apply Z.ltb_lt.
  - intros Hlt. rewrite projected_eq, Hlt by done. reflexivity.
  - intros Hlt Hy. rewrite projected_eq, Hlt by done.
    by replace (year today <? MAXYEAR) with true
      by (symmetry; apply Z.ltb_lt; lia).
  - intros Hy. destruct (congratulation_total _ _ Ht Hb Hy) as [c Hc].
    exists c. split; [done|]. intros d ->.
    destruct (congratulation_Some _ _ _ Ht Hb Hc)
      as (p & _ & _ & _ & Hv & _ & _).
    split; [done | by apply valid_not_feb29].
  - intros Hy w Hw. eexists. split.
    + by apply get_upcoming_birthdays_returns.
    + intros e (l & Hl & He)%list_elem_of_omap.
      destruct (entry_of_valid _ _ _ _ Hw Ht Hl He)
        as (d & p & Hs & Hv & _).
      exists d. split; [done|]. split; [done | by apply valid_not_feb29].
Qed.

Lemma feb29_projection_witness :
  projected (mkdate 2023 3 1) (mkdate 2000 2 29) = Ok (mkdate 2024 2 29)
  /\ projected (mkdate 2023 2 25) (mkdate 2000 2 29) = Ok (mkdate 2023 2 28)
  /\ exists out,
       get_upcoming_birthdays (mkdate 2023 2 25) book_feb29
       = (Ok out, book_feb29).
Proof.
  split; [|split].
  - destruct (feb29_projection (mkdate 2023 3 1) (mkdate 2000 2 29))
      as (_ & _ & _ & _ & H & _); [valid | valid | reflexivity..|].
    apply H; [reflexivity | reflexivity].
  - destruct (feb29_projection (mkdate 2023 2 25) (mkdate 2000 2 29))
      as (_ & _ & _ & H & _); [valid | valid | reflexivity..|].
    apply H. reflexivity.
  - destruct (feb29_projection (mkdate 2023 2 25) (mkdate 2000 2 29))
      as (_ & _ & _ & _ & _ & _ & H); [valid | valid | reflexivity..|].
    destruct (H ltac:(reflexivity) book_feb29 (run_wf _)) as (out & Hq & _).
    by exists out.
Defined.

(** C4, as stated, fails in the last year of the calendar: on 1 March 9999
    the birthday of 29 February is past, the projection onto the year 10000
    raises in the [try] and again in its handler, and that [ValueError]
    leaves the query. *)
Lemma feb29_year_9999_raises :
  valid_date (mkdate 9999 3 1) /\ wf book_feb29
  /\ heap book_feb29 !! ann
     = Some (mkRecord (mkField (lit "Ann")) [mkField (lit "1234567890")]
               (Some (mkField (mkdatetime (mkdate 2000 2 29) 0 0 0 0))))
  /\ get_upcoming_birthdays (mkdate 9999 3 1) book_feb29
     = (Raise (ValueError "year 10000 is out of range"), book_feb29).
Proof.
  split; [valid|]. split; [apply run_wf|].
  split; vm_compute; reflexivity.
Qed.

(** C9: every date that the query returns is a Monday to a Friday, and is 0
    to 9 days after today. *)
Theorem congratulation_on_weekday (today : date) (w : World) :
  wf w -> valid_date today ->
  (forall out w',
     get_upcoming_birthdays today w = (Ok out, w') ->
     forall e, e ∈ out ->
       exists d, congratulation_date e = strftime_Ymd d /\ valid_date d
         /\ 0 <= weekday d <= 4 /\ 0 <= sub_days d today <= 9)
  /\ (year today < MAXYEAR ->
      exists out, get_upcoming_birthdays today w = (Ok out, w)).
Proof.
  intros Hw Ht. split.
  - intros out w' Hq e He. apply get_upcoming_birthdays_Ok in Hq as ->.
    apply list_elem_of_omap in He as (l & Hl & He).
    destruct (entry_of_valid _ _ _ _ Hw Ht Hl He)
      as (d & p & Hs & Hv & Hwd & _ & Hwin & Ho).
    exists d. split; [done|]. split; [done|]. split; [done|].
    unfold sub_days, shift_of in *.
    destruct (weekday p =? 5); [lia|]. destruct (weekday p =? 6); lia.
  - intros Hy. eexists. by apply get_upcoming_birthdays_returns.
Qed.

Lemma congratulation_on_weekday_witness :
  (forall e,
     e ∈ [mkentry (lit "Ann") (lit "2024.06.17");
          mkentry (lit "Bob") (lit "2024.06.12")] ->
     exists d, congratulation_date e = strftime_Ymd d /\ valid_date d
       /\ 0 <= weekday d <= 4 /\ 0 <= sub_days d (mkdate 2024 6 10) <= 9)
  /\ exists out,
       get_upcoming_birthdays (mkdate 2024 6 10) book_june
       = (Ok out, book_june).
Proof.
  destruct (congratulation_on_weekday (mkdate 2024 6 10) book_june
              (run_wf _) ltac:(valid)) as [H1 H2].
  split.
  - apply (H1 _ book_june). vm_compute. reflexivity.
  - apply H2. reflexivity.
Defined.









Lemma omap_names_sublist (today : date) (w : World)
    (d : list (pystr * loc)) :
  (forall k l, (k, l) ∈ d ->
     exists r, heap w !! l = Some r /\ value (name r) = k) ->
  map entry_name (omap (entry_of today w) (dict_values d))
    `sublist_of` dict_keys d.
Proof.
  unfold dict_values, dict_keys.
  induction d as [|[k l] d IH]; intros H; cbn; [done|].
  assert (IH' := IH (fun k' l' Hin =>
                       H k' l' (list_elem_of_further _ _ _ Hin))).
  destruct (entry_of today w l) as [e|] eqn:He; cbn.
  - destruct (entry_of_Some _ _ _ _ He) as (r & b & x & Hr & _ & _ & ->).
    destruct (H k l) as (r' & Hr' & <-); [left|].
    rewrite Hr in Hr'. injection Hr' as <-. cbn.
    by apply sublist_skip.
  - by apply sublist_cons.
Qed.




(** C10: [find], [find_phone] and [get_upcoming_birthdays] leave the world
    (the dictionary, the records, their phones and birthdays) as it was,
    whether they return or raise. *)
Theorem queries_do_not_mutate (w : World) (nm : pystr) (self : loc)
    (phone_number : pystr) (today : date) :
  snd (find nm w) = w
  /\ snd (find_phone self phone_number w) = w
  /\ snd (get_upcoming_birthdays today w) = w.
Proof.
  split; [|split];
    auto using find_state, find_phone_state, get_upcoming_birthdays_state.
Qed.

End upcoming.

Section records.

Lemma Phone_init_Ok (s : pystr) (q : Phone) :
  Phone_init s = Ok q -> q = mkField s.
Proof.
  unfold Phone_init. destruct (negb _); [discriminate|]. by intros [= <-].
Qed.

Lemma Phone_init_Raise (s : pystr) (e : exn) :
  Phone_init s = Raise e -> e = ValueError msg_phone.
Proof.
  unfold Phone_init. destruct (negb _); [|discriminate]. by intros [= <-].
Qed.

Lemma edit_loop_missing (ps : list Phone) (old_number new_number : pystr) :
  old_number ∉ map value ps ->
  edit_loop ps old_number new_number = Raise (ValueError msg_old).
Proof.
  induction ps as [|p ps IH]; cbn; [done|].
  intros [Hne Hnin]%not_elem_of_cons.
  rewrite decide_False by done. by rewrite IH.
Qed.

Lemma edit_loop_invalid (ps : list Phone) (old_number new_number : pystr)
    (e : exn) :
  old_number ∈ map value ps -> Phone_init new_number = Raise e ->
  edit_loop ps old_number new_number = Raise e.
Proof.
  intros Hin He. induction ps as [|p ps IH]; cbn in *.
  - by apply elem_of_nil in Hin.
  - destruct (decide (value p = old_number)) as [Heq | Hne].
    + by rewrite He.
    + apply elem_of_cons in Hin as [? | Hin]; [congruence|].
      by rewrite IH.
Qed.

(** On success the loop rewrites the first phone that equals [old_number],
    where it stands, and nothing else. *)
Lemma edit_loop_found (ps : list Phone) (old_number new_number : pystr)
    (q : Phone) :
  old_number ∈ map value ps -> Phone_init new_number = Ok q ->
  exists i ps',
    edit_loop ps old_number new_number = Ok ps'
    /\ map value ps !! i = Some old_number
    /\ (forall j, (j < i)%nat -> map value ps !! j ≠ Some old_number)
    /\ map value ps' = <[i := new_number]> (map value ps)
    /\ length ps' = length ps.
Proof.
  intros Hin Hq. apply Phone_init_Ok in Hq as Eq.
  induction ps as [|p ps IH]; cbn in *.
  - by apply elem_of_nil in Hin.
  - destruct (decide (value p = old_number)) as [Heq | Hne].
    + exists 0%nat. eexists. rewrite Hq. cbn. split; [reflexivity|].
      split; [by rewrite Heq|]. split; [intros j Hj; lia|].
      rewrite Eq. done.
    + apply elem_of_cons in Hin as [? | Hin]; [congruence|].
      destruct (IH Hin) as (i & ps' & -> & Hi & Hfirst & Hmap & Hlen).
      exists (S i), (p :: ps'). cbn. split; [reflexivity|].
      split; [done|]. split.
      * intros [|j] Hj; cbn; [congruence | apply Hfirst; lia].
      * by rewrite Hmap, Hlen.
Qed.

(** C5: [edit_phone old_number new_number] on a record: when a phone equals
    [old_number] and [new_number] is a valid phone, the first such phone
    takes the new value where it stands, and the number of phones, the name
    and the birthday stay; when no phone equals [old_number] the call raises
    "Old number not found." and changes nothing; when a phone equals
    [old_number] and [new_number] is not a valid phone, the call raises the
    error of [Phone] and changes nothing. *)
Theorem edit_phone_spec (w : World) (self : loc) (r : RecordObj)
    (old_number new_number : pystr) :
  heap w !! self = Some r ->
  (old_number ∈ map value (phones r) ->
   (exists q, Phone_init new_number = Ok q) ->
   exists i ps,
     edit_phone self old_number new_number w
     = (Ok tt,
        mkWorld (<[self := mkRecord (name r) ps (birthday r)]> (heap w))
          (data w))
     /\ map value (phones r) !! i = Some old_number
     /\ (forall j, (j < i)%nat -> map value (phones r) !! j ≠ Some old_number)
     /\ map value ps = <[i := new_number]> (map value (phones r))
     /\ length ps = length (phones r))
  /\ (old_number ∉ map value (phones r) ->
      edit_phone self old_number new_number w
      = (Raise (ValueError msg_old), w))
  /\ (old_number ∈ map value (phones r) ->
      (forall q, Phone_init new_number ≠ Ok q) ->
      edit_phone self old_number new_number w
      = (Raise (ValueError msg_phone), w)).
Proof.
  intros Hr. unfold edit_phone. munfold. rewrite Hr.
  split; [|split].
  - intros Hin [q Hq].
    destruct (edit_loop_found _ _ _ q Hin Hq)
      as (i & ps & -> & Hi & Hfirst & Hmap & Hlen).
    by exists i, ps.
  - intros Hnin. by rewrite edit_loop_missing.
  - intros Hin Hbad.
    destruct (Phone_init new_number) as [q|e] eqn:Hq; [by destruct (Hbad q)|].
    rewrite (edit_loop_invalid _ _ _ e Hin Hq).
    by rewrite (Phone_init_Raise _ _ Hq).
Qed.

Lemma edit_phone_spec_witness :
  (exists i ps,
     edit_phone ann (lit "1234567890") (lit "0000000000") book_feb29
     = (Ok tt,
        mkWorld
          (<[ann := mkRecord (mkField (lit "Ann")) ps
                      (Some (mkField (mkdatetime (mkdate 2000 2 29) 0 0 0 0)))]>
             (heap book_feb29))
          (data book_feb29))
     /\ map value ps = <[i := lit "0000000000"]> [lit "1234567890"])
  /\ edit_phone ann (lit "5555555555") (lit "0000000000") book_feb29
     = (Raise (ValueError msg_old), book_feb29)
  /\ edit_phone ann (lit "1234567890") (lit "12345") book_feb29
     = (Raise (ValueError msg_phone), book_feb29).
Proof.
  destruct (edit_phone_spec book_feb29 ann
              (mkRecord (mkField (lit "Ann")) [mkField (lit "1234567890")]
                 (Some (mkField (mkdatetime (mkdate 2000 2 29) 0 0 0 0))))
              (lit "1234567890") (lit "0000000000")) as (H1 & _ & _);
    [vm_compute; reflexivity|].
  destruct (edit_phone_spec book_feb29 ann
              (mkRecord (mkField (lit "Ann")) [mkField (lit "1234567890")]
                 (Some (mkField (mkdatetime (mkdate 2000 2 29) 0 0 0 0))))
              (lit "5555555555") (lit "0000000000")) as (_ & H2 & _);
    [vm_compute; reflexivity|].
  destruct (edit_phone_spec book_feb29 ann
              (mkRecord (mkField (lit "Ann")) [mkField (lit "1234567890")]
                 (Some (mkField (mkdatetime (mkdate 2000 2 29) 0 0 0 0))))
              (lit "1234567890") (lit "12345")) as (_ & _ & H3);
    [vm_compute; reflexivity|].
  split; [|split].
  - destruct H1 as (i & ps & He & _ & _ & Hm & _).
    + left.
    + eexists. reflexivity.
    + exists i, ps. split; [exact He | exact Hm].
  - apply H2. cbn. intros Hin. apply list_elem_of_singleton in Hin.
    discriminate Hin.
  - apply H3; [left|]. intros q Hq. vm_compute in Hq. discriminate Hq.
Defined.

End records.

Section directory.

(** C6: after [add_record], [find] with the name of the record returns that
    very record, with its own phones and birthday (no record is changed by
    the call, and the name has one entry, also when it had one before);
    after [delete], [find] of the name returns [None]; and [delete] of a
    name that is not a key changes nothing and raises nothing. *)
Theorem add_find_delete (w : World) (record : loc) (r : RecordObj)
    (nm : pystr) :
  (heap w !! record = Some r ->
   let w1 := snd (add_record record w) in
   fst (add_record record w) = Ok tt
   /\ find (value (name r)) w1 = (Ok (Some record), w1)
   /\ heap w1 = heap w
   /\ heap w1 !! record = Some r
   /\ dict_keys (data w1)
      = (if dict_contains (data w) (value (name r)) then dict_keys (data w)
         else dict_keys (data w) ++ [value (name r)])
   /\ (NoDup (dict_keys (data w)) -> NoDup (dict_keys (data w1)))
   /\ (forall k, k ≠ value (name r) ->
         fst (find k w1) = fst (find k w)))
  /\ (NoDup (dict_keys (data w)) ->
      let w2 := snd (delete nm w) in
      fst (delete nm w) = Ok tt
      /\ find nm w2 = (Ok None, w2)
      /\ heap w2 = heap w)
  /\ (dict_get (data w) nm = None -> delete nm w = (Ok tt, w)).
Proof.
  split; [|split].
  - intros Hr. unfold add_record, find. munfold. rewrite Hr. cbn.
    split; [done|]. split; [by rewrite dict_get_set_eq|].
    split; [done|]. split; [done|]. split; [apply dict_keys_set|].
    split; [apply dict_set_NoDup|].
    intros k Hk. by rewrite dict_get_set_ne.
  - intros Hd. unfold delete, find, dict_contains. munfold.
    destruct (dict_get (data w) nm) eqn:E; cbn.
    + by rewrite dict_get_del_eq.
    + by rewrite E.
  - intros E. unfold delete, dict_contains. munfold. by rewrite E.
Qed.

Lemma add_find_delete_witness :
  (let w1 := snd (add_record bob book_two_anns) in
   find (lit "Ann") w1 = (Ok (Some bob), w1)
   /\ heap w1 !! bob = Some (mkRecord (mkField (lit "Ann")) [] None)
   /\ dict_keys (data w1) = [lit "Ann"])
  /\ (let w2 := snd (delete (lit "Ann") book_feb29) in
      find (lit "Ann") w2 = (Ok None, w2))
  /\ delete (lit "Bob") book_feb29 = (Ok tt, book_feb29).
Proof.
  destruct (add_find_delete book_feb29 ann
              (mkRecord (mkField (lit "Ann")) [mkField (lit "1234567890")]
                 (Some (mkField (mkdatetime (mkdate 2000 2 29) 0 0 0 0))))
              (lit "Ann")) as (H1 & H2 & _).
  destruct (add_find_delete book_feb29 ann
              (mkRecord (mkField (lit "Ann")) [mkField (lit "1234567890")]
                 (Some (mkField (mkdatetime (mkdate 2000 2 29) 0 0 0 0))))
              (lit "Bob")) as (_ & _ & H3).
  split; [|split].
  - destruct (add_find_delete book_two_anns bob
                (mkRecord (mkField (lit "Ann")) [] None) (lit "Ann"))
      as (H & _).
    destruct H as (_ & Hf & _ & Hh & Hk & _); [vm_compute; reflexivity|].
    split; [exact Hf|]. split; [exact Hh|]. rewrite Hk. reflexivity.
  - apply H2. apply (run_wf _).
  - apply H3. vm_compute. reflexivity.
Defined.

Lemma exec_name (o : op) (w : World) (l : loc) (r : RecordObj) :
  heap w !! l = Some r ->
  exists r', heap (exec o w) !! l = Some r' /\ name r' = name r.
Proof.
  intros Hr.
  destruct (exec_cases o w)
    as [-> | [(l0 & r' & -> & Hl) | [(l0 & r0 & Hr0 & ->) | (nm & ->)]]];
    cbn; eauto.
  destruct (decide (l0 = l)) as [-> | Hne].
  - exists r'. rewrite lookup_insert_eq. split; [done|].
    destruct Hl as [[Hl _] | (r0 & Hr0 & Hn & _)]; congruence.
  - exists r. by rewrite lookup_insert_ne.
Qed.

(** C8: in every world that the calls can reach from the empty address
    book, every key of the dictionary is the name of the record it maps to;
    every call ([add_record], [delete], [add_phone], [remove_phone],
    [edit_phone], [add_birthday], the constructor and the queries) keeps
    this, and none changes the name of a record. *)
Theorem keys_are_names_invariant :
  (forall w, reachable w -> keys_are_names w)
  /\ (forall o w, keys_are_names w -> keys_are_names (exec o w))
  /\ (forall o w l r, heap w !! l = Some r ->
        exists r', heap (exec o w) !! l = Some r' /\ name r' = name r).
Proof.
  split; [|split].
  - intros w Hw. apply (reachable_wf w Hw).
  - apply exec_keys_are_names.
  - apply exec_name.
Qed.

Lemma keys_are_names_invariant_witness :
  keys_are_names book_june
  /\ keys_are_names (exec (OpEditPhone ann (lit "1") (lit "2")) book_june)
  /\ exists r', heap (exec (OpAddPhone ann (lit "1234567890")) book_june)
                  !! ann = Some r'
       /\ name r' = mkField (lit "Ann").
Proof.
  destruct keys_are_names_invariant as (H1 & H2 & H3).
  pose proof (H1 book_june (run_reachable _)) as Hk.
  split; [exact Hk|]. split; [apply H2, Hk|].
  apply (H3 (OpAddPhone ann (lit "1234567890")) book_june ann
           (mkRecord (mkField (lit "Ann")) []
              (Some (mkField (mkdatetime (mkdate 2000 6 15) 0 0 0 0))))).
  vm_compute. reflexivity.
Defined.

End directory.

Section phone.

Lemma ascii_digit_decimal (c : N) :
  ascii_digit c = true -> decimal_value c = Some (c - 48)%N.
Proof.
  unfold ascii_digit, decimal_value, Nd_zeros. cbn [List.find].
  change (48 + 9)%N with 57%N. by intros ->.
Qed.

Lemma ascii_digit_isdigit (c : N) :
  ascii_digit c = true -> isdigit_char c = true.
Proof.
  intros H. unfold isdigit_char, isdecimal_char.
  by rewrite (ascii_digit_decimal c H).
Qed.

Lemma isdigit_forallb (v : pystr) :
  isdigit v && (length v =? 10)%nat
  = forallb isdigit_char v && (length v =? 10)%nat.
Proof. by destruct v. Qed.

(** C1 (as amended): [Phone] accepts a text exactly when it has 10
    characters and each is a digit for [str.isdigit], which the ten ASCII
    digits are (and so are the digits of other scripts, superscripts and the
    like); every other text raises the one error of [Phone]; an accepted
    text is stored as it is. *)
Theorem Phone_init_spec (v : pystr) :
  (Phone_init v = Ok (mkField v)
   <-> forallb isdigit_char v = true /\ length v = 10%nat)
  /\ (~ (forallb isdigit_char v = true /\ length v = 10%nat) ->
      Phone_init v = Raise (ValueError msg_phone))
  /\ (forallb ascii_digit v = true -> length v = 10%nat ->
      Phone_init v = Ok (mkField v))
  /\ (forall p, Phone_init v = Ok p -> value p = v).
Proof.
  assert (Hiff : Phone_init v = Ok (mkField v)
                 <-> forallb isdigit_char v = true /\ length v = 10%nat).
  { unfold Phone_init. rewrite isdigit_forallb.
    destruct (forallb isdigit_char v); cbn.
    - destruct (Nat.eqb_spec (length v) 10); cbn; split;
        try done; intros []; done.
    - split; [done | intros []; done]. }
  split; [exact Hiff|]. split; [|split].
  - intros Hn. destruct (Phone_init v) as [p|e] eqn:E.
    + pose proof (Phone_init_Ok _ _ E) as ->. destruct Hn. by apply Hiff.
    + by rewrite (Phone_init_Raise _ _ E).
  - intros Ha Hl. apply Hiff. split; [|done].
    apply forallb_forall. intros c Hc.
    apply ascii_digit_isdigit.
    by apply (proj1 (forallb_forall _ _) Ha).
  - intros p Hp. by rewrite (Phone_init_Ok _ _ Hp).
Qed.

Lemma Phone_init_spec_witness :
  Phone_init (lit "1234567890") = Ok (mkField (lit "1234567890"))
  /\ Phone_init (lit "123-456-78") = Raise (ValueError msg_phone).
Proof.
  split.
  - apply (Phone_init_spec (lit "1234567890")); reflexivity.
  - apply (Phone_init_spec (lit "123-456-78")).
    intros [H _]. vm_compute in H. discriminate H.
Defined.

(** C1, as stated, fails: ten times the superscript two (U+00B2), which is
    no ASCII digit, is a valid phone. *)
Lemma Phone_init_superscript_two :
  let v := repeat 178%N 10 in
  Phone_init v = Ok (mkField v)
  /\ forallb ascii_digit v = false
  /\ ~ ((exists p, Phone_init v = Ok p)
        <-> forallb ascii_digit v = true /\ length v = 10%nat).
Proof.
  cbv zeta. split; [reflexivity|]. split; [reflexivity|].
  intros [H _]. destruct H as [H _]; [by eexists | discriminate H].
Qed.

End phone.

(** ** The text of a birthday *)

Section birthday_text.

Lemma match_seq_sound (a : list cls) :
  forall s g rest, match_seq a s = Some (g, rest) ->
    s = g ++ rest /\ match_seq a g = Some (g, []).
Proof.
  induction a as [|k a IH]; intros s g rest; cbn.
  - intros [= <- <-]. done.
  - destruct s as [|c s]; [done|].
    destruct (cls_match k c) eqn:Hk; [|done].
    destruct (match_seq a s) as [[g' rest']|] eqn:Hm; [|done].
    intros [= <- <-]. destruct (IH _ _ _ Hm) as [-> Hg].
    cbn. by rewrite Hk, Hg.
Qed.

Lemma match_seq_app (a : list cls) :
  forall g rest, match_seq a g = Some (g, []) ->
    match_seq a (g ++ rest) = Some (g, rest).
Proof.
  induction a as [|k a IH]; intros g rest; cbn.
  - by intros [= <-].
  - destruct g as [|c g]; [done|]. cbn.
    destruct (cls_match k c); [|done].
    destruct (match_seq a g) as [[g' rest']|] eqn:Hm; [|done].
    intros [= -> ->]. by rewrite (IH _ rest Hm).
Qed.

Lemma first_success_Some {A B} (f : A -> option B) (l : list A) (r : B) :
  first_success f l = Some r -> exists a, a ∈ l /\ f a = Some r.
Proof.
  induction l as [|a l IH]; cbn; [done|].
  destruct (f a) as [r'|] eqn:E.
  - intros [= <-]. exists a. split; [left | done].
  - intros (a' & Hin & Ha')%IH. exists a'. split; [by right | done].
Qed.

Lemma first_success_is_Some {A B} (f : A -> option B) (l : list A) (a : A) :
  a ∈ l -> is_Some (f a) -> is_Some (first_success f l).
Proof.
  induction l as [|a' l IH]; cbn; [by intros ?%elem_of_nil|].
  intros [-> | Hin]%elem_of_cons Hs.
  - destruct Hs as [r ->]. by eexists.
  - destruct (f a'); [by eexists | by apply IH].
Qed.

Lemma re_match_sound (re : regex) :
  forall s gs rest, re_match re s = Some (gs, rest) ->
    s = concat gs ++ rest /\ Forall2 full_match re gs.
Proof.
  induction re as [|alts re IH]; intros s gs rest; cbn.
  - intros [= <- <-]. split; [done | constructor].
  - intros (a & Hin & Ha)%first_success_Some.
    destruct (match_seq a s) as [[g r1]|] eqn:Hm; [|done].
    destruct (re_match re r1) as [[gs' r2]|] eqn:Hr; [|done].
    injection Ha as <- <-.
    destruct (match_seq_sound _ _ _ _ Hm) as [-> Hg].
    destruct (IH _ _ _ Hr) as [-> Hgs].
    split; [cbn; by rewrite <- app_assoc|].
    constructor; [by exists a | done].
Qed.

Lemma re_match_complete (re : regex) :
  forall gs rest, Forall2 full_match re gs ->
    is_Some (re_match re (concat gs ++ rest)).
Proof.
  induction re as [|alts re IH]; intros gs rest Hf; cbn.
  - by eexists.
  - inversion Hf as [|? g ? gs' (a & Hin & Ha) Hf']; subst.
    apply (first_success_is_Some _ _ a Hin).
    cbn. rewrite <- app_assoc, (match_seq_app _ _ _ Ha).
    destruct (IH gs' rest Hf') as [[gs2 r2] ->]. by eexists.
Qed.

Ltac unfold_classes :=
  unfold day_text, month_text, year_text, cls_match, in_range,
    d0, d1, d2, d3, d9, space, dot in *.

Ltac split_ifs H :=
  repeat match type of H with
         | context [if ?b then _ else _] => destruct b eqn:?; try discriminate H
         end.

Ltac elem_cases H :=
  repeat (apply elem_of_cons in H as [-> | H]);
  [.. | by apply elem_of_nil in H].

Ltac bool_close :=
  repeat match goal with
         | E : ?b = _ |- context [?b] => rewrite E
         end;
  cbn [andb orb]; rewrite ?orb_true_r; try reflexivity.

Lemma day_text_full (g : pystr) : day_text g = true <-> full_match re_d g.
Proof.
  split.
  - destruct g as [|a [|b [|]]]; try done.
    + intros H. exists [Range d1 d9]. split; [unfold re_d; set_solver|].
      change (in_range d1 d9 a = true) in H.
      cbn [match_seq cls_match]. by rewrite H.
    + unfold day_text. intros H.
      apply orb_true_iff in H as [H | H];
        [apply orb_true_iff in H as [H | H]|];
        apply andb_true_iff in H as [Ha Hb].
      * exists [Chr d3; Range d0 d1]. split; [unfold re_d; set_solver|].
        cbn [match_seq cls_match]. by rewrite Ha, Hb.
      * exists [Range d1 d2; AnyDecimal]. split; [unfold re_d; set_solver|].
        cbn [match_seq cls_match]. by rewrite Ha, Hb.
      * apply orb_true_iff in Ha as [Ha | Ha].
        -- exists [Chr d0; Range d1 d9]. split; [unfold re_d; set_solver|].
           cbn [match_seq cls_match]. by rewrite Ha, Hb.
        -- exists [Chr space; Range d1 d9]. split; [unfold re_d; set_solver|].
           cbn [match_seq cls_match]. by rewrite Ha, Hb.
  - intros (a & Hin & Hm). unfold re_d in Hin. elem_cases Hin;
      destruct g as [|x [|y [|z ?]]]; cbn [match_seq cls_match] in Hm;
      try discriminate Hm;
      split_ifs Hm; unfold day_text; bool_close.
Qed.

Lemma month_text_full (g : pystr) : month_text g = true <-> full_match re_m g.
Proof.
  split.
  - destruct g as [|a [|b [|]]]; try done.
    + intros H. exists [Range d1 d9]. split; [unfold re_m; set_solver|].
      change (in_range d1 d9 a = true) in H.
      cbn [match_seq cls_match]. by rewrite H.
    + unfold month_text. intros H.
      apply orb_true_iff in H as [H | H]; apply andb_true_iff in H as [Ha Hb].
      * exists [Chr d1; Range d0 d2]. split; [unfold re_m; set_solver|].
        cbn [match_seq cls_match]. by rewrite Ha, Hb.
      * exists [Chr d0; Range d1 d9]. split; [unfold re_m; set_solver|].
        cbn [match_seq cls_match]. by rewrite Ha, Hb.
  - intros (a & Hin & Hm). unfold re_m in Hin. elem_cases Hin;
      destruct g as [|x [|y [|z ?]]]; cbn [match_seq cls_match] in Hm;
      try discriminate Hm;
      split_ifs Hm; unfold month_text; bool_close.
Qed.

Lemma year_text_full (g : pystr) : year_text g = true <-> full_match re_Y g.
Proof.
  split.
  - destruct g as [|a [|b [|c [|d [|]]]]]; try done.
    unfold year_text. cbn [forallb]. intros H.
    exists [AnyDecimal; AnyDecimal; AnyDecimal; AnyDecimal].
    split; [unfold re_Y; set_solver|]. cbn [match_seq cls_match].
    destruct (isdecimal_char a); [|done]. destruct (isdecimal_char b); [|done].
    destruct (isdecimal_char c); [|done]. by destruct (isdecimal_char d).
  - intros (a & Hin & Hm). unfold re_Y in Hin. elem_cases Hin.
    destruct g as [|x [|y [|z [|u [|]]]]]; cbn [match_seq cls_match] in Hm;
      try discriminate Hm;
      split_ifs Hm. unfold year_text. cbn [forallb]. bool_close.
Qed.

Lemma dot_full (g : pystr) : full_match re_dot g <-> g = [dot].
Proof.
  split.
  - intros (a & Hin & Hm). unfold re_dot in Hin. elem_cases Hin.
    destruct g as [|x [|]]; cbn [match_seq cls_match] in Hm;
      try discriminate Hm; split_ifs Hm.
    by match goal with
       | E : (_ =? _)%N = true |- _ => apply N.eqb_eq in E as ->
       end.
  - intros ->. exists [Chr dot]. split; [unfold re_dot; set_solver | done].
Qed.

Ltac no_dot H :=
  unfold day_text, month_text in H;
  change (in_range d0 d1 dot) with false in H;
  change (in_range d0 d2 dot) with false in H;
  change (in_range d1 d9 dot) with false in H;
  change (isdecimal_char dot) with false in H;
  rewrite ?andb_false_r in H; cbn [orb] in H; discriminate H.

Lemma day_text_prefix (g g' t t' : pystr) :
  day_text g = true -> day_text g' = true ->
  g ++ dot :: t = g' ++ dot :: t' -> g = g' /\ t = t'.
Proof.
  intros Hg Hg' E.
  destruct g as [|a [|b [|]]]; try discriminate Hg;
    destruct g' as [|a' [|b' [|]]]; try discriminate Hg';
    simplify_eq/=; try done; [no_dot Hg' | no_dot Hg].
Qed.

Lemma month_text_prefix (g g' t t' : pystr) :
  month_text g = true -> month_text g' = true ->
  g ++ dot :: t = g' ++ dot :: t' -> g = g' /\ t = t'.
Proof.
  intros Hg Hg' E.
  destruct g as [|a [|b [|]]]; try discriminate Hg;
    destruct g' as [|a' [|b' [|]]]; try discriminate Hg';
    simplify_eq/=; try done; [no_dot Hg' | no_dot Hg].
Qed.

Lemma year_text_length (g : pystr) : year_text g = true -> length g = 4%nat.
Proof. by destruct g as [|a [|b [|c [|d [|]]]]]. Qed.

(** The texts that the expression of the format matches to their end. *)
Lemma format_regex_matches (s : pystr) (gs : list pystr) :
  re_match format_regex s = Some (gs, [])
  <-> exists gd gm gY,
        gs = [gd; [dot]; gm; [dot]; gY]
        /\ s = gd ++ [dot] ++ gm ++ [dot] ++ gY
        /\ day_text gd = true /\ month_text gm = true
        /\ year_text gY = true.
Proof.
  split.
  - intros [Hs Hf]%re_match_sound. unfold format_regex in Hf.
    repeat match goal with
           | H : Forall2 _ (_ :: _) _ |- _ =>
               apply Forall2_cons_inv_l in H as (? & ? & ? & H & ->)
           | H : Forall2 _ [] _ |- _ => apply Forall2_nil_inv_l in H as ->
           end.
    repeat match goal with
           | H : full_match re_dot _ |- _ => apply dot_full in H as ->
           | H : full_match re_d _ |- _ => apply day_text_full in H
           | H : full_match re_m _ |- _ => apply month_text_full in H
           | H : full_match re_Y _ |- _ => apply year_text_full in H
           end.
    eexists _, _, _. split; [reflexivity|]. split; [|done].
    rewrite Hs. cbn. by rewrite !app_nil_r.
  - intros (gd & gm & gY & -> & -> & Hd & Hm & HY).
    assert (Hf : Forall2 full_match format_regex [gd; [dot]; gm; [dot]; gY]).
    { constructor; [apply (proj1 (day_text_full gd) Hd)|].
      constructor; [apply (proj2 (dot_full [dot]) eq_refl)|].
      constructor; [apply (proj1 (month_text_full gm) Hm)|].
      constructor; [apply (proj2 (dot_full [dot]) eq_refl)|].
      constructor; [apply (proj1 (year_text_full gY) HY)|].
      constructor. }
    destruct (re_match_complete _ _ [] Hf) as [[gs' rest'] Hr].
    assert (E0 : concat [gd; [dot]; gm; [dot]; gY] ++ []
                 = gd ++ [dot] ++ gm ++ [dot] ++ gY)
      by (cbn [concat]; by rewrite !app_nil_r).
    rewrite E0 in Hr.
    pose proof Hr as [Hs Hf']%re_match_sound.
    unfold format_regex in Hf'.
    repeat match goal with
           | H : Forall2 _ (_ :: _) _ |- _ =>
               apply Forall2_cons_inv_l in H as (? & ? & ? & H & ->)
           | H : Forall2 _ [] _ |- _ => apply Forall2_nil_inv_l in H as ->
           end.
    repeat match goal with
           | H : full_match re_dot _ |- _ => apply dot_full in H as ->
           | H : full_match re_d _ |- _ => apply day_text_full in H
           | H : full_match re_m _ |- _ => apply month_text_full in H
           | H : full_match re_Y _ |- _ => apply year_text_full in H
           end.
    cbn [concat app] in Hs.
    rewrite ?app_nil_r, <- ?app_assoc in Hs. cbn [app] in Hs.
    rewrite <- ?app_assoc in Hs. cbn [app] in Hs.
    match type of Hs with
    | _ = ?g ++ _ :: ?h ++ _ :: ?y ++ _ =>
        assert (Hg : day_text g = true) by assumption;
        assert (Hh : month_text h = true) by assumption;
        assert (Hy : year_text y = true) by assumption
    end.
    apply (day_text_prefix _ _ _ _ Hd Hg) in Hs as [<- Hs].
    apply (month_text_prefix _ _ _ _ Hm Hh) in Hs as [<- Hs].
    rewrite <- (app_nil_r gY) in Hs at 1.
    apply app_inj_1 in Hs as [<- <-];
      [exact Hr
      | by rewrite (year_text_length _ HY), (year_text_length _ Hy)].
Qed.

Lemma int_Raise (g : pystr) (e : exn) :
  int g = Raise e -> exists msg, e = ValueError msg.
Proof.
  unfold int. destruct (strip g); [intros [= <-]; eauto|].
  destruct (int_digits _ _); [done | intros [= <-]; eauto].
Qed.

Lemma strptime_dmY_Raise (s : pystr) (e : exn) :
  strptime_dmY s = Raise e -> exists msg, e = ValueError msg.
Proof.
  unfold strptime_dmY.
  destruct (re_match format_regex s) as [[groups rest]|];
    [|intros [= <-]; eauto].
  destruct rest; [|intros [= <-]; eauto].
  destruct groups as [|gd [|g1 [|gm [|g2 [|gY [|]]]]]];
    try (intros [= <-]; eauto).
  destruct (int gY) as [y|] eqn:Ey;
    [|cbn; intros [= <-]; eauto using int_Raise].
  destruct (int gm) as [m|] eqn:Em;
    [|cbn; intros [= <-]; eauto using int_Raise].
  destruct (int gd) as [d|] eqn:Ed;
    [|cbn; intros [= <-]; eauto using int_Raise].
  cbn [rbind]. destruct (date_new y m d) as [x|] eqn:Ex; [done|].
  cbn. intros [= <-]. eauto using date_new_raises.
Qed.

Lemma Birthday_init_Raise (s : pystr) (e : exn) :
  Birthday_init s = Raise e -> e = ValueError msg_date.
Proof.
  unfold Birthday_init. destruct (strptime_dmY s) as [dt|e'] eqn:E; [done|].
  destruct (strptime_dmY_Raise _ _ E) as [msg ->]. cbn. by intros [= <-].
Qed.

Lemma Birthday_init_iff (s : pystr) (b : Birthday) :
  Birthday_init s = Ok b
  <-> exists gd gm gY y m d,
        s = gd ++ [dot] ++ gm ++ [dot] ++ gY
        /\ day_text gd = true /\ month_text gm = true
        /\ year_text gY = true
        /\ int gY = Ok y /\ int gm = Ok m /\ int gd = Ok d
        /\ valid_date (mkdate y m d)
        /\ b = mkField (mkdatetime (mkdate y m d) 0 0 0 0).
Proof.
  split.
  - intros H. apply Birthday_init_Ok in H as Hs.
    apply strptime_dmY_Ok in Hs
      as (gd & g1 & gm & g2 & gY & y & m & d & Hre & Hy & Hm & Hd & Hv & Hb).
    apply format_regex_matches in Hre
      as (gd' & gm' & gY' & [= -> -> -> -> ->] & -> & Td & Tm & TY).
    exists gd', gm', gY', y, m, d. repeat (split; [done|]).
    destruct b as [dt]. cbn in Hb. by rewrite Hb.
  - intros (gd & gm & gY & y & m & d & -> & Td & Tm & TY & Hy & Hm & Hd
            & Hv & ->).
    unfold Birthday_init, strptime_dmY.
    rewrite (proj2 (format_regex_matches _ [gd; [dot]; gm; [dot]; gY]))
      by (by exists gd, gm, gY).
    rewrite Hy, Hm, Hd. cbn [rbind].
    by rewrite (proj2 (date_new_Ok y m d _) (conj eq_refl Hv)).
Qed.

Lemma ascii_digit_not_space (c : N) :
  ascii_digit c = true -> isspace_char c = false.
Proof.
  unfold ascii_digit, in_range. intros [H1 H2]%andb_true_iff.
  apply N.leb_le in H1, H2.
  unfold isspace_char, whitespace. cbn [existsb].
  repeat (rewrite (proj2 (N.eqb_neq c _)) by lia; cbn [orb]). reflexivity.
Qed.

Lemma ascii_val_range (c : N) :
  ascii_digit c = true -> (0 <= ascii_val c <= 9)%Z.
Proof.
  unfold ascii_digit, in_range, ascii_val. intros [H1 H2]%andb_true_iff.
  apply N.leb_le in H1, H2. lia.
Qed.

Lemma ascii_decimal_value (c : N) :
  ascii_digit c = true -> decimal_value c = Some (Z.to_N (ascii_val c)).
Proof.
  intros H. rewrite (ascii_digit_decimal c H). f_equal.
  pose proof (ascii_val_range c H). unfold ascii_val in *. lia.
Qed.

Lemma int_two_ascii (a b : N) :
  ascii_digit a = true -> ascii_digit b = true ->
  int [a; b] = Ok (10 * ascii_val a + ascii_val b)%Z.
Proof.
  intros Ha Hb. unfold int, strip. cbn [lstrip rev app].
  rewrite ?(ascii_digit_not_space a Ha), ?(ascii_digit_not_space b Hb).
  cbn [lstrip rev app].
  rewrite ?(ascii_digit_not_space a Ha), ?(ascii_digit_not_space b Hb).
  cbn [rev app int_digits].
  rewrite (ascii_decimal_value a Ha). cbn [int_digits].
  rewrite (ascii_decimal_value b Hb). cbn [int_digits].
  pose proof (ascii_val_range a Ha). pose proof (ascii_val_range b Hb).
  f_equal. lia.
Qed.

Lemma int_four_ascii (a b c d : N) :
  ascii_digit a = true -> ascii_digit b = true ->
  ascii_digit c = true -> ascii_digit d = true ->
  int [a; b; c; d]
  = Ok (1000 * ascii_val a + 100 * ascii_val b + 10 * ascii_val c
        + ascii_val d)%Z.
Proof.
  intros Ha Hb Hc Hd. unfold int, strip. cbn [lstrip rev app].
  rewrite ?(ascii_digit_not_space a Ha), ?(ascii_digit_not_space d Hd).
  cbn [lstrip rev app].
  rewrite ?(ascii_digit_not_space a Ha), ?(ascii_digit_not_space d Hd).
  cbn [rev app int_digits].
  rewrite (ascii_decimal_value a Ha). cbn [int_digits].
  rewrite (ascii_decimal_value b Hb). cbn [int_digits].
  rewrite (ascii_decimal_value c Hc). cbn [int_digits].
  rewrite (ascii_decimal_value d Hd). cbn [int_digits].
  pose proof (ascii_val_range a Ha). pose proof (ascii_val_range b Hb).
  pose proof (ascii_val_range c Hc). pose proof (ascii_val_range d Hd).
  f_equal. lia.
Qed.

Lemma literal_date_Some (s : pystr) (x : date) :
  literal_date s = Some x ->
  exists a b c d e f g h,
    s = [a; b; dot; c; d; dot; e; f; g; h]
    /\ Forall (fun k => ascii_digit k = true) [a; b; c; d; e; f; g; h]
    /\ x = mkdate
             (1000 * ascii_val e + 100 * ascii_val f + 10 * ascii_val g
              + ascii_val h)
             (10 * ascii_val c + ascii_val d)
             (10 * ascii_val a + ascii_val b)%Z.
Proof.
  destruct s as [|a [|b [|p [|c [|d [|q [|e [|f [|g [|h [|]]]]]]]]]]];
    try discriminate.
  unfold literal_date.
  destruct (literal_DDMMYYYY _) eqn:E; [|discriminate]. intros [= <-].
  unfold literal_DDMMYYYY in E.
  apply andb_true_iff in E as [E Eq]. apply andb_true_iff in E as [E Ep].
  apply N.eqb_eq in Ep as ->. apply N.eqb_eq in Eq as ->.
  exists a, b, c, d, e, f, g, h. split; [done|]. split; [|done].
  apply Forall_forall. intros k Hk.
  apply (proj1 (forallb_forall _ _) E). by apply list_elem_of_In.
Qed.

Ltac digit_bounds :=
  repeat match goal with
         | H : ascii_digit ?c = true |- _ =>
             unfold ascii_digit, in_range in H;
             apply andb_true_iff in H as [?%N.leb_le ?%N.leb_le]
         end.

Ltac decide_tests :=
  repeat match goal with
         | |- context [(?x =? ?y)%N] => destruct (N.eqb_spec x y)
         | |- context [(?x <=? ?y)%N] => destruct (N.leb_spec x y)
         end; cbn [andb orb]; try reflexivity; exfalso; lia.

Lemma day_text_ascii (a b : N) :
  ascii_digit a = true -> ascii_digit b = true ->
  (1 <= 10 * ascii_val a + ascii_val b <= 31)%Z ->
  day_text [a; b] = true.
Proof.
  intros Ha Hb. unfold day_text.
  assert (Hd : isdecimal_char b = true)
    by (unfold isdecimal_char; by rewrite (ascii_digit_decimal b Hb)).
  rewrite Hd. unfold ascii_val, in_range, d0, d1, d2, d3, d9, space.
  digit_bounds. intros Hr. decide_tests.
Qed.

Lemma month_text_ascii (a b : N) :
  ascii_digit a = true -> ascii_digit b = true ->
  (1 <= 10 * ascii_val a + ascii_val b <= 12)%Z ->
  month_text [a; b] = true.
Proof.
  intros Ha Hb. unfold month_text, ascii_val, in_range, d0, d1, d2, d9.
  digit_bounds. intros Hr. decide_tests.
Qed.

Lemma year_text_ascii (a b c d : N) :
  ascii_digit a = true -> ascii_digit b = true ->
  ascii_digit c = true -> ascii_digit d = true ->
  year_text [a; b; c; d] = true.
Proof.
  intros Ha Hb Hc Hd. unfold year_text, isdecimal_char. cbn [forallb].
  by rewrite (ascii_digit_decimal a Ha), (ascii_digit_decimal b Hb),
    (ascii_digit_decimal c Hc), (ascii_digit_decimal d Hd).
Qed.

Lemma valid_day_le_31 (x : date) : valid_date x -> (1 <= day x <= 31)%Z.
Proof.
  intros (_ & Hm & Hd). rewrite days_in_month_leap in Hd.
  assert (Hc : (month x = 1 \/ month x = 2 \/ month x = 3 \/ month x = 4
               \/ month x = 5 \/ month x = 6 \/ month x = 7
               \/ month x = 8 \/ month x = 9 \/ month x = 10
               \/ month x = 11 \/ month x = 12)%Z) by lia.
  destruct (_is_leap (year x));
    repeat (destruct Hc as [Hc | Hc]); rewrite Hc in Hd; cbn in Hd; lia.
Qed.

Lemma literal_accepted (s : pystr) (x : date) :
  literal_date s = Some x -> valid_date x ->
  Birthday_init s = Ok (mkField (mkdatetime x 0 0 0 0)).
Proof.
  intros (a & b & c & d & e & f & g & h & -> & Hall & ->)%literal_date_Some Hv.
  repeat match goal with
         | H : Forall _ (_ :: _) |- _ => apply Forall_cons in H as [? H]
         end.
  pose proof (valid_day_le_31 _ Hv) as Hday. destruct Hv as (Hy & Hm & Hd).
  cbn [year month day] in *.
  apply Birthday_init_iff.
  exists [a; b], [c; d], [e; f; g; h]. eexists _, _, _.
  split; [reflexivity|].
  split; [by apply day_text_ascii|].
  split; [by apply month_text_ascii|].
  split; [by apply year_text_ascii|].
  split; [by apply int_four_ascii|].
  split; [by apply int_two_ascii|].
  split; [by apply int_two_ascii|].
  split; [|reflexivity]. repeat split; cbn [year month day]; lia.
Qed.

Lemma ascii_digit_dot : ascii_digit dot = false.
Proof. reflexivity. Qed.

Lemma literal_rejected (s : pystr) (x : date) :
  literal_date s = Some x -> ~ valid_date x ->
  Birthday_init s = Raise (ValueError msg_date).
Proof.
  intros (a & b & c & d & e & f & g & h & -> & Hall & ->)%literal_date_Some Hv.
  repeat match goal with
         | H : Forall _ (_ :: _) |- _ => apply Forall_cons in H as [? H]
         end.
  destruct (Birthday_init _) as [bd|err] eqn:E;
    [|by rewrite (Birthday_init_Raise _ _ E)].
  exfalso. apply Hv. clear Hv.
  apply Birthday_init_iff in E
    as (gd & gm & gY & y & m & dd & Hs & Td & Tm & TY & Hy & Hm & Hd & Hv & _).
  destruct gd as [|u [|v [|]]]; try discriminate Td;
    destruct gm as [|u' [|v' [|]]]; try discriminate Tm;
    destruct gY as [|y1 [|y2 [|y3 [|y4 [|]]]]]; try discriminate TY;
    simplify_eq/=;
    try match goal with
        | H : ascii_digit dot = true |- _ => by rewrite ascii_digit_dot in H
        end.
  rewrite int_four_ascii in Hy by done. rewrite !int_two_ascii in * by done.
  by simplify_eq.
Qed.

End birthday_text.

Section birthday.

(** C2 (as amended): [Birthday] accepts a text exactly when it reads day,
    dot, month, dot, year, where the day is one digit 1-9 (alone, or after a
    zero or a space) or 10 to 31, the month is one digit 1-9 (alone or after
    a zero) or 10 to 12, the year is exactly four decimal digits, and the
    three numbers are a date of the calendar (years 1 to 9999); it then
    stores that date with no time of day.  Every other text raises the one
    error of [Birthday].  In particular a text in the literal format
    [DD.MM.YYYY] is accepted when it names a date of the calendar and
    refused when it does not. *)
Theorem Birthday_init_spec (s : pystr) :
  (forall b, Birthday_init s = Ok b
     <-> exists gd gm gY y m d,
           s = gd ++ [dot] ++ gm ++ [dot] ++ gY
           /\ day_text gd = true /\ month_text gm = true
           /\ year_text gY = true
           /\ int gY = Ok y /\ int gm = Ok m /\ int gd = Ok d
           /\ valid_date (mkdate y m d)
           /\ b = mkField (mkdatetime (mkdate y m d) 0 0 0 0))
  /\ (forall e, Birthday_init s = Raise e -> e = ValueError msg_date)
  /\ (forall x, literal_date s = Some x -> valid_date x ->
        Birthday_init s = Ok (mkField (mkdatetime x 0 0 0 0)))
  /\ (forall x, literal_date s = Some x -> ~ valid_date x ->
        Birthday_init s = Raise (ValueError msg_date)).
Proof.
  split; [|split; [|split]].
  - apply Birthday_init_iff.
  - apply Birthday_init_Raise.
  - apply literal_accepted.
  - apply literal_rejected.
Qed.

Lemma Birthday_init_spec_witness :
  Birthday_init (lit "29.02.2024")
  = Ok (mkField (mkdatetime (mkdate 2024 2 29) 0 0 0 0))
  /\ Birthday_init (lit "29.02.2023") = Raise (ValueError msg_date)
  /\ Birthday_init (lit "2024-02-29") = Raise (ValueError msg_date)
  /\ Birthday_init (lit "02/29/2024") = Raise (ValueError msg_date).
Proof.
  split; [|split; [|split]].
  - apply (Birthday_init_spec (lit "29.02.2024")); [reflexivity | valid].
  - apply (Birthday_init_spec (lit "29.02.2023") : _ /\ _ /\ _ /\ _)
      with (x := mkdate 2023 2 29); [reflexivity|].
    intros (_ & _ & H). vm_compute in H. destruct H as [_ H]. by apply H.
  - destruct (Birthday_init (lit "2024-02-29")) as [b|e] eqn:E;
      [vm_compute in E; discriminate E|].
    by rewrite (proj1 (proj2 (Birthday_init_spec _)) e E).
  - destruct (Birthday_init (lit "02/29/2024")) as [b|e] eqn:E;
      [vm_compute in E; discriminate E|].
    by rewrite (proj1 (proj2 (Birthday_init_spec _)) e E).
Defined.

(** C2, as stated, fails: the text ["1.1.2000"], with a one-digit day and a
    one-digit month, is not in the literal format [DD.MM.YYYY] and is
    accepted, as 1 January 2000. *)
Lemma Birthday_init_short_fields :
  Birthday_init (lit "1.1.2000")
  = Ok (mkField (mkdatetime (mkdate 2000 1 1) 0 0 0 0))
  /\ literal_DDMMYYYY (lit "1.1.2000") = false
  /\ ~ (forall s, (exists b, Birthday_init s = Ok b)
                  <-> exists x, literal_date s = Some x /\ valid_date x).
Proof.
  split; [reflexivity|]. split; [reflexivity|].
  intros H. destruct (proj1 (H (lit "1.1.2000"))) as (x & Hx & _).
  - eexists. reflexivity.
  - discriminate Hx.
Qed.

End birthday.

(** * Further properties of the code *)

(** ** The phones of a record *)

Section record_phones.

Lemma find_loop_Some (ps : list Phone) (s t : pystr) :
  find_loop ps s = Some t -> t = s /\ s ∈ map value ps.
Proof.
  induction ps as [|p ps IH]; cbn; [done|].
  destruct (decide (value p = s)) as [<- | Hne].
  - intros [= <-]. split; [done | left].
  - intros [-> Hin]%IH. split; [done | by right].
Qed.

Lemma find_loop_None (ps : list Phone) (s : pystr) :
  find_loop ps s = None <-> s ∉ map value ps.
Proof.
  induction ps as [|p ps IH]; cbn.
  - split; [intros _; apply not_elem_of_nil | done].
  - rewrite not_elem_of_cons. destruct (decide (value p = s)) as [<- | Hne].
    + split; [done | by intros [? _]].
    + rewrite IH. split; [by intros ? | by intros [_ ?]].
Qed.

Lemma find_loop_elem (ps : list Phone) (s : pystr) :
  s ∈ map value ps -> find_loop ps s = Some s.
Proof.
  intros Hin. destruct (find_loop ps s) as [t|] eqn:E.
  - by apply find_loop_Some in E as [-> _].
  - by apply find_loop_None in E.
Qed.

(** X1: [find_phone] on a record: the text itself when some phone of the record
    has that value, [None] otherwise; nothing else is ever returned. *)
Theorem find_phone_spec (w : World) (self : loc) (r : RecordObj)
    (s : pystr) :
  heap w !! self = Some r ->
  (s ∈ map value (phones r) -> find_phone self s w = (Ok (Some s), w))
  /\ (s ∉ map value (phones r) -> find_phone self s w = (Ok None, w))
  /\ (forall t, fst (find_phone self s w) = Ok (Some t) ->
        t = s /\ s ∈ map value (phones r)).
Proof.
  intros Hr. unfold find_phone. munfold. rewrite Hr. cbn.
  split; [|split].
  - intros Hin. by rewrite find_loop_elem.
  - intros Hn. by rewrite (proj2 (find_loop_None _ _) Hn).
  - intros t [= E]. by apply find_loop_Some.
Qed.

Lemma find_phone_spec_witness :
  find_phone ann (lit "1234567890") book_feb29
  = (Ok (Some (lit "1234567890")), book_feb29)
  /\ find_phone ann (lit "0000000000") book_feb29 = (Ok None, book_feb29).
Proof.
  split.
  - apply (find_phone_spec book_feb29 ann
             (mkRecord (mkField (lit "Ann")) [mkField (lit "1234567890")]
                (Some (mkField (mkdatetime (mkdate 2000 2 29) 0 0 0 0)))));
      [vm_compute; reflexivity | left].
  - apply (find_phone_spec book_feb29 ann
             (mkRecord (mkField (lit "Ann")) [mkField (lit "1234567890")]
                (Some (mkField (mkdatetime (mkdate 2000 2 29) 0 0 0 0)))));
      [vm_compute; reflexivity |].
    cbn. intros Hin. apply list_elem_of_singleton in Hin. discriminate Hin.
Defined.

(** X2: [add_phone]: a text that [Phone] accepts becomes the last phone of the
    record, also when the record has it already (the count grows by one);
    it is then found by [find_phone], and every phone found before is still
    found; the name, the birthday and the dictionary stay.  A text that
    [Phone] refuses raises its error and changes nothing. *)
Theorem add_phone_spec (w : World) (self : loc) (r : RecordObj)
    (s : pystr) :
  heap w !! self = Some r ->
  ((exists p, Phone_init s = Ok p) ->
   let w1 := snd (add_phone self s w) in
   fst (add_phone self s w) = Ok tt
   /\ heap w1 !! self
      = Some (mkRecord (name r) (phones r ++ [mkField s]) (birthday r))
   /\ data w1 = data w
   /\ (forall l, l ≠ self -> heap w1 !! l = heap w !! l)
   /\ find_phone self s w1 = (Ok (Some s), w1)
   /\ (forall t, fst (find_phone self t w) = Ok (Some t) ->
         fst (find_phone self t w1) = Ok (Some t)))
  /\ ((forall p, Phone_init s ≠ Ok p) ->
      add_phone self s w = (Raise (ValueError msg_phone), w)).
Proof.
  intros Hr. unfold add_phone. munfold. rewrite Hr. split.
  - intros [p Hp]. rewrite Hp. rewrite (Phone_init_Ok _ _ Hp). cbn.
    split; [done|]. split; [by rewrite lookup_insert_eq|].
    split; [done|]. split; [intros l Hl; by rewrite lookup_insert_ne|].
    unfold find_phone. munfold. cbn. rewrite lookup_insert_eq. cbn.
    split.
    + rewrite find_loop_elem; [done|].
      rewrite map_app. apply elem_of_app. right. left.
    + rewrite Hr. cbn. intros t [= E]. apply find_loop_Some in E as [_ Hin].
      rewrite find_loop_elem; [done|].
      rewrite map_app. apply elem_of_app. by left.
  - intros Hbad. destruct (Phone_init s) as [p|e] eqn:Hp.
    + by destruct (Hbad p).
    + by rewrite (Phone_init_Raise _ _ Hp).
Qed.

Lemma add_phone_spec_witness :
  (let w1 := snd (add_phone ann (lit "1234567890") book_feb29) in
   heap w1 !! ann
   = Some (mkRecord (mkField (lit "Ann"))
             [mkField (lit "1234567890"); mkField (lit "1234567890")]
             (Some (mkField (mkdatetime (mkdate 2000 2 29) 0 0 0 0)))))
  /\ add_phone ann (lit "12-34") book_feb29
     = (Raise (ValueError msg_phone), book_feb29).
Proof.
  destruct (add_phone_spec book_feb29 ann
              (mkRecord (mkField (lit "Ann")) [mkField (lit "1234567890")]
                 (Some (mkField (mkdatetime (mkdate 2000 2 29) 0 0 0 0))))
              (lit "1234567890")) as [H1 _]; [vm_compute; reflexivity|].
  destruct (add_phone_spec book_feb29 ann
              (mkRecord (mkField (lit "Ann")) [mkField (lit "1234567890")]
                 (Some (mkField (mkdatetime (mkdate 2000 2 29) 0 0 0 0))))
              (lit "12-34")) as [_ H2]; [vm_compute; reflexivity|].
  split.
  - destruct H1 as (_ & H & _); [by eexists | exact H].
  - apply H2. intros p Hp. vm_compute in Hp. discriminate Hp.
Defined.

Lemma filter_value_ne (ps : list Phone) (s : pystr) :
  map value (filter (fun p => value p ≠ s) ps)
  = filter (fun t => t ≠ s) (map value ps).
Proof.
  induction ps as [|p ps IH]; [done|]. cbn [map].
  rewrite !filter_cons. cbn beta.
  destruct (decide (value p ≠ s)); cbn [map];
    [f_equal; exact IH | exact IH].
Qed.

Lemma filter_absent (ps : list Phone) (s : pystr) :
  s ∉ map value ps -> filter (fun p => value p ≠ s) ps = ps.
Proof.
  induction ps as [|p ps IH]; [done|]. cbn [map].
  intros [Hne Hn]%not_elem_of_cons. rewrite filter_cons.
  rewrite decide_True by done. f_equal. exact (IH Hn).
Qed.

Lemma remove_phone_absent (w : World) (self : loc) (r : RecordObj)
    (s : pystr) :
  heap w !! self = Some r -> s ∉ map value (phones r) ->
  snd (remove_phone self s w) = w.
Proof.
  intros Hr Hn. unfold remove_phone. munfold. rewrite Hr. cbn.
  rewrite filter_absent by done.
  destruct w as [hp dt]. cbn in *. f_equal.
  apply insert_id. by destruct r.
Qed.

(** X3: [remove_phone] never raises; it drops every phone of that value and
    keeps the others in their order; afterwards the value is not found, and
    any other value is found exactly as before; when no phone has the value
    the world is left as it is. *)
Theorem remove_phone_spec (w : World) (self : loc) (r : RecordObj)
    (s : pystr) :
  heap w !! self = Some r ->
  let w1 := snd (remove_phone self s w) in
  fst (remove_phone self s w) = Ok tt
  /\ (exists ps,
        heap w1 !! self = Some (mkRecord (name r) ps (birthday r))
        /\ map value ps = filter (fun t => t ≠ s) (map value (phones r)))
  /\ data w1 = data w
  /\ find_phone self s w1 = (Ok None, w1)
  /\ (forall t, t ≠ s ->
        fst (find_phone self t w1) = fst (find_phone self t w))
  /\ (s ∉ map value (phones r) -> w1 = w).
Proof.
  intros Hr. unfold remove_phone, find_phone. munfold. rewrite Hr. cbn.
  rewrite lookup_insert_eq. cbn.
  split; [done|]. split; [|split; [done|split; [|split]]].
  - eexists. split; [reflexivity|]. apply filter_value_ne.
  - rewrite (proj2 (find_loop_None _ s)); [done|].
    rewrite filter_value_ne. intros [Hne _]%list_elem_of_filter. done.
  - intros t Hts. f_equal.
    destruct (find_loop (phones r) t) as [u|] eqn:E.
    + apply find_loop_Some in E as [-> Hin]. apply find_loop_elem.
      rewrite filter_value_ne. by apply list_elem_of_filter.
    + apply find_loop_None. apply find_loop_None in E.
      rewrite filter_value_ne. intros [_ Hin]%list_elem_of_filter. done.
  - intros Hn. rewrite filter_absent by done.
    destruct w as [hp dt]. cbn in *. f_equal.
    apply insert_id. by destruct r.
Qed.

Lemma remove_phone_spec_witness :
  find_phone ann (lit "1234567890")
    (snd (remove_phone ann (lit "1234567890") book_feb29))
  = (Ok None, snd (remove_phone ann (lit "1234567890") book_feb29))
  /\ snd (remove_phone ann (lit "5555555555") book_feb29) = book_feb29.
Proof.
  split.
  - apply (remove_phone_spec book_feb29 ann
             (mkRecord (mkField (lit "Ann")) [mkField (lit "1234567890")]
                (Some (mkField (mkdatetime (mkdate 2000 2 29) 0 0 0 0))))).
    vm_compute. reflexivity.
  - apply (remove_phone_spec book_feb29 ann
             (mkRecord (mkField (lit "Ann")) [mkField (lit "1234567890")]
                (Some (mkField (mkdatetime (mkdate 2000 2 29) 0 0 0 0)))));
      [vm_compute; reflexivity|].
    cbn. intros Hin. apply list_elem_of_singleton in Hin. discriminate Hin.
Defined.

End record_phones.

Section record_invariants.

Lemma edit_loop_elem (ps ps' : list Phone) (old_number new_number : pystr)
    (p : Phone) :
  edit_loop ps old_number new_number = Ok ps' -> p ∈ ps' ->
  p ∈ ps \/ Phone_init (value p) = Ok p.
Proof.
  revert ps'. induction ps as [|p0 ps IH]; intros ps'; cbn; [done|].
  destruct (decide (value p0 = old_number)) as [Heq | Hne].
  - destruct (Phone_init new_number) as [q|] eqn:Hq; [|done].
    pose proof (Phone_init_Ok _ _ Hq) as Eq. subst q.
    cbn. intros [= <-] [-> | Hin]%elem_of_cons.
    + right. exact Hq.
    + left. by right.
  - destruct (edit_loop ps old_number new_number) as [r|] eqn:E; [|done].
    cbn. intros [= <-] [-> | Hin]%elem_of_cons; [left; left|].
    destruct (IH r eq_refl Hin); [left; by right | by right].
Qed.

Lemma exec_phones_valid (o : op) (w : World) :
  phones_valid w -> phones_valid (exec o w).
Proof.
  intros Hv. destruct o; cbn [exec].
  - unfold Record_init. munfold. intros l r p. cbn [snd heap].
    destruct (decide (l = fresh (dom (heap w)))) as [-> | Hne].
    + rewrite lookup_insert_eq. intros [= <-]. cbn. by intros ?%elem_of_nil.
    + rewrite lookup_insert_ne by done. apply Hv.
  - unfold add_phone. munfold.
    destruct (heap w !! self) as [r0|] eqn:Hr; [|done].
    destruct (Phone_init phone_number) as [q|] eqn:Hq; [|done].
    intros l r p. cbn [snd heap]. destruct (decide (l = self)) as [-> | Hne].
    + rewrite lookup_insert_eq. intros [= <-]. cbn.
      pose proof (Phone_init_Ok _ _ Hq) as Eq. subst q.
      intros [Hin | ->%list_elem_of_singleton]%elem_of_app; [by eapply Hv|].
      exact Hq.
    + rewrite lookup_insert_ne by done. apply Hv.
  - unfold remove_phone. munfold.
    destruct (heap w !! self) as [r0|] eqn:Hr; [|done].
    intros l r p. cbn [snd heap]. destruct (decide (l = self)) as [-> | Hne].
    + rewrite lookup_insert_eq. intros [= <-]. cbn.
      intros [_ Hin]%list_elem_of_filter. by eapply Hv.
    + rewrite lookup_insert_ne by done. apply Hv.
  - unfold edit_phone. munfold.
    destruct (heap w !! self) as [r0|] eqn:Hr; [|done].
    destruct (edit_loop _ _ _) as [ps|] eqn:E; [|done].
    intros l r p. cbn [snd heap]. destruct (decide (l = self)) as [-> | Hne].
    + rewrite lookup_insert_eq. intros [= <-]. cbn. intros Hin.
      destruct (edit_loop_elem _ _ _ _ _ E Hin); [by eapply Hv | done].
    + rewrite lookup_insert_ne by done. apply Hv.
  - unfold add_birthday. munfold.
    destruct (heap w !! self) as [r0|] eqn:Hr; [|done].
    destruct (Birthday_init birthday_str) as [b|]; [|done].
    intros l r p. cbn [snd heap]. destruct (decide (l = self)) as [-> | Hne].
    + rewrite lookup_insert_eq. intros [= <-]. cbn. by eapply Hv.
    + rewrite lookup_insert_ne by done. apply Hv.
  - unfold add_record. munfold.
    destruct (heap w !! record) as [r0|]; [|done]. exact Hv.
  - unfold delete. munfold.
    destruct (dict_contains (data w) nm); exact Hv.
  - by rewrite find_state.
  - by rewrite find_phone_state.
  - by rewrite get_upcoming_birthdays_state.
Qed.

Lemma Phone_init_digits (v : pystr) (p : Phone) :
  Phone_init v = Ok p ->
  length v = 10%nat /\ forallb isdigit_char v = true.
Proof.
  unfold Phone_init. rewrite isdigit_forallb.
  destruct (forallb isdigit_char v); cbn; [|discriminate].
  destruct (Nat.eqb_spec (length v) 10); cbn; [done | discriminate].
Qed.

(** X4: In every world that the calls can reach from the empty address book,
    every phone of every record is a text that [Phone] accepts: ten digits.
    Each call keeps this. *)
Theorem stored_phones_valid :
  (forall w, reachable w -> phones_valid w)
  /\ (forall o w, phones_valid w -> phones_valid (exec o w))
  /\ (forall w l r p, phones_valid w -> heap w !! l = Some r ->
        p ∈ phones r ->
        length (value p) = 10%nat
        /\ forallb isdigit_char (value p) = true).
Proof.
  split; [|split].
  - induction 1 as [|o w Hw IH]; [|by apply exec_phones_valid].
    intros l r p Hl. cbn in Hl. by rewrite lookup_empty in Hl.
  - apply exec_phones_valid.
  - intros w l r p Hv Hl Hp. specialize (Hv l r p Hl Hp).
    by apply Phone_init_digits in Hv.
Qed.

Lemma stored_phones_valid_witness :
  phones_valid book_feb29
  /\ phones_valid (exec (OpEditPhone ann (lit "1234567890") (lit "x"))
                     book_feb29)
  /\ length (lit "1234567890") = 10%nat.
Proof.
  destruct stored_phones_valid as (H1 & H2 & H3).
  pose proof (H1 book_feb29 (run_reachable _)) as Hv.
  split; [exact Hv|]. split; [apply H2, Hv|].
  apply (H3 book_feb29 ann
           (mkRecord (mkField (lit "Ann")) [mkField (lit "1234567890")]
              (Some (mkField (mkdatetime (mkdate 2000 2 29) 0 0 0 0))))
           (mkField (lit "1234567890")) Hv); [vm_compute; reflexivity | left].
Defined.

(** X5: Removing a phone just after adding it gives what removing it alone
    gives; so when the record did not have the phone, adding and removing it
    restores the world. *)
Theorem add_then_remove_phone (w : World) (self : loc) (r : RecordObj)
    (s : pystr) :
  heap w !! self = Some r -> (exists p, Phone_init s = Ok p) ->
  snd (remove_phone self s (snd (add_phone self s w)))
  = snd (remove_phone self s w)
  /\ (s ∉ map value (phones r) ->
      snd (remove_phone self s (snd (add_phone self s w))) = w).
Proof.
  intros Hr [p Hp].
  assert (E : snd (remove_phone self s (snd (add_phone self s w)))
              = snd (remove_phone self s w)).
  { unfold remove_phone, add_phone. munfold. rewrite Hr, Hp. cbn.
    rewrite lookup_insert_eq. cbn. rewrite insert_insert_eq.
    rewrite filter_app, filter_cons, filter_nil.
    rewrite (Phone_init_Ok _ _ Hp). cbn.
    rewrite decide_False by (intros H; by apply H).
    by rewrite app_nil_r. }
  split; [exact E|]. intros Hn. rewrite E.
  by apply (remove_phone_absent w self r s Hr).
Qed.

Lemma add_then_remove_phone_witness :
  snd (remove_phone ann (lit "5555555555")
         (snd (add_phone ann (lit "5555555555") book_feb29)))
  = book_feb29.
Proof.
  apply (add_then_remove_phone book_feb29 ann
           (mkRecord (mkField (lit "Ann")) [mkField (lit "1234567890")]
              (Some (mkField (mkdatetime (mkdate 2000 2 29) 0 0 0 0)))));
    [vm_compute; reflexivity | by eexists |].
  cbn. intros Hin. apply list_elem_of_singleton in Hin. discriminate Hin.
Defined.

Lemma edit_phone_then_found (w : World) (self : loc) (r : RecordObj)
    (old_number new_number : pystr) :
  heap w !! self = Some r -> old_number ∈ map value (phones r) ->
  (exists q, Phone_init new_number = Ok q) ->
  let w1 := snd (edit_phone self old_number new_number w) in
  find_phone self new_number w1 = (Ok (Some new_number), w1).
Proof.
  intros Hr Hin [q Hq].
  destruct (edit_loop_found _ _ _ q Hin Hq)
    as (i & ps & El & Hi & Hfirst & Hmap & Hlen).
  unfold edit_phone, find_phone. munfold. rewrite Hr, El. cbn.
  rewrite lookup_insert_eq. cbn.
  assert (Hlt : (i < length (map value (phones r)))%nat)
    by (by eapply lookup_lt_Some).
  rewrite find_loop_elem; [done|]. rewrite Hmap.
  apply list_elem_of_lookup. exists i. by apply list_lookup_insert_eq.
Qed.

(** X6: After [edit_phone] has replaced a phone, the new value is found, every
    value other than the old one that was found before is still found, and
    the dictionary is as it was. *)
Theorem edit_then_find_phone (w : World) (self : loc) (r : RecordObj)
    (old_number new_number : pystr) :
  heap w !! self = Some r -> old_number ∈ map value (phones r) ->
  (exists q, Phone_init new_number = Ok q) ->
  let w1 := snd (edit_phone self old_number new_number w) in
  find_phone self new_number w1 = (Ok (Some new_number), w1)
  /\ (forall t, t ≠ old_number ->
        fst (find_phone self t w) = Ok (Some t) ->
        fst (find_phone self t w1) = Ok (Some t))
  /\ data w1 = data w.
Proof.
  intros Hr Hin [q Hq].
  destruct (edit_loop_found _ _ _ q Hin Hq)
    as (i & ps & El & Hi & Hfirst & Hmap & Hlen).
  unfold edit_phone, find_phone. munfold. rewrite Hr, El. cbn.
  rewrite lookup_insert_eq. cbn.
  assert (Hlt : (i < length (map value (phones r)))%nat)
    by (by eapply lookup_lt_Some).
  split; [|split; [|done]].
  - rewrite find_loop_elem; [done|]. rewrite Hmap.
    apply list_elem_of_lookup. exists i. by apply list_lookup_insert_eq.
  - intros t Hne [= E]. apply find_loop_Some in E as [_ Ht].
    rewrite find_loop_elem; [done|]. rewrite Hmap.
    apply list_elem_of_lookup in Ht as [j Hj].
    apply list_elem_of_lookup. exists j.
    rewrite list_lookup_insert_ne; [done|]. congruence.
Qed.

Lemma edit_then_find_phone_witness :
  let w1 := snd (edit_phone ann (lit "1234567890") (lit "0000000000")
                   book_feb29) in
  find_phone ann (lit "0000000000") w1 = (Ok (Some (lit "0000000000")), w1).
Proof.
  apply (edit_then_find_phone book_feb29 ann
           (mkRecord (mkField (lit "Ann")) [mkField (lit "1234567890")]
              (Some (mkField (mkdatetime (mkdate 2000 2 29) 0 0 0 0)))));
    [vm_compute; reflexivity | left | by eexists].
Defined.

(** X7: [add_birthday] on a record: a text that [Birthday] accepts becomes the
    birthday of the record, in place of any earlier one; the phones, the
    name, the other records and the dictionary stay; setting a second
    birthday gives the world that setting it alone gives.  A text that
    [Birthday] refuses raises its error and changes nothing. *)
Theorem add_birthday_overwrites (w : World) (self : loc) (r : RecordObj)
    (s : pystr) :
  heap w !! self = Some r ->
  (forall b, Birthday_init s = Ok b ->
     add_birthday self s w
     = (Ok tt,
        mkWorld (<[self := mkRecord (name r) (phones r) (Some b)]> (heap w))
          (data w))
     /\ forall s0,
          (exists b0, Birthday_init s0 = Ok b0) ->
          heap (snd (add_birthday self s (snd (add_birthday self s0 w))))
          = heap (snd (add_birthday self s w)))
  /\ ((forall b, Birthday_init s ≠ Ok b) ->
      add_birthday self s w = (Raise (ValueError msg_date), w)).
Proof.
  intros Hr. unfold add_birthday. munfold. rewrite Hr. split.
  - intros b Hb. split; [by rewrite Hb|].
    intros s0 [b0 Hb0]. rewrite Hb0, Hb. cbn [snd heap].
    rewrite lookup_insert_eq. cbn.
    by rewrite insert_insert_eq.
  - intros Hbad. destruct (Birthday_init s) as [b|e] eqn:Hb.
    + by destruct (Hbad b).
    + by rewrite (Birthday_init_Raise _ _ Hb).
Qed.

Lemma add_birthday_overwrites_witness :
  heap (snd (add_birthday ann (lit "01.03.1999") book_feb29)) !! ann
  = Some (mkRecord (mkField (lit "Ann")) [mkField (lit "1234567890")]
            (Some (mkField (mkdatetime (mkdate 1999 3 1) 0 0 0 0))))
  /\ add_birthday ann (lit "1999-03-01") book_feb29
     = (Raise (ValueError msg_date), book_feb29).
Proof.
  destruct (add_birthday_overwrites book_feb29 ann
              (mkRecord (mkField (lit "Ann")) [mkField (lit "1234567890")]
                 (Some (mkField (mkdatetime (mkdate 2000 2 29) 0 0 0 0))))
              (lit "01.03.1999")) as [H1 _]; [vm_compute; reflexivity|].
  destruct (add_birthday_overwrites book_feb29 ann
              (mkRecord (mkField (lit "Ann")) [mkField (lit "1234567890")]
                 (Some (mkField (mkdatetime (mkdate 2000 2 29) 0 0 0 0))))
              (lit "1999-03-01")) as [_ H2]; [vm_compute; reflexivity|].
  split.
  - destruct (H1 (mkField (mkdatetime (mkdate 1999 3 1) 0 0 0 0)))
      as [-> _]; [reflexivity|].
    cbn. by rewrite lookup_insert_eq.
  - apply H2. intros b Hb. vm_compute in Hb. discriminate Hb.
Defined.

End record_invariants.

(** ** The next occurrence of a birthday *)

Section next_occurrence.
Local Open Scope Z_scope.

Lemma project_onto_year (y : Z) (bday : date) :
  year (project_onto y bday) = y.
Proof. unfold project_onto. by destruct (_ && _). Qed.

Lemma year_lt_ord (a b : date) :
  valid_date a -> valid_date b -> year a < year b ->
  toordinal a < toordinal b.
Proof.
  intros Ha Hb Hy. apply Z.ltb_lt. rewrite <- date_ltb_ord by done.
  unfold date_ltb. by rewrite (proj2 (Z.ltb_lt _ _) Hy).
Qed.

(** The projection onto the next year is 365 or 366 days later. *)
Lemma project_next_year (y : Z) (bday : date) :
  valid_date bday ->
  365 <= toordinal (project_onto (y + 1) bday)
         - toordinal (project_onto y bday) <= 366.
Proof.
  intros (_ & Hm & Hd). rewrite days_in_month_leap in Hd.
  pose proof (days_before_year_succ y) as Hs.
  set (A := _days_before_year y) in *.
  assert (HB : exists B, B = _days_before_year (y + 1)) by by eexists.
  destruct HB as [B HB]. rewrite <- HB in Hs.
  assert (Hc : month bday = 1 \/ month bday = 2 \/ month bday = 3
               \/ month bday = 4 \/ month bday = 5 \/ month bday = 6
               \/ month bday = 7 \/ month bday = 8 \/ month bday = 9
               \/ month bday = 10 \/ month bday = 11 \/ month bday = 12)
    by lia.
  unfold project_onto.
  destruct (_is_leap y) eqn:E1, (_is_leap (y + 1)) eqn:E2;
    repeat (destruct Hc as [Hc | Hc]); rewrite !Hc;
    destruct (day bday =? 29) eqn:E29;
    cbn [Z.eqb Pos.eqb andb negb];
    unfold toordinal, _ymd2ord, _days_before_month;
    cbn [year month day]; rewrite ?E1, ?E2, <- ?HB; fold A;
    cbn [_DAYS_BEFORE_MONTH Z.ltb Z.compare Pos.compare Pos.compare_cont
         andb];
    lia.
Qed.

Lemma projected_cases (today bday p : date) :
  valid_date today -> valid_date bday -> projected today bday = Ok p ->
  (p = project_onto (year today) bday
   /\ toordinal today <= toordinal p)
  \/ (p = project_onto (year today + 1) bday
      /\ toordinal (project_onto (year today) bday) < toordinal today
      /\ year today < MAXYEAR).
Proof.
  intros Ht Hb. rewrite projected_eq by done.
  assert (Hv : valid_date (project_onto (year today) bday))
    by (apply project_onto_valid; [done | apply Ht]).
  rewrite date_ltb_ord by done.
  destruct (Z.ltb_spec (toordinal (project_onto (year today) bday))
              (toordinal today)) as [Hlt | Hge].
  - destruct (Z.ltb_spec (year today) MAXYEAR); [|discriminate].
    intros [= <-]. by right.
  - intros [= <-]. by left.
Qed.

Lemma projected_not_before_today (today bday p : date) :
  valid_date today -> valid_date bday -> projected today bday = Ok p ->
  0 <= sub_days p today.
Proof.
  intros Ht Hb Hp. unfold sub_days.
  destruct (projected_cases _ _ _ Ht Hb Hp) as [[-> Hle] | (-> & _ & Hy)];
    [lia|].
  assert (toordinal today < toordinal (project_onto (year today + 1) bday));
    [|lia].
  apply year_lt_ord; [done | | rewrite project_onto_year; lia].
  apply project_onto_valid; [done|].
  destruct Ht as [? _]. unfold MINYEAR, MAXYEAR in *. lia.
Qed.

Lemma left_out_iff_beyond_window (today bday p : date) :
  valid_date today -> valid_date bday -> projected today bday = Ok p ->
  congratulation today bday = Ok None <-> 7 < sub_days p today.
Proof.
  intros Ht Hb Hp.
  pose proof (projected_not_before_today _ _ _ Ht Hb Hp) as H0.
  destruct (congratulation_eq _ _ _ Ht Hb Hp) as (d & _ & _ & _ & _ & ->).
  replace (0 <=? sub_days p today) with true
    by (symmetry; by apply Z.leb_le).
  cbn [andb]. destruct (Z.leb_spec (sub_days p today) 7);
    split; try done; lia.
Qed.

(** X8: The projected date of lines 107-118 is never before today, so
    [days_ahead] is never negative and the test [0 <= days_ahead] of line
    122 always holds: a birthday is left out exactly when it is more than 7
    days ahead.  The projected date is the birthday in the year of today
    or, when that is past, in the next year. *)
Theorem days_ahead_never_negative (today bday p : date) :
  valid_date today -> valid_date bday -> projected today bday = Ok p ->
  0 <= sub_days p today
  /\ (p = project_onto (year today) bday
      \/ p = project_onto (year today + 1) bday
         /\ toordinal (project_onto (year today) bday) < toordinal today)
  /\ (congratulation today bday = Ok None <-> 7 < sub_days p today).
Proof.
  intros Ht Hb Hp.
  split; [by apply (projected_not_before_today today bday)|]. split.
  - destruct (projected_cases _ _ _ Ht Hb Hp) as [[-> _] | (-> & Hlt & _)];
      [by left | by right].
  - by apply left_out_iff_beyond_window.
Qed.

Lemma days_ahead_never_negative_witness :
  0 <= sub_days (mkdate 2025 1 2) (mkdate 2024 12 30)
  /\ ~ congratulation (mkdate 2024 12 30) (mkdate 1990 1 2) = Ok None.
Proof.
  destruct (days_ahead_never_negative (mkdate 2024 12 30) (mkdate 1990 1 2)
              (mkdate 2025 1 2)) as (H0 & _ & H7);
    [valid | valid | reflexivity |].
  split; [exact H0|]. intros Hc. apply H7 in Hc. vm_compute in Hc.
  discriminate Hc.
Defined.



(** X10: A birthday whose date in the year of today is past, by 1 to 357 days,
    is not in the answer: its next occurrence is more than 7 days ahead.
    (So on a Monday the birthdays of the weekend just gone are not
    reported.) *)
Theorem passed_birthday_is_left_out (today bday : date) :
  valid_date today -> valid_date bday -> year today < MAXYEAR ->
  1 <= toordinal today - toordinal (project_onto (year today) bday) <= 357 ->
  congratulation today bday = Ok None.
Proof.
  intros Ht Hb Hy Hpast.
  destruct (projected_total _ _ Ht Hb Hy) as [p Hp].
  rewrite (left_out_iff_beyond_window _ _ _ Ht Hb Hp).
  destruct (projected_cases _ _ _ Ht Hb Hp) as [[-> Hle] | (-> & _ & _)];
    [lia|].
  pose proof (project_next_year (year today) bday Hb).
  unfold sub_days. lia.
Qed.

Lemma passed_birthday_is_left_out_witness :
  congratulation (mkdate 2024 6 17) (mkdate 1990 6 16) = Ok None.
Proof.
  apply passed_birthday_is_left_out; [valid | valid | reflexivity |].
  vm_compute. split; intros H; discriminate H.
Defined.

(** X11: The weekend rule of lines 123-126: a Saturday or a Sunday gives the
    Monday after it, any other day is kept; the call never raises. *)
Theorem weekend_shift_to_monday (p : date) :
  valid_date p ->
  exists d, weekend_shift p = Ok d /\ valid_date d
    /\ (weekday p = 5 -> weekday d = 0 /\ sub_days d p = 2)
    /\ (weekday p = 6 -> weekday d = 0 /\ sub_days d p = 1)
    /\ (weekday p <= 4 -> d = p).
Proof.
  intros Hp. destruct (weekend_shift_Ok p Hp) as (d & Hs & Hv & Ho & Hw).
  exists d. split; [done|]. split; [done|].
  unfold sub_days, shift_of, weekend_shift, weekday in *.
  destruct (Z.eqb_spec ((toordinal p + 6) mod 7) 5) as [E5 | N5].
  - split; [|split]; intros; [split; zdm | lia | lia].
  - destruct (Z.eqb_spec ((toordinal p + 6) mod 7) 6) as [E6 | N6].
    + split; [|split]; intros; [lia | split; zdm | lia].
    + injection Hs as <-. split; [|split]; intros; [lia | lia | done].
Qed.

Lemma weekend_shift_to_monday_witness :
  weekend_shift (mkdate 2024 6 15) = Ok (mkdate 2024 6 17)
  /\ weekend_shift (mkdate 2024 6 16) = Ok (mkdate 2024 6 17)
  /\ exists d, weekend_shift (mkdate 2024 6 14) = Ok d /\ d = mkdate 2024 6 14.
Proof.
  split; [reflexivity|]. split; [reflexivity|].
  destruct (weekend_shift_to_monday (mkdate 2024 6 14)) as (d & Hs & _ & _ & _ & H);
    [valid|].
  exists d. split; [exact Hs|]. apply H. vm_compute. intros E. discriminate E.
Defined.

End next_occurrence.

(** ** The answer of the query, as a list *)

Section answer.

Lemma NoDup_keys_functional {K V : Type} (d : list (K * V)) (k : K)
    (v v' : V) :
  NoDup (map fst d) -> (k, v) ∈ d -> (k, v') ∈ d -> v = v'.
Proof.
  induction d as [|[k0 v0] d IH]; cbn; [by intros _ ?%elem_of_nil|].
  intros [Hk Hd]%NoDup_cons H1 H2.
  apply elem_of_cons in H1 as [E1 | H1], H2 as [E2 | H2].
  - congruence.
  - injection E1 as <- <-. destruct Hk.
    apply list_elem_of_fmap. by exists (k, v').
  - injection E2 as <- <-. destruct Hk.
    apply list_elem_of_fmap. by exists (k, v).
  - by apply IH.
Qed.

Lemma omap_length_le {A B : Type} (f : A -> option B) (l : list A) :
  (length (omap f l) <= length l)%nat.
Proof.
  induction l as [|a l IH]; cbn; [done|]. destruct (f a); cbn; lia.
Qed.

(** X12: In the answer of [get_upcoming_birthdays] no contact comes twice: the
    names are distinct and there are at most as many entries as records; a
    contact that has no birthday is not in it. *)
Theorem upcoming_has_no_duplicates (today : date) (w w' : World)
    (out : list entry) :
  wf w -> get_upcoming_birthdays today w = (Ok out, w') ->
  NoDup (map entry_name out)
  /\ (length out <= length (data w))%nat
  /\ (forall k l r, (k, l) ∈ data w -> heap w !! l = Some r ->
        birthday r = None -> k ∉ map entry_name out).
Proof.
  intros Hw Hq. apply get_upcoming_birthdays_Ok in Hq as ->.
  pose proof Hw as (Hnd & Hk & _).
  split; [|split].
  - eapply sublist_NoDup; [exact Hnd|]. by apply omap_names_sublist.
  - etrans; [apply omap_length_le|]. unfold dict_values.
    by rewrite length_map.
  - intros k l r Hin Hr Hb Hout.
    apply list_elem_of_fmap in Hout as (e & -> & He).
    apply list_elem_of_omap in He as (l' & Hl' & He).
    destruct (entry_of_Some _ _ _ _ He) as (r' & b & d & Hr' & Hb' & _ & ->).
    destruct (wf_values w l' Hw Hl') as (k' & r'' & Hin' & Hr'' & Hk' & _).
    rewrite Hr' in Hr''. injection Hr'' as <-. cbn in Hin. subst k'.
    pose proof (NoDup_keys_functional _ _ _ _ Hnd Hin Hin') as ->.
    congruence.
Qed.

Lemma upcoming_has_no_duplicates_witness :
  NoDup [lit "Ann"; lit "Bob"].
Proof.
  destruct (upcoming_has_no_duplicates (mkdate 2024 6 10) book_june
              book_june
              [mkentry (lit "Ann") (lit "2024.06.17");
               mkentry (lit "Bob") (lit "2024.06.12")] (run_wf _))
    as (H & _); [vm_compute; reflexivity | exact H].
Defined.

End answer.

(** ** The texts of dates *)

Section date_texts.
Local Open Scope Z_scope.



Lemma digit_char_not_dot (n : Z) : digit_char n ≠ dot.
Proof.
  unfold digit_char, dot. assert (0 <= n mod 10 < 10) by zdm. lia.
Qed.



(** A text whose fields between the dots are not those of the format is
    refused: the fields are told apart by the dots. *)
Ltac fields_differ gd gm gY Hs Td Tm TY :=
  destruct gd as [|? [|? [|]]]; try discriminate Td;
  destruct gm as [|? [|? [|]]]; try discriminate Tm;
  destruct gY as [|? [|? [|? [|? [|]]]]]; try discriminate TY;
  cbn [app] in Hs; simplify_eq;
  match goal with
  | H : digit_char _ = dot |- _ => by apply digit_char_not_dot in H
  | H : dot = digit_char _ |- _ =>
      symmetry in H; by apply digit_char_not_dot in H
  end.





(** X14: The text that [get_upcoming_birthdays] gives for a date (the
    year, the month and the day, in this order) is never accepted by
    [Birthday], whatever the number of digits of the year: the answer of
    the query cannot be fed back as a birthday. *)
Theorem upcoming_text_is_no_birthday (d : date) :
  Birthday_init (strftime_Ymd d) = Raise (ValueError msg_date).
Proof.
  destruct (Birthday_init (strftime_Ymd d)) as [b|e] eqn:E;
    [|by rewrite (Birthday_init_Raise _ _ E)].
  exfalso. apply Birthday_init_iff in E
    as (gd & gm & gY & y & m & dd & Hs & Td & Tm & TY & _).
  unfold strftime_Ymd, strftime_Y, pad2 in Hs.
  destruct (Z.ltb_spec (year d) 10);
    [|destruct (Z.ltb_spec (year d) 100);
      [|destruct (Z.ltb_spec (year d) 1000)]];
    fields_differ gd gm gY Hs Td Tm TY.
Qed.

End date_texts.

(** ** The command layer *)

Ltac hunfold :=
  unfold cli.unpack1, cli.unpack2, cli.unpack3 in *;
  unfold cli.hbind, cli.hret, cli.hraise, cli.core, cli.input_error in *.

Section commands.

Lemma run_command_eq (today : date) (c : cli.command) (args : list pystr) :
  cli.run_command today c args
  = cli.input_error (cli.command_body today c args).
Proof. by destruct c. Qed.

Lemma execs_wf (ops : list op) (w : World) : wf w -> wf (execs ops w).
Proof.
  unfold execs. revert w.
  induction ops as [|o ops IH]; intros w Hw; cbn; [done|].
  apply IH. by apply exec_wf.
Qed.

Lemma execs_reachable (ops : list op) (w : World) :
  reachable w -> reachable (execs ops w).
Proof.
  unfold execs. revert w.
  induction ops as [|o ops IH]; intros w Hw; cbn; [done|].
  apply IH. by constructor.
Qed.

Lemma str_all_returns (w : World) (values : list loc) :
  (forall l, l ∈ values -> is_Some (heap w !! l)) ->
  exists lines, cli.str_all values w = (inr lines, w).
Proof.
  induction values as [|l values IH]; intros H; cbn.
  - by eexists.
  - hunfold. munfold. destruct (H l) as [r ->]; [left|].
    destruct IH as [lines ->]; [intros l' Hl'; apply H; by right|].
    by eexists.
Qed.

Lemma congratulation_Raise (today bday : date) (e : exn) :
  valid_date today -> valid_date bday ->
  congratulation today bday = Raise e -> exists msg, e = ValueError msg.
Proof.
  intros Ht Hb. unfold congratulation.
  destruct (projected today bday) as [p|e'] eqn:Hp.
  - destruct (congratulation_eq _ _ _ Ht Hb Hp) as (d & _ & _ & _ & _ & E).
    unfold congratulation in E. rewrite Hp in E. cbn [rbind] in *.
    rewrite E. by destruct (_ && _).
  - cbn. intros [= <-]. rewrite projected_eq in Hp by done.
    destruct (date_ltb _ _); [|done].
    destruct (_ <? _)%Z; [done|]. injection Hp as <-. by eexists.
Qed.

Lemma upcoming_loop_Raise (today : date) (w : World) (vals : list loc) :
  wf w -> valid_date today ->
  (forall l, l ∈ vals -> l ∈ dict_values (data w)) ->
  forall acc e w',
    upcoming_loop today vals acc w = (Raise e, w') ->
    exists msg, e = ValueError msg.
Proof.
  intros Hw Ht. induction vals as [|l vals IH]; intros Hsub acc e w'; cbn.
  - munfold. done.
  - munfold.
    destruct (wf_values w l Hw (Hsub l ltac:(left)))
      as (k & r & _ & -> & _ & Hb).
    assert (Hsub' : forall l', l' ∈ vals -> l' ∈ dict_values (data w))
      by (intros l' Hl'; apply Hsub; by right).
    destruct (birthday r) as [b|] eqn:Eb; [|by apply IH].
    destruct (congratulation today (dt_date (value b))) as [[d|]|e0] eqn:Ec;
      [by apply IH | by apply IH |].
    intros [= <- _]. eapply congratulation_Raise; [done | | done]. eauto.
Qed.

Lemma get_upcoming_birthdays_Raise (today : date) (w w' : World) (e : exn) :
  wf w -> valid_date today ->
  get_upcoming_birthdays today w = (Raise e, w') ->
  exists msg, e = ValueError msg.
Proof.
  intros Hw Ht. unfold get_upcoming_birthdays. munfold.
  by apply upcoming_loop_Raise.
Qed.

(** X15: A handler that gets fewer arguments than it unpacks replies "Give me
    correct data, please." and changes nothing: unpacking raises
    [ValueError], not [IndexError]. *)
Theorem too_few_arguments (w : World) (args : list pystr) :
  ((length args < 2)%nat ->
   cli.add_contact args w = (inr (lit "Give me correct data, please."), w)
   /\ cli.add_birthday args w
      = (inr (lit "Give me correct data, please."), w))
  /\ ((length args < 3)%nat ->
      cli.change_contact args w
      = (inr (lit "Give me correct data, please."), w))
  /\ (args = [] ->
      cli.show_phone args w = (inr (lit "Give me correct data, please."), w)
      /\ cli.show_birthday args w
         = (inr (lit "Give me correct data, please."), w)).
Proof.
  split; [|split].
  - intros Hl. destruct args as [|a [|b args]]; cbn in Hl; try lia; done.
  - intros Hl. destruct args as [|a [|b [|c args]]]; cbn in Hl; try lia; done.
  - by intros ->.
Qed.

Lemma too_few_arguments_witness :
  cli.add_contact [lit "Bob"] empty_world
  = (inr (lit "Give me correct data, please."), empty_world)
  /\ cli.change_contact [lit "Bob"; lit "1234567890"] book_feb29
     = (inr (lit "Give me correct data, please."), book_feb29)
  /\ cli.show_phone [] book_feb29
     = (inr (lit "Give me correct data, please."), book_feb29).
Proof.
  split; [|split].
  - apply (too_few_arguments empty_world [lit "Bob"]). cbn. lia.
  - apply (too_few_arguments book_feb29 [lit "Bob"; lit "1234567890"]).
    cbn. lia.
  - apply (too_few_arguments book_feb29 []). reflexivity.
Defined.

Lemma str_all_no_IndexError (vals : list loc) (w : World) :
  fst (cli.str_all vals w) ≠ inl cli.IndexError.
Proof.
  induction vals as [|l vals IH]; cbn [cli.str_all]; hunfold; munfold.
  - cbn [fst]. congruence.
  - destruct (heap w !! l); [|cbn [fst]; congruence].
    destruct (cli.str_all vals w) as [[e|lines] w']; cbn [fst] in *;
      congruence.
Qed.

(** X16: No handler ever raises [IndexError] or [KeyError] past its decorator,
    and no undecorated handler raises [IndexError] at all: the reply "Not
    enough arguments." of [input_error] is never produced by an
    exception. *)
Theorem IndexError_is_never_raised (today : date) (c : cli.command)
    (args : list pystr) (w : World) :
  fst (cli.command_body today c args w) ≠ inl cli.IndexError
  /\ fst (cli.run_command today c args w) ≠ inl cli.IndexError
  /\ fst (cli.run_command today c args w) ≠ inl cli.KeyError
  /\ (forall msg,
        fst (cli.run_command today c args w) ≠ inl (cli.Exn (ValueError msg))).
Proof.
  assert (Hb : fst (cli.command_body today c args w) ≠ inl cli.IndexError).
  { destruct c; cbn [cli.command_body].
    - unfold cli.add_contact_body. hunfold. unfold find. munfold.
      repeat case_match; cbn [fst]; simplify_eq; congruence.
    - unfold cli.change_contact_body. hunfold. unfold find. munfold.
      repeat case_match; cbn [fst]; simplify_eq; congruence.
    - unfold cli.show_phone_body. hunfold. unfold find. munfold.
      repeat case_match; cbn [fst]; simplify_eq; congruence.
    - unfold cli.show_all_body. hunfold. munfold.
      pose proof (str_all_no_IndexError (dict_values (data w)) w) as Hs.
      destruct (data w); [cbn [fst]; congruence|].
      destruct (cli.str_all _ w) as [[e|lines] w']; cbn [fst] in *;
        congruence.
    - unfold cli.add_birthday_body. hunfold. unfold find. munfold.
      repeat case_match; cbn [fst]; simplify_eq; congruence.
    - unfold cli.show_birthday_body. hunfold. unfold find. munfold.
      repeat case_match; cbn [fst]; simplify_eq; congruence.
    - unfold cli.birthdays_body. hunfold.
      repeat case_match; cbn [fst]; simplify_eq; congruence. }
  split; [exact Hb|]. rewrite run_command_eq. unfold cli.input_error.
  destruct (cli.command_body today c args w) as [[[[]| |]|] ?];
    cbn [fst] in *; repeat split; congruence.
Qed.

(** X17: [add_contact] with a name and a phone.  For a name that is not in the
    book the contact is created and entered first and the phone is checked
    afterwards: with a valid phone the reply is "Contact added." and the
    contact has that one phone; with an invalid phone the reply is "Give me
    correct data, please." and the contact is in the book all the same,
    with no phone.  For a name that is in the book a valid phone is added
    after its phones ("Contact updated."), and an invalid phone changes
    nothing.  Further arguments are ignored. *)
Theorem add_contact_spec (w : World) (nm phone : pystr)
    (rest : list pystr) :
  phone ≠ [] ->
  (dict_get (data w) nm = None ->
   let l := fresh (dom (heap w)) in
   heap w !! l = None
   /\ ((exists p, Phone_init phone = Ok p) ->
       cli.add_contact (nm :: phone :: rest) w
       = (inr (lit "Contact added."),
          mkWorld
            (<[l := mkRecord (mkField nm) [mkField phone] None]> (heap w))
            (dict_set (data w) nm l)))
   /\ ((forall p, Phone_init phone ≠ Ok p) ->
       cli.add_contact (nm :: phone :: rest) w
       = (inr (lit "Give me correct data, please."),
          mkWorld (<[l := mkRecord (mkField nm) [] None]> (heap w))
            (dict_set (data w) nm l))))
  /\ (forall l r, dict_get (data w) nm = Some l -> heap w !! l = Some r ->
      ((exists p, Phone_init phone = Ok p) ->
       cli.add_contact (nm :: phone :: rest) w
       = (inr (lit "Contact updated."),
          mkWorld
            (<[l := mkRecord (name r) (phones r ++ [mkField phone])
                      (birthday r)]> (heap w))
            (data w)))
      /\ ((forall p, Phone_init phone ≠ Ok p) ->
          cli.add_contact (nm :: phone :: rest) w
          = (inr (lit "Give me correct data, please."), w))).
Proof.
  intros Hne. split.
  - intros Hg. split; [apply not_elem_of_dom, is_fresh|].
    unfold cli.add_contact, cli.add_contact_body. hunfold.
    unfold find, Record_init, add_record, add_phone. munfold.
    rewrite Hg. destruct phone as [|c ph] eqn:Ephone; [done|].
    repeat first
      [ rewrite lookup_insert_eq
      | progress cbn [heap data name value phones birthday app] ].
    rewrite <- Ephone. clear Ephone Hne.
    split.
    + intros [p Hp]. rewrite Hp, (Phone_init_Ok _ _ Hp).
      repeat first
        [ rewrite lookup_insert_eq
        | progress cbn [heap data name value phones birthday app] ].
      by rewrite insert_insert_eq.
    + intros Hbad. destruct (Phone_init phone) as [p|e] eqn:Hp;
        [by destruct (Hbad p)|].
      by rewrite (Phone_init_Raise _ _ Hp).
  - intros l r Hg Hr.
    unfold cli.add_contact, cli.add_contact_body. hunfold.
    unfold find, add_phone. munfold. rewrite Hg.
    destruct phone as [|c ph] eqn:Ephone; [done|]. cbn iota.
    rewrite <- Ephone. clear Ephone Hne. rewrite Hr. split.
    + intros [p Hp]. by rewrite Hp, (Phone_init_Ok _ _ Hp).
    + intros Hbad. destruct (Phone_init phone) as [p|e] eqn:Hp;
        [by destruct (Hbad p)|].
      by rewrite (Phone_init_Raise _ _ Hp).
Qed.

Lemma add_contact_spec_witness :
  (let w1 := snd (cli.add_contact [lit "Bob"; lit "abc"] empty_world) in
   fst (cli.add_contact [lit "Bob"; lit "abc"] empty_world)
   = inr (lit "Give me correct data, please.")
   /\ find (lit "Bob") w1 = (Ok (Some ann), w1)
   /\ heap w1 !! ann = Some (mkRecord (mkField (lit "Bob")) [] None))
  /\ fst (cli.add_contact [lit "Ann"; lit "5555555555"] book_feb29)
     = inr (lit "Contact updated.").
Proof.
  split.
  - destruct (add_contact_spec empty_world (lit "Bob") (lit "abc") [])
      as [H _]; [discriminate|].
    destruct H as (_ & _ & H); [reflexivity|].
    rewrite H; [|intros p Hp; vm_compute in Hp; discriminate Hp].
    split; [reflexivity|]. split; vm_compute; reflexivity.
  - destruct (add_contact_spec book_feb29 (lit "Ann") (lit "5555555555") [])
      as [_ H]; [discriminate|].
    destruct (H ann
                (mkRecord (mkField (lit "Ann")) [mkField (lit "1234567890")]
                   (Some (mkField (mkdatetime (mkdate 2000 2 29) 0 0 0 0)))))
      as [H1 _]; [vm_compute; reflexivity | vm_compute; reflexivity |].
    rewrite H1; [reflexivity | by eexists].
Defined.

(** X18: [change_contact]: for a name that is not in the book the reply is
    "Contact not found."; for a name that is, the first phone equal to the
    old number is replaced when the new number is valid ("Contact
    updated."); when the old number is not among the phones, or the new one
    is invalid, the reply is "Give me correct data, please.".  In the last
    three cases nothing changes. *)
Theorem change_contact_spec (w : World) (nm old_phone new_phone : pystr)
    (rest : list pystr) :
  (dict_get (data w) nm = None ->
   cli.change_contact (nm :: old_phone :: new_phone :: rest) w
   = (inr (lit "Contact not found."), w))
  /\ (forall l r, dict_get (data w) nm = Some l -> heap w !! l = Some r ->
      (old_phone ∈ map value (phones r) ->
       (exists q, Phone_init new_phone = Ok q) ->
       cli.change_contact (nm :: old_phone :: new_phone :: rest) w
       = (inr (lit "Contact updated."),
          snd (edit_phone l old_phone new_phone w))
       /\ find_phone l new_phone (snd (edit_phone l old_phone new_phone w))
          = (Ok (Some new_phone),
             snd (edit_phone l old_phone new_phone w)))
      /\ (old_phone ∉ map value (phones r)
          \/ (forall q, Phone_init new_phone ≠ Ok q) ->
          cli.change_contact (nm :: old_phone :: new_phone :: rest) w
          = (inr (lit "Give me correct data, please."), w))).
Proof.
  split.
  - intros Hg. unfold cli.change_contact, cli.change_contact_body. hunfold.
    unfold find. munfold. by rewrite Hg.
  - intros l r Hg Hr. split.
    + intros Hin Hq. split;
        [|by apply (edit_phone_then_found w l r old_phone new_phone)].
      destruct Hq as [q Hq].
      destruct (edit_loop_found _ _ _ q Hin Hq) as (i & ps & El & _).
      unfold cli.change_contact, cli.change_contact_body. hunfold.
      unfold find, edit_phone. munfold. by rewrite Hg, Hr, El.
    + intros Hbad.
      assert (exists msg, edit_loop (phones r) old_phone new_phone
                          = Raise (ValueError msg)) as [msg El].
      { destruct (decide (old_phone ∈ map value (phones r))) as [Hin | Hn].
        - destruct Hbad as [? | Hbad]; [done|].
          destruct (Phone_init new_phone) as [q|e] eqn:Hq;
            [by destruct (Hbad q)|].
          rewrite (edit_loop_invalid _ _ _ e Hin Hq).
          rewrite (Phone_init_Raise _ _ Hq). by eexists.
        - rewrite edit_loop_missing by done. by eexists. }
      unfold cli.change_contact, cli.change_contact_body. hunfold.
      unfold find, edit_phone. munfold. by rewrite Hg, Hr, El.
Qed.

Lemma change_contact_spec_witness :
  cli.change_contact [lit "Zed"; lit "1234567890"; lit "0000000000"]
    book_feb29
  = (inr (lit "Contact not found."), book_feb29)
  /\ fst (cli.change_contact
            [lit "Ann"; lit "1234567890"; lit "0000000000"] book_feb29)
     = inr (lit "Contact updated.")
  /\ cli.change_contact [lit "Ann"; lit "1234567890"; lit "000"] book_feb29
     = (inr (lit "Give me correct data, please."), book_feb29).
Proof.
  split; [|split].
  - apply (change_contact_spec book_feb29 (lit "Zed")). reflexivity.
  - destruct (change_contact_spec book_feb29 (lit "Ann") (lit "1234567890")
                (lit "0000000000") []) as [_ H].
    destruct (H ann
                (mkRecord (mkField (lit "Ann")) [mkField (lit "1234567890")]
                   (Some (mkField (mkdatetime (mkdate 2000 2 29) 0 0 0 0)))))
      as [H1 _]; [vm_compute; reflexivity | vm_compute; reflexivity |].
    destruct H1 as [-> _]; [left | by eexists | reflexivity].
  - destruct (change_contact_spec book_feb29 (lit "Ann") (lit "1234567890")
                (lit "000") []) as [_ H].
    destruct (H ann
                (mkRecord (mkField (lit "Ann")) [mkField (lit "1234567890")]
                   (Some (mkField (mkdatetime (mkdate 2000 2 29) 0 0 0 0)))))
      as [_ H2]; [vm_compute; reflexivity | vm_compute; reflexivity |].
    apply H2. right. intros q Hq. vm_compute in Hq. discriminate Hq.
Defined.

(** X19: [show_phone] changes nothing; it replies "Contact not found." for a
    name that is not in the book, "No phones saved." for a contact without
    phones, and otherwise the phones in their order, joined by ", ". *)
Theorem show_phone_spec (w : World) (nm : pystr) (rest : list pystr) :
  snd (cli.show_phone (nm :: rest) w) = w
  /\ (dict_get (data w) nm = None ->
      fst (cli.show_phone (nm :: rest) w) = inr (lit "Contact not found."))
  /\ (forall l r, dict_get (data w) nm = Some l -> heap w !! l = Some r ->
      fst (cli.show_phone (nm :: rest) w)
      = inr (match phones r with
             | [] => lit "No phones saved."
             | ps => join (lit ", ") (map value ps)
             end)).
Proof.
  unfold cli.show_phone, cli.show_phone_body. hunfold.
  unfold find. munfold.
  destruct (dict_get (data w) nm) as [l|] eqn:Hg.
  - destruct (heap w !! l) as [r|] eqn:Hr.
    + split; [by destruct (phones r)|]. split; [done|].
      intros l' r' [= <-] Hr'. rewrite Hr in Hr'. injection Hr' as <-.
      by destruct (phones r).
    + split; [done|]. split; [done|].
      intros l' r' [= <-] Hr'. congruence.
  - split; [done|]. split; [done|]. done.
Qed.

Lemma show_phone_spec_witness :
  fst (cli.show_phone [lit "John"] (snd (seed_sample_contacts empty_world)))
  = inr (lit "1234567890, 5555555555").
Proof.
  destruct (show_phone_spec (snd (seed_sample_contacts empty_world))
              (lit "John") []) as (_ & _ & H).
  rewrite (H ann
             (mkRecord (mkField (lit "John"))
                [mkField (lit "1234567890"); mkField (lit "5555555555")]
                (Some (mkField (mkdatetime (mkdate 1975 11 4) 0 0 0 0)))));
    [reflexivity | vm_compute; reflexivity | vm_compute; reflexivity].
Defined.

Lemma known_name (w : World) (nm : pystr) (l : loc) :
  keys_are_names w -> dict_get (data w) nm = Some l ->
  exists r, heap w !! l = Some r /\ value (name r) = nm.
Proof. intros Hk Hg. apply Hk. by apply dict_get_Some. Qed.



Lemma birthdays_returns (today : date) (w : World) (args : list pystr) :
  wf w -> valid_date today ->
  exists reply, cli.birthdays today args w = (inr reply, w).
Proof.
  intros Hw Ht. unfold cli.birthdays, cli.birthdays_body. hunfold.
  pose proof (get_upcoming_birthdays_state today w) as Hs.
  destruct (get_upcoming_birthdays today w) as [[out|e] w'] eqn:Hq;
    cbn [snd fst] in *; subst w'.
  - destruct out as [|e0 out]; by eexists.
  - destruct (get_upcoming_birthdays_Raise _ _ _ _ Hw Ht Hq) as [msg ->].
    by eexists.
Qed.

(** X21: The handler [birthdays] always replies and changes nothing: the lines
    "date: name" of the answer of the query, or "No birthdays in the next 7
    days." when the answer is empty; and when the query raises (the year
    after today is beyond the calendar) the reply is "Give me correct data,
    please.". *)
Theorem birthdays_always_replies (today : date) (w : World)
    (args : list pystr) :
  wf w -> valid_date today ->
  exists reply,
    cli.birthdays today args w = (inr reply, w)
    /\ (forall out, fst (get_upcoming_birthdays today w) = Ok out ->
          reply
          = match out with
            | [] => lit "No birthdays in the next 7 days."
            | _ => join [cli.newline]
                     (map (fun it => congratulation_date it ++ lit ": "
                                     ++ entry_name it) out)
            end)
    /\ ((forall out, fst (get_upcoming_birthdays today w) ≠ Ok out) ->
        reply = lit "Give me correct data, please.").
Proof.
  intros Hw Ht. unfold cli.birthdays, cli.birthdays_body. hunfold.
  pose proof (get_upcoming_birthdays_state today w) as Hs.
  destruct (get_upcoming_birthdays today w) as [[out|e] w'] eqn:Hq;
    cbn [snd fst] in *; subst w'.
  - destruct out as [|e0 out].
    + eexists. split; [reflexivity|]. split; [by intros ? [= <-]|].
      intros Hn. by destruct (Hn []).
    + eexists. split; [reflexivity|]. split; [by intros ? [= <-]|].
      intros Hn. by destruct (Hn (e0 :: out)).
  - destruct (get_upcoming_birthdays_Raise _ _ _ _ Hw Ht Hq) as [msg ->].
    eexists. split; [reflexivity|]. split; [by intros ? [=]|]. done.
Qed.

Lemma birthdays_always_replies_witness :
  cli.birthdays (mkdate 9999 3 1) [] book_feb29
  = (inr (lit "Give me correct data, please."), book_feb29)
  /\ cli.birthdays (mkdate 2024 6 20) [] book_june
     = (inr (lit "No birthdays in the next 7 days."), book_june).
Proof.
  split.
  - destruct (birthdays_always_replies (mkdate 9999 3 1) book_feb29 []
                (run_wf _) ltac:(valid)) as (reply & -> & _ & H).
    rewrite H; [reflexivity|]. intros out Ho. vm_compute in Ho.
    discriminate Ho.
  - destruct (birthdays_always_replies (mkdate 2024 6 20) book_june []
                (run_wf _) ltac:(valid)) as (reply & -> & H & _).
    rewrite (H []); [reflexivity|]. vm_compute. reflexivity.
Defined.

Lemma edit_loop_Raise (ps : list Phone) (old_number new_number : pystr)
    (e : exn) :
  edit_loop ps old_number new_number = Raise e ->
  exists msg, e = ValueError msg.
Proof.
  induction ps as [|p ps IH]; cbn.
  - intros [= <-]. by eexists.
  - destruct (decide (value p = old_number)).
    + destruct (Phone_init new_number) as [q|e'] eqn:Hq; [done|].
      cbn. intros [= <-]. rewrite (Phone_init_Raise _ _ Hq). by eexists.
    + destruct (edit_loop ps old_number new_number); [done|].
      cbn. intros [= <-]. by apply IH.
Qed.

Ltac hrun :=
  repeat first
    [ rewrite lookup_insert_eq
    | progress cbn [fst snd heap data name value phones birthday foldl exec] ].

(** X22: On a well-formed book every command replies with a text: no exception
    leaves a handler.  What a command does to the book is what a sequence
    of calls of the core does ([Record], [add_record], [add_phone],
    [edit_phone], [add_birthday]), so the book is well-formed again and
    every invariant of the core holds after any command. *)
Theorem every_command_replies (today : date) (c : cli.command)
    (args : list pystr) (w : World) :
  wf w -> valid_date today ->
  exists reply ops,
    cli.run_command today c args w = (inr reply, execs ops w)
    /\ wf (execs ops w)
    /\ (reachable w -> reachable (execs ops w)).
Proof.
  intros Hw Ht.
  assert (Hk : keys_are_names w) by apply Hw.
  cut (exists reply ops,
         cli.run_command today c args w = (inr reply, execs ops w)).
  { intros (reply & ops & E). exists reply, ops.
    split; [done|]. split; [by apply execs_wf | by apply execs_reachable]. }
  destruct c; cbn [cli.run_command].
  - (* add *)
    unfold cli.add_contact, cli.add_contact_body.
    destruct args as [|nm [|phone rest]];
      [by eexists _, [] | by eexists _, [] |].
    destruct (dict_get (data w) nm) as [l|] eqn:Hg.
    + destruct (known_name w nm l Hk Hg) as (r & Hr & _).
      destruct phone as [|ch ph] eqn:Ephone.
      * eexists _, []. hunfold. unfold find. munfold. by rewrite Hg.
      * rewrite <- Ephone. 
        destruct (Phone_init phone) as [q|e] eqn:Hq.
        -- eexists _, [OpAddPhone l phone]. unfold execs. cbn [foldl exec]. hunfold.
           unfold find, add_phone. munfold. rewrite Hg. hrun.
           rewrite Ephone. cbn iota. rewrite <- Ephone.
           rewrite Hr, Hq. reflexivity.
        -- rewrite (Phone_init_Raise _ _ Hq) in Hq.
           eexists _, []. unfold execs. cbn [foldl exec]. hunfold.
           unfold find, add_phone. munfold. rewrite Hg. hrun.
           rewrite Ephone. cbn iota. rewrite <- Ephone.
           rewrite Hr, Hq. reflexivity.
    + destruct phone as [|ch ph] eqn:Ephone.
      * eexists _, [OpRecord nm; OpAddRecord (fresh (dom (heap w)))].
        unfold execs. cbn [foldl exec]. hunfold.
        unfold find, Record_init, add_record. munfold. rewrite Hg. hrun.
        reflexivity.
      * rewrite <- Ephone.
        destruct (Phone_init phone) as [q|e] eqn:Hq;
          [|rewrite (Phone_init_Raise _ _ Hq) in Hq];
          eexists _, [OpRecord nm; OpAddRecord (fresh (dom (heap w)));
                      OpAddPhone (fresh (dom (heap w))) phone];
          unfold execs; cbn [foldl exec]; hunfold;
          unfold find, Record_init, add_record, add_phone; munfold;
          rewrite Hg; hrun; rewrite Ephone; cbn iota; rewrite <- Ephone;
          hrun; rewrite Hq; reflexivity.
  - (* change *)
    unfold cli.change_contact, cli.change_contact_body.
    destruct args as [|nm [|o [|n rest]]];
      [by eexists _, [] | by eexists _, [] | by eexists _, [] |].
    destruct (dict_get (data w) nm) as [l|] eqn:Hg.
    + destruct (known_name w nm l Hk Hg) as (r & Hr & _).
      destruct (edit_loop (phones r) o n) as [ps|e] eqn:El;
        [|destruct (edit_loop_Raise _ _ _ _ El) as [msg ->]];
        eexists _, [OpEditPhone l o n]; unfold execs; cbn [foldl exec];
        hunfold; unfold find, edit_phone; munfold; rewrite Hg; hrun;
        rewrite Hr, El; reflexivity.
    + eexists _, []. hunfold. unfold find. munfold. by rewrite Hg.
  - (* phone *)
    unfold cli.show_phone, cli.show_phone_body.
    destruct args as [|nm rest]; [by eexists _, []|].
    destruct (dict_get (data w) nm) as [l|] eqn:Hg.
    + destruct (known_name w nm l Hk Hg) as (r & Hr & _).
      destruct (phones r) as [|p0 ps] eqn:Ep;
        eexists _, []; hunfold; unfold find; munfold;
        by rewrite Hg, Hr, Ep.
    + eexists _, []. hunfold. unfold find. munfold. by rewrite Hg.
  - (* all *)
    unfold cli.show_all, cli.show_all_body. hunfold. munfold.
    destruct (data w) as [|kv d] eqn:Ed; [by eexists _, []|].
    destruct (str_all_returns w (dict_values (kv :: d))) as [lines ->].
    + intros l Hl. rewrite <- Ed in Hl.
      destruct (wf_values w l Hw Hl) as (k & r & _ & -> & _). by eexists.
    + by eexists _, [].
  - (* add-birthday *)
    unfold cli.add_birthday, cli.add_birthday_body.
    destruct args as [|nm [|bs rest]];
      [by eexists _, [] | by eexists _, [] |].
    destruct (dict_get (data w) nm) as [l|] eqn:Hg.
    + destruct (known_name w nm l Hk Hg) as (r & Hr & _).
      destruct (Birthday_init bs) as [b|e] eqn:Hb;
        [|rewrite (Birthday_init_Raise _ _ Hb) in Hb];
        eexists _, [OpAddBirthday l bs]; unfold execs; cbn [foldl exec];
        hunfold; unfold find, add_birthday; munfold; rewrite Hg; hrun;
        rewrite Hr, Hb; reflexivity.
    + destruct (Birthday_init bs) as [b|e] eqn:Hb;
        [|rewrite (Birthday_init_Raise _ _ Hb) in Hb];
        eexists _, [OpRecord nm; OpAddRecord (fresh (dom (heap w)));
                    OpAddBirthday (fresh (dom (heap w))) bs];
        unfold execs; cbn [foldl exec]; hunfold;
        unfold find, Record_init, add_record, add_birthday; munfold;
        rewrite Hg; hrun; rewrite Hb; reflexivity.
  - (* show-birthday *)
    unfold cli.show_birthday, cli.show_birthday_body.
    destruct args as [|nm rest]; [by eexists _, []|].
    destruct (dict_get (data w) nm) as [l|] eqn:Hg.
    + destruct (known_name w nm l Hk Hg) as (r & Hr & _).
      destruct (birthday r) as [b|] eqn:Eb;
        eexists _, []; hunfold; unfold find; munfold;
        by rewrite Hg, Hr, Eb.
    + eexists _, []. hunfold. unfold find. munfold. by rewrite Hg.
  - (* birthdays *)
    destruct (birthdays_returns today w args Hw Ht) as (reply & E).
    by exists reply, [].
Qed.

Lemma every_command_replies_witness :
  exists reply ops,
    cli.run_command (mkdate 2024 6 10) cli.Add [lit "Bob"; lit "abc"]
      book_june
    = (inr reply, execs ops book_june)
    /\ wf (execs ops book_june).
Proof.
  destruct (every_command_replies (mkdate 2024 6 10) cli.Add
              [lit "Bob"; lit "abc"] book_june (run_wf _) ltac:(valid))
    as (reply & ops & E & Hw & _).
  by exists reply, ops.
Defined.

End commands.

(** ** The demonstration contacts *)

Section seed.

Lemma seed_phone_1 :
  Phone_init (lit "1234567890") = Ok (mkField (lit "1234567890")).
Proof. reflexivity. Qed.

Lemma seed_phone_2 :
  Phone_init (lit "5555555555") = Ok (mkField (lit "5555555555")).
Proof. reflexivity. Qed.

Lemma seed_phone_3 :
  Phone_init (lit "9876543210") = Ok (mkField (lit "9876543210")).
Proof. reflexivity. Qed.

Lemma seed_birthday :
  Birthday_init (lit "04.11.1975")
  = Ok (mkField (mkdatetime (mkdate 1975 11 4) 0 0 0 0)).
Proof. reflexivity. Qed.

Lemma seed_names : lit "John" ≠ lit "Jane".
Proof. discriminate. Qed.

Ltac seed_run :=
  repeat first
    [ rewrite lookup_insert_eq | rewrite insert_insert_eq
    | rewrite seed_phone_1 | rewrite seed_phone_2 | rewrite seed_phone_3
    | rewrite seed_birthday
    | progress cbn [fst snd heap data name value phones birthday app
                    dict_set] ].

Ltac seed_step :=
  match goal with
  | |- context [exec ?o {| heap := ?h; data := ?d |}] =>
      let E := fresh "E" in
      eassert (E : exec o (mkWorld h d) = _);
      [ unfold exec, Record_init, add_phone, add_birthday, add_record;
        munfold; seed_run; reflexivity
      | rewrite E; clear E ]
  end.

Lemma seed_on_empty (w : World) :
  data w = [] ->
  let l1 := fresh (dom (heap w)) in
  let l2 := fresh (dom (<[l1 := john]> (heap w))) in
  let w' := mkWorld (<[l2 := jane]> (<[l1 := john]> (heap w)))
              [(lit "John", l1); (lit "Jane", l2)] in
  seed_sample_contacts w = (Ok tt, w') /\ execs (seed_ops l1 l2) w = w'.
Proof.
  intros Hd l1 l2 w'. subst w'. split.
  - unfold seed_sample_contacts, Record_init, add_phone, add_birthday,
      add_record. munfold. rewrite Hd. fold l1. seed_run.
    rewrite ?Hd. cbn [dict_set].
    rewrite decide_False by apply seed_names. reflexivity.
  - destruct w as [h d]. cbn [data heap] in *. subst d l2 l1.
    unfold execs, seed_ops, john. cbn [foldl].
    do 9 seed_step.
    rewrite decide_False by apply seed_names. reflexivity.
Qed.

Lemma seed_on_filled (w : World) :
  data w ≠ [] -> seed_sample_contacts w = (Ok tt, w).
Proof.
  intros Hd. unfold seed_sample_contacts. munfold.
  destruct (data w) as [|kv d]; [by destruct Hd | reflexivity].
Qed.

Lemma seed_is_calls (w : World) :
  exists ops, seed_sample_contacts w = (Ok tt, execs ops w).
Proof.
  destruct (data w) as [|kv d] eqn:Hd.
  - destruct (seed_on_empty w Hd) as [E1 E2].
    eexists. rewrite E1, <- E2. reflexivity.
  - exists []. apply (seed_on_filled w). by rewrite Hd.
Qed.

(** X23: [seed_sample_contacts] on an empty book: it returns, and the book then
    holds John and Jane, in this order, each name leading to an object of
    its own that was not there before, with the phones and the birthday of
    the source; no other object changes. *)
Theorem seed_fills_an_empty_book (w : World) :
  data w = [] ->
  exists l1 l2,
    l1 ≠ l2 /\ heap w !! l1 = None /\ heap w !! l2 = None
    /\ seed_sample_contacts w
       = (Ok tt,
          mkWorld (<[l2 := jane]> (<[l1 := john]> (heap w)))
            [(lit "John", l1); (lit "Jane", l2)])
    /\ birthday john = birthday jane
    /\ (forall l r, heap w !! l = Some r ->
          heap (snd (seed_sample_contacts w)) !! l = Some r).
Proof.
  intros Hd. destruct (seed_on_empty w Hd) as [E _].
  set (l1 := fresh (dom (heap w))) in *.
  set (l2 := fresh (dom (<[l1 := john]> (heap w)))) in *.
  assert (H1 : heap w !! l1 = None) by apply not_elem_of_dom, is_fresh.
  assert (H2 : <[l1 := john]> (heap w) !! l2 = None)
    by apply not_elem_of_dom, is_fresh.
  assert (Hne : l1 ≠ l2).
  { intros E'. rewrite <- E', lookup_insert_eq in H2. discriminate H2. }
  rewrite lookup_insert_ne in H2 by done.
  exists l1, l2. split; [done|]. split; [done|]. split; [done|].
  split; [exact E|]. split; [reflexivity|].
  intros l r Hl. rewrite E. cbn [snd heap].
  rewrite !lookup_insert_ne; [done| |]; intros <-; congruence.
Qed.

Lemma seed_fills_an_empty_book_witness :
  exists l1 l2,
    l1 ≠ l2 /\ heap empty_world !! l1 = None
    /\ heap empty_world !! l2 = None
    /\ seed_sample_contacts empty_world
       = (Ok tt,
          mkWorld (<[l2 := jane]> (<[l1 := john]> (heap empty_world)))
            [(lit "John", l1); (lit "Jane", l2)])
    /\ birthday john = birthday jane
    /\ (forall l r, heap empty_world !! l = Some r ->
          heap (snd (seed_sample_contacts empty_world)) !! l = Some r).
Proof. apply (seed_fills_an_empty_book empty_world). reflexivity. Defined.

(** X24: [seed_sample_contacts] never raises; it leaves the book as it is exactly
    when the book already has an entry, so a second call changes nothing. *)
Theorem seed_only_an_empty_book (w : World) :
  fst (seed_sample_contacts w) = Ok tt
  /\ (snd (seed_sample_contacts w) = w <-> data w ≠ [])
  /\ snd (seed_sample_contacts (snd (seed_sample_contacts w)))
     = snd (seed_sample_contacts w).
Proof.
  destruct (data w) as [|kv d] eqn:Hd.
  - destruct (seed_on_empty w Hd) as [E _]. rewrite E. cbn [fst snd].
    split; [done|]. split.
    + split; [|done]. intros Hw. apply (f_equal data) in Hw.
      rewrite Hd in Hw. discriminate Hw.
    + by rewrite seed_on_filled.
  - assert (Hne : data w ≠ []) by (by rewrite Hd).
    rewrite !(seed_on_filled w Hne). cbn [fst snd].
    rewrite (seed_on_filled w Hne). done.
Qed.

(** X25: What [seed_sample_contacts] leaves is a book that calls of the classes
    produce: well formed, with valid phones, and reachable if the book it was
    given is. *)
Theorem seed_keeps_the_book_well_formed (w : World) :
  wf w ->
  wf (snd (seed_sample_contacts w))
  /\ (phones_valid w -> phones_valid (snd (seed_sample_contacts w)))
  /\ (reachable w -> reachable (snd (seed_sample_contacts w))).
Proof.
  intros Hw. destruct (seed_is_calls w) as [ops E]. rewrite E. cbn [snd].
  split; [by apply execs_wf|]. split; [|apply execs_reachable].
  clear E. unfold execs. revert w Hw.
  induction ops as [|o ops IH]; intros w Hw Hp; cbn [foldl]; [done|].
  apply IH; [by apply exec_wf | by apply exec_phones_valid].
Qed.

Lemma seed_keeps_the_book_well_formed_witness :
  wf (snd (seed_sample_contacts empty_world))
  /\ (phones_valid empty_world ->
      phones_valid (snd (seed_sample_contacts empty_world)))
  /\ (reachable empty_world ->
      reachable (snd (seed_sample_contacts empty_world))).
Proof.
  apply (seed_keeps_the_book_well_formed empty_world), reachable_wf.
  constructor.
Defined.

End seed.

(** ** Reading a command line *)

Section command_line.

Variable lower : pystr -> pystr.

Lemma rev_not_nil {A} (a : A) (l : list A) : rev (a :: l) ≠ [].
Proof.
  intros E. apply (f_equal (@length A)) in E.
  rewrite length_rev in E. discriminate E.
Qed.

Lemma split_go_tokens (cur s : pystr) :
  Forall (fun c => isspace_char c = false) cur ->
  Forall token (split_go cur s).
Proof.
  revert cur. induction s as [|c s IH]; intros cur Hc; cbn [split_go].
  - destruct cur as [|a cur]; [constructor|].
    constructor; [|constructor].
    split; [apply rev_not_nil | by apply Forall_rev].
  - destruct (isspace_char c) eqn:Ec.
    + destruct cur as [|a cur]; [apply IH; constructor|].
      constructor; [|apply IH; constructor].
      split; [apply rev_not_nil | by apply Forall_rev].
    + apply IH. by constructor.
Qed.

Lemma split_go_concat (cur s : pystr) :
  concat (split_go cur s)
  = rev cur ++ List.filter (fun c => negb (isspace_char c)) s.
Proof.
  revert cur. induction s as [|c s IH]; intros cur;
    cbn [split_go List.filter].
  - destruct cur as [|a cur]; [done|].
    cbn [concat]. by rewrite !app_nil_r.
  - destruct (isspace_char c) eqn:Ec; cbn [negb].
    + destruct cur as [|a cur]; [apply IH|].
      cbn [concat]. by rewrite IH.
    + rewrite IH. cbn [rev]. by rewrite <- app_assoc.
Qed.

Lemma filter_nil_blank (s : pystr) :
  List.filter (fun c => negb (isspace_char c)) s = [] <-> blank s.
Proof.
  unfold blank. induction s as [|c s IH]; cbn [List.filter].
  - split; [constructor|done].
  - destruct (isspace_char c) eqn:Ec; cbn [negb].
    + rewrite IH. split; [by constructor|by inversion 1].
    + split; [done|]. inversion 1; congruence.
Qed.

Lemma split_nil (s : pystr) : split s = [] <-> blank s.
Proof.
  rewrite <- filter_nil_blank.
  pose proof (split_go_concat [] s) as Hc.
  pose proof (split_go_tokens [] s (Forall_nil_2 _)) as Ht.
  fold (split s) in Hc, Ht. cbn [rev app] in Hc. rewrite <- Hc.
  destruct (split s) as [|t ts]; [done|].
  split; [done|]. cbn [concat]. intros E.
  apply app_eq_nil in E as [E _].
  inversion Ht as [|? ? [Hne _] _]; subst. done.
Qed.

Lemma split_lstrip (s : pystr) : split (lstrip s) = split s.
Proof.
  induction s as [|c s IH]; cbn [lstrip]; [done|].
  destruct (isspace_char c) eqn:Ec; [|done].
  rewrite IH. unfold split. cbn [split_go]. by rewrite Ec.
Qed.

Lemma split_go_trailing (cur s : pystr) (c : N) :
  isspace_char c = true -> split_go cur (s ++ [c]) = split_go cur s.
Proof.
  intros Hc. revert cur.
  induction s as [|a s IH]; intros cur; cbn [app split_go].
  - rewrite Hc. by destruct cur.
  - destruct (isspace_char a); [destruct cur|]; by rewrite ?IH.
Qed.

Lemma split_rstrip (u : pystr) : split (rev (lstrip u)) = split (rev u).
Proof.
  induction u as [|c u IH]; cbn [lstrip]; [done|].
  destruct (isspace_char c) eqn:Ec; [|done].
  cbn [rev]. rewrite IH. unfold split. by rewrite split_go_trailing.
Qed.

Lemma split_strip (s : pystr) : split (strip s) = split s.
Proof.
  unfold strip. rewrite split_rstrip, rev_involutive. apply split_lstrip.
Qed.

Lemma lstrip_head (s : pystr) (c : N) (r : pystr) :
  lstrip s = c :: r -> isspace_char c = false.
Proof.
  induction s as [|a s IH]; cbn [lstrip]; [done|].
  destruct (isspace_char a) eqn:Ea; [exact IH|].
  by intros [= <- <-].
Qed.

Lemma strip_nil (s : pystr) : strip s = [] <-> blank s.
Proof.
  rewrite <- split_nil. split.
  - intros E. by rewrite <- split_strip, E.
  - intros E. rewrite <- split_strip in E. apply split_nil in E.
    unfold strip in *.
    destruct (lstrip (rev (lstrip s))) as [|c r] eqn:El; [done|].
    apply lstrip_head in El. cbn [rev] in E.
    apply Forall_app in E as [_ E]. inversion E; congruence.
Qed.

Lemma split_go_word (t cur s : pystr) :
  Forall (fun c => isspace_char c = false) t ->
  split_go cur (t ++ s) = split_go (rev t ++ cur) s.
Proof.
  revert cur. induction t as [|a t IH]; intros cur Ht; cbn [app rev];
    [done|].
  inversion Ht as [|? ? Ha Ht']; subst. cbn [split_go]. rewrite Ha.
  rewrite IH by done. by rewrite <- app_assoc.
Qed.

Lemma join_cons (sep x y : pystr) (l : list pystr) :
  join sep (x :: y :: l) = x ++ sep ++ join sep (y :: l).
Proof. reflexivity. Qed.

Lemma split_join (toks : list pystr) :
  Forall token toks -> split (join [space] toks) = toks.
Proof.
  induction toks as [|t toks IH]; intros Ht; [done|].
  inversion Ht as [|? ? [Hne Hns] Hts]; subst.
  assert (Hr : exists a r, rev t = a :: r).
  { destruct (rev t) as [|a r] eqn:E; [|by eauto].
    apply (f_equal (@rev N)) in E. rewrite rev_involutive in E. done. }
  destruct Hr as (a & r & Hr).
  destruct toks as [|t' toks'].
  - cbn [join]. unfold split. rewrite <- (app_nil_r t) at 1.
    rewrite split_go_word by done. cbn [split_go].
    rewrite app_nil_r, Hr, <- Hr. by rewrite rev_involutive.
  - rewrite join_cons. unfold split. rewrite split_go_word by done.
    rewrite app_nil_r. cbn [app split_go].
    assert (isspace_char space = true) as -> by reflexivity.
    rewrite Hr, <- Hr, rev_involutive. f_equal. by apply IH.
Qed.

(** X26: [parse_input] raises (the [ValueError] of the unpacking) exactly on a
    text of white space only.  On every other text it returns the lowered
    first word and the other words: each word is non-empty and free of white
    space, and together they are the characters of the text that are not
    white space, in order.  Outer white space changes nothing. *)
Theorem parse_input_spec (s : pystr) :
  ((blank s
    /\ cli.parse_input lower s
       = Raise (ValueError (cli.msg_unpack 1 0)))
   \/ (~ blank s
       /\ exists cmd args,
            cli.parse_input lower s = Ok (lower cmd, args)
            /\ Forall token (cmd :: args)
            /\ concat (cmd :: args)
               = List.filter (fun c => negb (isspace_char c)) s))
  /\ cli.parse_input lower (strip s) = cli.parse_input lower s.
Proof.
  split.
  - unfold cli.parse_input. rewrite split_strip.
    pose proof (split_nil s) as Hn.
    pose proof (split_go_concat [] s) as Hc.
    pose proof (split_go_tokens [] s (Forall_nil_2 _)) as Ht.
    fold (split s) in Hc, Ht. cbn [rev app] in Hc.
    destruct (split s) as [|cmd args].
    + left. split; [by apply Hn | done].
    + right. split; [intros Hb; by apply Hn in Hb|].
      by exists cmd, args.
  - unfold cli.parse_input. by rewrite !split_strip.
Qed.

(** X27: The loop of [main] strips the line and skips it when nothing is left;
    so the call of [parse_input] that follows never raises, and the command
    is the lowered form of a non-empty word. *)
Theorem main_loop_input_parses (user_input : pystr) :
  strip user_input ≠ [] ->
  exists cmd args,
    cli.parse_input lower (strip user_input) = Ok (lower cmd, args)
    /\ token cmd.
Proof.
  intros Hs. unfold cli.parse_input. rewrite !split_strip.
  pose proof (split_nil user_input) as Hn.
  pose proof (split_go_tokens [] user_input (Forall_nil_2 _)) as Ht.
  fold (split user_input) in Ht.
  destruct (split user_input) as [|cmd args].
  - destruct Hs. apply strip_nil, Hn. done.
  - exists cmd, args. split; [done|]. by inversion Ht.
Qed.

(** X28: Words joined by single spaces are read back as they are: the first one
    lowered as the command, the others as the arguments. *)
Theorem parse_input_reads_words (cmd : pystr) (args : list pystr) :
  Forall token (cmd :: args) ->
  cli.parse_input lower (join [space] (cmd :: args))
  = Ok (lower cmd, args).
Proof.
  intros Ht. unfold cli.parse_input.
  by rewrite split_strip, split_join.
Qed.

End command_line.

Lemma main_loop_input_parses_witness :
  strip (lit " Add John  1234567890 ") ≠ []
  /\ exists cmd args,
       cli.parse_input (fun s => s) (strip (lit " Add John  1234567890 "))
       = Ok (cmd, args)
       /\ token cmd.
Proof.
  split; [discriminate|].
  apply (main_loop_input_parses (fun s => s)). discriminate.
Defined.

Lemma parse_input_reads_words_witness :
  cli.parse_input (fun s => s)
    (join [space] [lit "phone"; lit "John"])
  = Ok (lit "phone", [lit "John"]).
Proof.
  apply (parse_input_reads_words (fun s => s)).
  repeat constructor; discriminate.
Defined.

(** ** Listing the book *)

Section listing.

Lemma str_all_map (w : World) (values : list loc) (recs : list RecordObj) :
  Forall2 (fun l r => heap w !! l = Some r) values recs ->
  cli.str_all values w = (inr (map Record_str recs), w).
Proof.
  induction 1 as [|l r values recs Hl _ IH]; cbn [cli.str_all map].
  - reflexivity.
  - hunfold. munfold. rewrite Hl.
    unfold cli.hbind, cli.hret in IH. by rewrite IH.
Qed.

Lemma records_of_book (w : World) :
  keys_are_names w ->
  exists recs,
    Forall2 (fun kl r => heap w !! snd kl = Some r /\ value (name r) = fst kl)
      (data w) recs.
Proof.
  unfold keys_are_names. induction (data w) as [|[k l] d IH]; intros Hk.
  - exists []. constructor.
  - destruct (Hk k l) as (r & Hr & Hn); [left|].
    destruct IH as [recs Hrecs]; [intros k' l' H'; apply Hk; by right|].
    exists (r :: recs). by constructor.
Qed.

(** X29: [show_all] ignores its arguments and changes nothing.  On an empty book
    the reply is the text that says so; otherwise it is one text per entry of
    the dictionary, in the dictionary's order, each the [__str__] of the
    record that the entry leads to (whose name is the key), joined by line
    breaks. *)
Theorem show_all_lists_the_book (args : list pystr) (w : World) :
  keys_are_names w ->
  exists recs,
    Forall2 (fun kl r => heap w !! snd kl = Some r /\ value (name r) = fst kl)
      (data w) recs
    /\ cli.show_all args w
       = (inr (match recs with
               | [] => lit "No contacts yet."
               | _ => join [cli.newline] (map Record_str recs)
               end), w).
Proof.
  intros Hk. destruct (records_of_book w Hk) as [recs Hrecs].
  exists recs. split; [done|].
  assert (Hv : Forall2 (fun l r => heap w !! l = Some r)
                 (dict_values (data w)) recs).
  { unfold dict_values. clear Hk.
    induction Hrecs as [|kl r d recs [Hl _] _ IH]; cbn [map];
      by constructor. }
  apply str_all_map in Hv.
  unfold cli.show_all, cli.show_all_body. hunfold. munfold.
  destruct (data w) as [|kl d] eqn:Hd.
  - by inversion Hrecs.
  - rewrite Hv. by inversion Hrecs.
Qed.

Lemma show_all_lists_the_book_witness :
  exists recs,
    Forall2 (fun kl r => heap book_june !! snd kl = Some r
                         /\ value (name r) = fst kl)
      (data book_june) recs
    /\ cli.show_all [] book_june
       = (inr (match recs with
               | [] => lit "No contacts yet."
               | _ => join [cli.newline] (map Record_str recs)
               end), book_june).
Proof.
  apply (show_all_lists_the_book [] book_june).
  exact (proj1 (proj2 (run_wf _))).
Defined.

(** X30: A first run: the book that was loaded is empty, [seed_sample_contacts]
    fills it, and the command [all] then prints John and Jane, one line
    each, with their phones and birthday. *)
Theorem first_run_lists_john_and_jane (args : list pystr) (w : World) :
  data w = [] ->
  cli.show_all args (snd (seed_sample_contacts w))
  = (inr (join [cli.newline]
            [lit "Contact name: John, phones: 1234567890; 5555555555"
             ++ lit ", birthday: 04.11.1975";
             lit "Contact name: Jane, phones: 9876543210"
             ++ lit ", birthday: 04.11.1975"]),
     snd (seed_sample_contacts w)).
Proof.
  intros Hd. destruct (seed_on_empty w Hd) as [E _]. rewrite E.
  cbn [snd].
  set (l1 := fresh (dom (heap w))).
  set (l2 := fresh (dom (<[l1 := john]> (heap w)))).
  assert (Hne : l1 ≠ l2).
  { assert (H2 : <[l1 := john]> (heap w) !! l2 = None)
      by apply not_elem_of_dom, is_fresh.
    intros E'. rewrite <- E', lookup_insert_eq in H2. discriminate H2. }
  unfold cli.show_all, cli.show_all_body. hunfold. munfold.
  cbn [data dict_values map cli.str_all heap fst snd].
  hunfold. munfold.
  repeat first
    [ rewrite lookup_insert_eq | rewrite lookup_insert_ne by done
    | progress cbn [heap data fst snd] ].
  reflexivity.
Qed.

Lemma first_run_lists_john_and_jane_witness :
  cli.show_all [] (snd (seed_sample_contacts empty_world))
  = (inr (join [cli.newline]
            [lit "Contact name: John, phones: 1234567890; 5555555555"
             ++ lit ", birthday: 04.11.1975";
             lit "Contact name: Jane, phones: 9876543210"
             ++ lit ", birthday: 04.11.1975"]),
     snd (seed_sample_contacts empty_world)).
Proof.
  apply (first_run_lists_john_and_jane [] empty_world). reflexivity.
Defined.

End listing.
